(** * AXP power-management driver and simulator sector stubs

    A shallow embedding of [axp-pmu.c] (the AXP192 PMU driver) and of the
    sector stubs of [uisimulator/common/stubs.c], with the properties the
    specification states about them.

    C [int] values are integers of [Z]; where the C code narrows to
    [uint8_t] or [uint32_t] the reduction is written out.  The I2C bus is
    an explicit register file with a script of transaction outcomes and a
    trace of the transactions issued; the driver's static [axp] structure
    is a record threaded through every operation. *)

From Stdlib Require Import ZArith List Bool Lia String Ascii.
From stdpp Require Import base gmap strings list.
Import ListNotations.

Local Open Scope Z_scope.

(** ** C integers *)

Module CInt.

Definition INT_MIN : Z := - 2 ^ 31.
Definition INT_MAX : Z := 2 ^ 31 - 1.

Definition in_int (z : Z) : Prop := INT_MIN <= z <= INT_MAX.

(** Reduction of a mathematical result to a 32-bit two's complement
    [int].  Signed overflow is undefined in C; the model wraps, as the
    targets of this firmware do, and every statement about arithmetic
    results says when the result is in range. *)
Definition wrap_int (z : Z) : Z := (z + 2 ^ 31) mod 2 ^ 32 - 2 ^ 31.

Definition int_mul (a b : Z) : Z := wrap_int (a * b).
Definition int_sub (a b : Z) : Z := wrap_int (a - b).
(** C division truncates toward zero. *)
Definition int_div (a b : Z) : Z := wrap_int (Z.quot a b).

Definition u8 (z : Z) : Z := z mod 2 ^ 8.
Definition u32 (z : Z) : Z := z mod 2 ^ 32.

(** A C condition: any nonzero value is true. *)
Definition c_true (z : Z) : bool := negb (z =? 0).
(** The [int] value of a comparison. *)
Definition c_bool (b : bool) : Z := if b then 1 else 0.

End CInt.
Import CInt.

(** [for (i = lo; i < lo + n; ++i) body] over a state. *)
Fixpoint for_loop {S : Type} (n : nat) (i : Z) (body : Z -> S -> S) (s : S) : S :=
  match n with
  | O => s
  | S n' => for_loop n' (i + 1) body (body i s)
  end.

(** ** The I2C register bus *)

Inductive bus_op : Type :=
  | BusRead (reg count : Z)
  | BusWrite (reg : Z) (data : list Z)
  | BusModify (reg clr set : Z).

(** [regs] is the chip's register file, [faults] the outcomes of the
    coming transactions ([true]: the transaction fails; an exhausted
    script means success), [trace] the transactions issued so far. *)
Record i2c_bus : Type := mk_bus {
  regs : Z -> Z;
  faults : list bool;
  trace : list bus_op
}.

Definition next_fault (b : i2c_bus) : bool := hd false (faults b).

Definition bus_step (op : bus_op) (new_regs : Z -> Z) (b : i2c_bus) : i2c_bus :=
  {| regs := if next_fault b then regs b else new_regs;
     faults := tl (faults b);
     trace := trace b ++ [op] |}.

Definition reg_store (r : Z -> Z) (reg v : Z) : Z -> Z :=
  fun a => if a =? reg then u8 v else r a.

Fixpoint reg_store_many (r : Z -> Z) (reg : Z) (data : list Z) : Z -> Z :=
  match data with
  | [] => r
  | v :: data' => reg_store_many (reg_store r reg v) (reg + 1) data'
  end.

Fixpoint reg_load_many (r : Z -> Z) (reg : Z) (count : nat) : list Z :=
  match count with
  | O => []
  | S count' => u8 (r reg) :: reg_load_many r (reg + 1) count'
  end.

(** Modelled from the spec: the bus primitives are declared in
    [i2c-async.h], which is not part of the sources at hand.  The spec
    names them "read/write/modify/set-bit primitives operating on 8-bit
    registers"; a failed transaction "returns a non-success status or
    negative value" (here [I2C_STATUS_ERROR]) and, in this model, leaves
    the register file as it was. *)
Definition I2C_STATUS_ERROR : Z := -1.

(** Modelled from the spec: [i2c_reg_read] reads [count] consecutive
    registers; [None] stands for a status other than [I2C_STATUS_OK],
    after which the driver never looks at the buffer. *)
Definition i2c_reg_read (reg count : Z) (b : i2c_bus) : option (list Z) * i2c_bus :=
  let b' := bus_step (BusRead reg count) (regs b) b in
  if next_fault b then (None, b')
  else (Some (reg_load_many (regs b) reg (Z.to_nat count)), b').

(** Modelled from the spec: [i2c_reg_read1] reads one register and
    returns its value, or a negative status when the read fails. *)
Definition i2c_reg_read1 (reg : Z) (b : i2c_bus) : Z * i2c_bus :=
  match i2c_reg_read reg 1 b with
  | (Some (v :: _), b') => (v, b')
  | (_, b') => (I2C_STATUS_ERROR, b')
  end.

(** Modelled from the spec: [i2c_reg_write] writes consecutive registers
    in one transaction; the driver drops its status. *)
Definition i2c_reg_write (reg : Z) (data : list Z) (b : i2c_bus) : i2c_bus :=
  bus_step (BusWrite reg data) (reg_store_many (regs b) reg data) b.

(** Modelled from the spec: [i2c_reg_modify1] is "a masked register
    modify that preserves unrelated bits": the bits of [clr] are cleared
    in the old value and the new value is put in.  The driver itself
    moves the value into the position of the mask before the call
    ([axp_adc_set_rate] passes [(rate & 3) << 6] for the mask [0xc0]), so
    the primitive does not shift.  Whether bits of the value that lie
    outside the mask are dropped or written is not said; both readings
    are kept, and every statement below holds for either. *)
Inductive modify_reading : Type :=
  | ValueMasked
  | ValueAsGiven.

Definition modify_byte (rd : modify_reading) (old clr set : Z) : Z :=
  let kept := Z.land (u8 old) (Z.lxor (u8 clr) 255) in
  match rd with
  | ValueMasked => Z.lor kept (Z.land (u8 set) (u8 clr))
  | ValueAsGiven => Z.lor kept (u8 set)
  end.

Definition i2c_reg_modify1 (rd : modify_reading) (reg clr set : Z) (b : i2c_bus) : i2c_bus :=
  bus_step (BusModify reg clr set)
           (reg_store (regs b) reg (modify_byte rd (regs b reg) clr set)) b.

(** Modelled from the spec: [i2c_reg_setbit1] is "a single-bit register
    modify": bit [bit] of the register becomes [value]. *)
Definition i2c_reg_setbit1 (rd : modify_reading) (reg bit value : Z) (b : i2c_bus) : i2c_bus :=
  let clr := u8 (Z.shiftl 1 bit) in
  let set := if c_true value then clr else 0 in
  i2c_reg_modify1 rd reg clr set b.

(** Modelled from the spec: [find_first_set_bit] comes from [system.h];
    the spec uses it as "the mask's lowest set bit position".  For a
    value without a set bit among the low 32 it yields 32. *)
Fixpoint ffs_from (fuel : nat) (i : Z) (x : Z) : Z :=
  match fuel with
  | O => i
  | S fuel' => if Z.testbit x i then i else ffs_from fuel' (i + 1) x
  end.

Definition find_first_set_bit (x : Z) : Z := ffs_from 32 0 x.

(** ** Tables of the driver *)

(** Modelled from the spec: the channel numbers are an enumeration of
    [axp-pmu.h]; their order is that of the comments in [axp_adc_info]
    and of [adc_names]. *)
Definition ADC_ACIN_VOLTAGE : Z := 0.
Definition ADC_ACIN_CURRENT : Z := 1.
Definition ADC_VBUS_VOLTAGE : Z := 2.
Definition ADC_VBUS_CURRENT : Z := 3.
Definition ADC_INTERNAL_TEMP : Z := 4.
Definition ADC_TS_INPUT : Z := 5.
Definition ADC_BATTERY_VOLTAGE : Z := 6.
Definition ADC_CHARGE_CURRENT : Z := 7.
Definition ADC_DISCHARGE_CURRENT : Z := 8.
Definition ADC_APS_VOLTAGE : Z := 9.
Definition ADC_BATTERY_POWER : Z := 10.
Definition NUM_ADC_CHANNELS : Z := 11.

(** [set_enabled] subtracts the literal [0x82] where [init] subtracts
    [AXP_REG_ADCENABLE1]; the second register follows it. *)
Definition AXP_REG_ADCENABLE1 : Z := 0x82.
Definition AXP_REG_ADCENABLE2 : Z := 0x83.

Record axp_adc_info_t : Type := mk_adc_info {
  reg : Z;
  adc_en_reg : Z;
  adc_en_bit : Z
}.

Definition axp_adc_info : list axp_adc_info_t :=
  [ mk_adc_info 0x56 AXP_REG_ADCENABLE1 5   (* ACIN_VOLTAGE *)
  ; mk_adc_info 0x58 AXP_REG_ADCENABLE1 4   (* ACIN_CURRENT *)
  ; mk_adc_info 0x5a AXP_REG_ADCENABLE1 3   (* VBUS_VOLTAGE *)
  ; mk_adc_info 0x5c AXP_REG_ADCENABLE1 2   (* VBUS_CURRENT *)
  ; mk_adc_info 0x5e AXP_REG_ADCENABLE2 7   (* INTERNAL_TEMP *)
  ; mk_adc_info 0x62 AXP_REG_ADCENABLE1 1   (* TS_INPUT *)
  ; mk_adc_info 0x78 AXP_REG_ADCENABLE1 7   (* BATTERY_VOLTAGE *)
  ; mk_adc_info 0x7a AXP_REG_ADCENABLE1 6   (* CHARGE_CURRENT *)
  ; mk_adc_info 0x7c AXP_REG_ADCENABLE1 6   (* DISCHARGE_CURRENT *)
  ; mk_adc_info 0x7e AXP_REG_ADCENABLE1 1   (* APS_VOLTAGE *)
  ; mk_adc_info 0x70 0xff 0                 (* BATTERY_POWER *)
  ].

(** [axp_adc_info[adc]]; the index is in range wherever the driver's
    callers are (an index outside the array is undefined in C). *)
Definition adc_info_at (adc : Z) : axp_adc_info_t :=
  nth (Z.to_nat adc) axp_adc_info (mk_adc_info 0 0 0).

Record axp_supply_info_t : Type := mk_supply_info {
  volt_reg : Z;
  volt_reg_mask : Z;
  en_reg : Z;
  en_bit : Z;
  min_mV : Z;
  max_mV : Z;
  step_mV : Z
}.

(** Modelled from the spec: the supply identifiers are an enumeration of
    [axp-pmu.h]; [supply_names] lists the seven of them in order. *)
Inductive supply_id : Type :=
  | AXP_SUPPLY_DCDC1
  | AXP_SUPPLY_DCDC2
  | AXP_SUPPLY_DCDC3
  | AXP_SUPPLY_LDO1
  | AXP_SUPPLY_LDO2
  | AXP_SUPPLY_LDO3
  | AXP_SUPPLY_LDO_IO0.

(** The table is filled by designated initialisers; LDO1 has none and is
    therefore all zero. *)
Definition axp_supply_info (supply : supply_id) : axp_supply_info_t :=
  match supply with
  | AXP_SUPPLY_DCDC1 => mk_supply_info 0x26 0x7f 0x12 0 700 3500 25
  | AXP_SUPPLY_DCDC2 => mk_supply_info 0x23 0x3f 0x10 0 700 2275 25
  | AXP_SUPPLY_DCDC3 => mk_supply_info 0x27 0x7f 0x12 1 700 3500 25
  | AXP_SUPPLY_LDO1 => mk_supply_info 0 0 0 0 0 0 0
  | AXP_SUPPLY_LDO2 => mk_supply_info 0x28 0xf0 0x12 2 1800 3300 100
  | AXP_SUPPLY_LDO3 => mk_supply_info 0x28 0x0f 0x12 3 1800 3300 100
  | AXP_SUPPLY_LDO_IO0 => mk_supply_info 0x91 0xf0 0x90 0xff 1800 3300 100
  end.

Definition chargecurrent_tbl : list Z :=
  [ 100; 190; 280; 360;
    450; 550; 630; 700;
    780; 880; 960; 1000;
    1080; 1160; 1240; 1320 ].

Definition chargecurrent_tblsz : Z := Z.of_nat (length chargecurrent_tbl).

Definition chargecurrent_at (i : Z) : Z := nth (Z.to_nat i) chargecurrent_tbl 0.

(** ** Driver state *)

Record axp_driver : Type := mk_axp {
  adc_enable : Z;
  chargecurrent_setting : Z;
  chip_id : Z
}.

(** The driver's static structure together with the bus it talks to. *)
Record world : Type := mk_world {
  axp : axp_driver;
  bus : i2c_bus
}.

Definition set_adc_enable (v : Z) (a : axp_driver) : axp_driver :=
  {| adc_enable := v;
     chargecurrent_setting := chargecurrent_setting a;
     chip_id := chip_id a |}.

Definition set_chargecurrent_setting (v : Z) (a : axp_driver) : axp_driver :=
  {| adc_enable := adc_enable a;
     chargecurrent_setting := v;
     chip_id := chip_id a |}.

Definition set_chip_id (v : Z) (a : axp_driver) : axp_driver :=
  {| adc_enable := adc_enable a;
     chargecurrent_setting := chargecurrent_setting a;
     chip_id := v |}.

(** A small state monad over [world] for the driver's operations. *)
Definition drv (A : Type) : Type := world -> A * world.

Definition ret {A : Type} (a : A) : drv A := fun w => (a, w).

Definition bind {A B : Type} (m : drv A) (k : A -> drv B) : drv B :=
  fun w => let (a, w') := m w in k a w'.

Notation "'let!' x ':=' m 'in' k" := (bind m (fun x => k))
  (at level 10, x name, m at level 100, k at level 200).
Notation "'exec' m 'then' k" := (bind m (fun _ => k))
  (at level 10, m at level 100, k at level 200).

Definition get_axp : drv axp_driver := fun w => (axp w, w).

Definition put_axp (a : axp_driver) : drv unit :=
  fun w => (tt, {| axp := a; bus := bus w |}).

(** Lift a bus primitive that returns a value. *)
Definition on_bus {A : Type} (f : i2c_bus -> A * i2c_bus) : drv A :=
  fun w => let (a, b') := f (bus w) in (a, {| axp := axp w; bus := b' |}).

(** Lift a bus primitive whose status the caller drops. *)
Definition on_bus_ (f : i2c_bus -> i2c_bus) : drv unit :=
  fun w => (tt, {| axp := axp w; bus := f (bus w) |}).

(** ** ADC conversion and reads *)

(** [axp_adc_conv_raw]: the [switch] over the channel. *)
Definition axp_adc_conv_raw (adc value : Z) : Z :=
  if (adc =? ADC_ACIN_VOLTAGE) || (adc =? ADC_VBUS_VOLTAGE) then
    int_div (int_mul value 17) 10
  else if adc =? ADC_ACIN_CURRENT then
    int_div (int_mul value 5) 8
  else if adc =? ADC_VBUS_CURRENT then
    int_div (int_mul value 3) 8
  else if adc =? ADC_INTERNAL_TEMP then
    int_sub value 1447
  else if adc =? ADC_TS_INPUT then
    int_div (int_mul value 4) 5
  else if adc =? ADC_BATTERY_VOLTAGE then
    int_div (int_mul value 11) 10
  else if (adc =? ADC_CHARGE_CURRENT) || (adc =? ADC_DISCHARGE_CURRENT) then
    int_div value 2
  else if adc =? ADC_APS_VOLTAGE then
    int_div (int_mul value 7) 5
  else if adc =? ADC_BATTERY_POWER then
    int_div (int_mul value 11) 20
  else
    INT_MIN.

Definition buf_at (buf : list Z) (i : nat) : Z := nth i buf 0.

(** [axp_adc_read_raw]: no reading for a channel that is not enabled. *)
Definition axp_adc_read_raw (adc : Z) : drv Z :=
  let! a := get_axp in
  if Z.land (adc_enable a) (Z.shiftl 1 adc) =? 0 then ret INT_MIN
  else
    let count := if adc =? ADC_BATTERY_POWER then 3 else 2 in
    let adc_reg := reg (adc_info_at adc) in
    let! rc := on_bus (i2c_reg_read adc_reg count) in
    match rc with
    | None => ret INT_MIN
    | Some buf =>
        if adc =? ADC_BATTERY_POWER then
          ret (Z.lor (Z.lor (Z.shiftl (buf_at buf 0) 16) (Z.shiftl (buf_at buf 1) 8))
                     (buf_at buf 2))
        else if (adc =? ADC_CHARGE_CURRENT) || (adc =? ADC_DISCHARGE_CURRENT) then
          ret (Z.lor (Z.shiftl (buf_at buf 0) 5) (Z.land (buf_at buf 1) 0x1f))
        else
          ret (Z.lor (Z.shiftl (buf_at buf 0) 4) (Z.land (buf_at buf 1) 0xf))
    end.

Definition axp_adc_read (adc : Z) : drv Z :=
  let! value := axp_adc_read_raw adc in
  if value =? INT_MIN then ret INT_MIN
  else ret (axp_adc_conv_raw adc value).

Definition axp_adc_get_enabled : drv Z :=
  let! a := get_axp in ret (adc_enable a).

(** [regs[idx] |= v] on the two-byte register image. *)
Definition or_into (idx v : Z) (image : list Z) : list Z :=
  alter (fun old => u8 (Z.lor old v)) (Z.to_nat idx) image.

(** The body of the loop over the channel table in [axp_adc_set_enabled]. *)
Definition adc_image_step (adc_bits : Z) (i : Z) (image : list Z) : list Z :=
  let info := adc_info_at i in
  if adc_en_reg info =? 0xff then image
  else if c_true (Z.land adc_bits (Z.shiftl 1 i)) then
    or_into (adc_en_reg info - 0x82) (Z.shiftl 1 (adc_en_bit info)) image
  else image.

(** "These ADCs share an enable bit": the change made to [adc_bits]. *)
Definition adc_bits_shared (adc_bits : Z) : Z :=
  if c_true (Z.land adc_bits
               (Z.lor (Z.shiftl 1 ADC_CHARGE_CURRENT) (Z.shiftl 1 ADC_DISCHARGE_CURRENT)))
  then Z.lor (Z.lor adc_bits (Z.shiftl 1 ADC_CHARGE_CURRENT))
             (Z.shiftl 1 ADC_DISCHARGE_CURRENT)
  else adc_bits.

(** "Enable required bits for battery power ADC": the change made to
    the register image. *)
Definition adc_image_battery_power (adc_bits : Z) (image : list Z) : list Z :=
  if c_true (Z.land adc_bits (Z.shiftl 1 ADC_BATTERY_POWER)) then
    or_into 0 (Z.shiftl 1 (adc_en_bit (adc_info_at ADC_BATTERY_VOLTAGE)))
      (or_into 0 (Z.shiftl 1 (adc_en_bit (adc_info_at ADC_DISCHARGE_CURRENT))) image)
  else image.

Definition axp_adc_set_enabled (adc_bits : Z) : drv unit :=
  let! a := get_axp in
  if adc_bits =? adc_enable a then ret tt
  else
    let image := for_loop (Z.to_nat NUM_ADC_CHANNELS) 0 (adc_image_step adc_bits) [0; 0] in
    let adc_bits := adc_bits_shared adc_bits in
    let image := adc_image_battery_power adc_bits image in
    exec on_bus_ (i2c_reg_write AXP_REG_ADCENABLE1 image) then
    put_axp (set_adc_enable adc_bits a).

(** The body of the loop of [axp_init_enabled_adcs] over the channel
    table.  The C code masks the register with [info[i].en_bit] itself,
    not with [1 << info[i].en_bit]. *)
Definition adc_scan_step (regs : list Z) (i : Z) (adc_enable : Z) : Z :=
  let info := adc_info_at i in
  if adc_en_reg info =? 0xff then adc_enable
  else if c_true (Z.land (nth (Z.to_nat (adc_en_reg info - AXP_REG_ADCENABLE1)) regs 0)
                         (adc_en_bit info))
  then Z.lor adc_enable (Z.shiftl 1 i)
  else adc_enable.

(** "Handle battery power ADC" in [axp_init_enabled_adcs]. *)
Definition adc_scan_battery_power (adc_enable : Z) : Z :=
  if c_true (Z.land adc_enable (Z.shiftl 1 ADC_BATTERY_VOLTAGE))
     && c_true (Z.land adc_enable (Z.shiftl 1 ADC_DISCHARGE_CURRENT))
  then Z.lor adc_enable (Z.shiftl 1 ADC_BATTERY_POWER)
  else adc_enable.

(** ** Coulomb counters *)

Definition axp_cc_parse (buf : list Z) : Z :=
  u32 (Z.lor (Z.lor (Z.lor (u32 (Z.shiftl (u32 (buf_at buf 0)) 24))
                           (Z.shiftl (buf_at buf 1) 16))
                    (Z.shiftl (buf_at buf 2) 8))
             (buf_at buf 3)).

(** An output parameter: [None] is a null pointer, [Some v] a pointer to
    a cell that holds [v]; the result is what the cell holds afterwards. *)
Definition store_out (cell : option Z) (v : Z) : option Z :=
  match cell with
  | None => None
  | Some _ => Some v
  end.

(** ** Status values *)

(** Modelled from the spec: [AXP_BATT_*] are constants of [axp-pmu.h];
    the spec calls the three states Discharging, Charging and Full. *)
Inductive battery_state : Type :=
  | AXP_BATT_DISCHARGING
  | AXP_BATT_CHARGING
  | AXP_BATT_FULL.

(** Modelled from the spec: [AXP_SUPPLY_NOT_PRESENT] and
    [AXP_SUPPLY_DISABLED] are constants of [axp-pmu.h]; the spec calls
    them sentinels, so they are kept apart from every millivolt result. *)
Inductive supply_reading : Type :=
  | AXP_SUPPLY_NOT_PRESENT
  | AXP_SUPPLY_DISABLED
  | Millivolts (mV : Z).

(** ** Charge current *)

(** The [while] loop of [axp_set_charge_current]; it leaves after at
    most [chargecurrent_tblsz] rounds, see [chargecurrent_scan_exit]. *)
Fixpoint chargecurrent_scan (fuel : nat) (maxcurrent value : Z) : Z :=
  match fuel with
  | O => value
  | S fuel' =>
      if (value <? chargecurrent_tblsz) && (chargecurrent_at value <=? maxcurrent)
      then chargecurrent_scan fuel' maxcurrent (value + 1)
      else value
  end.

(** The index computed before the comparison with the cached setting. *)
Definition chargecurrent_index (maxcurrent : Z) : Z :=
  let value := chargecurrent_scan (Z.to_nat chargecurrent_tblsz) maxcurrent 0 in
  if value >=? chargecurrent_tblsz then chargecurrent_tblsz - 1
  else if value >? 0 then value - 1
  else value.

Definition axp_get_charge_current : drv Z :=
  let! a := get_axp in
  if chargecurrent_setting a <? 0 then ret (chargecurrent_at 0)
  else ret (chargecurrent_at (chargecurrent_setting a)).

Section Driver.

(** How [i2c_reg_modify1] treats value bits outside the mask. *)
Variable rd : modify_reading.

(** Register addresses of [axp-pmu.h] that the spec does not give. *)
Variable AXP_REG_POWERSTATUS : Z.
Variable AXP_REG_CHARGECONTROL1 : Z.
Variable AXP_REG_COULOMBCOUNTERBASE : Z.
Variable AXP_REG_CHIP_ID : Z.

Definition axp_init_enabled_adcs : drv unit :=
  let! a := get_axp in
  exec put_axp (set_adc_enable 0 a) then
  let! id := on_bus (i2c_reg_read1 AXP_REG_CHIP_ID) in
  let! a := get_axp in
  exec put_axp (set_chip_id id a) then
  let! rc := on_bus (i2c_reg_read AXP_REG_ADCENABLE1 2) in
  match rc with
  | None => ret tt
  | Some regs =>
      let! a := get_axp in
      let scanned :=
        for_loop (Z.to_nat NUM_ADC_CHANNELS) 0 (adc_scan_step regs) (adc_enable a) in
      put_axp (set_adc_enable (adc_scan_battery_power scanned) a)
  end.

Definition axp_init : drv unit :=
  exec axp_init_enabled_adcs then
  let! a := get_axp in
  let bits := Z.lor (adc_enable a) (Z.shiftl 1 ADC_DISCHARGE_CURRENT) in
  exec axp_adc_set_enabled bits then
  let! value := on_bus (i2c_reg_read1 AXP_REG_CHARGECONTROL1) in
  let! a := get_axp in
  put_axp (set_chargecurrent_setting (if value <? 0 then -1 else Z.land value 0xf) a).

(** Lines 227 to 237 of [axp_supply_get_voltage], reached when the
    supply was not found disabled. *)
Definition supply_read_voltage (info : axp_supply_info_t) : drv supply_reading :=
  if volt_reg_mask info =? 0 then ret (Millivolts (min_mV info))
  else
    let! r := on_bus (i2c_reg_read1 (volt_reg info)) in
    if r <? 0 then ret (Millivolts 0)
    else
      let bit := find_first_set_bit (volt_reg_mask info) in
      let val := Z.shiftr (Z.land r (volt_reg_mask info)) bit in
      ret (Millivolts (min_mV info + val * step_mV info)).

(** [axp_supply_get_voltage].  The test of the general case is
    [r & (1 << info->en_bit) == 0], in which [==] binds tighter than
    [&]. *)
Definition axp_supply_get_voltage (supply : supply_id) : drv supply_reading :=
  let info := axp_supply_info supply in
  if volt_reg info =? 0 then ret AXP_SUPPLY_NOT_PRESENT
  else if negb (en_reg info =? 0) then
    let! r := on_bus (i2c_reg_read1 (en_reg info)) in
    if r <? 0 then ret AXP_SUPPLY_DISABLED
    else
      match supply with
      | AXP_SUPPLY_LDO_IO0 =>
          if negb (Z.land r 7 =? 2) then ret AXP_SUPPLY_DISABLED
          else supply_read_voltage info
      | _ =>
          if c_true (Z.land r (c_bool (Z.shiftl 1 (en_bit info) =? 0)))
          then ret AXP_SUPPLY_DISABLED
          else supply_read_voltage info
      end
  else supply_read_voltage info.

(** Lines 197 to 201 of [axp_supply_set_voltage]. *)
Definition supply_set_enable (info : axp_supply_info_t) (voltage : Z) : drv unit :=
  if negb (en_bit info =? 0xff) then
    on_bus_ (i2c_reg_setbit1 rd (en_reg info) (en_bit info)
               (if voltage >? 0 then 1 else 0))
  else ret tt.

Definition axp_supply_set_voltage (supply : supply_id) (voltage : Z) : drv unit :=
  let info := axp_supply_info supply in
  if (volt_reg info =? 0) || (volt_reg_mask info =? 0) then ret tt
  else if (voltage >? 0) && negb (step_mV info =? 0) then
    if (voltage <? min_mV info) || (voltage >? max_mV info) then ret tt
    else
      let regval := int_div (int_sub voltage (min_mV info)) (step_mV info) in
      exec on_bus_ (i2c_reg_modify1 rd (volt_reg info) (volt_reg_mask info) regval) then
      supply_set_enable info voltage
  else supply_set_enable info voltage.

Definition axp_battery_status : drv battery_state :=
  let! r := on_bus (i2c_reg_read1 AXP_REG_POWERSTATUS) in
  if r >=? 0 then
    if negb (Z.land r 0x04 =? 0) then ret AXP_BATT_CHARGING
    else if Z.land r 0xf0 =? 0 then ret AXP_BATT_DISCHARGING
    else
      let! d := axp_adc_read_raw ADC_DISCHARGE_CURRENT in
      if d =? 0 then ret AXP_BATT_FULL else ret AXP_BATT_DISCHARGING
  else ret AXP_BATT_DISCHARGING.

Definition axp_cc_read (charge discharge : option Z) : drv (option Z * option Z) :=
  let! rc := on_bus (i2c_reg_read AXP_REG_COULOMBCOUNTERBASE 8) in
  match rc with
  | None => ret (store_out charge 0, store_out discharge 0)
  | Some buf =>
      ret (store_out charge (axp_cc_parse buf),
           store_out discharge (axp_cc_parse (skipn 4 buf)))
  end.

Definition axp_set_charge_current (maxcurrent : Z) : drv unit :=
  let value := chargecurrent_index maxcurrent in
  let! a := get_axp in
  if value =? chargecurrent_setting a then ret tt
  else
    exec on_bus_ (i2c_reg_modify1 rd AXP_REG_CHARGECONTROL1 0x0f value) then
    put_axp (set_chargecurrent_setting value a).

End Driver.

(** ** Simulator sector stubs *)

(** The host file system as far as the stubs use it: the files by name,
    and the names [fopen] refuses (no permission, full disk, ...). *)
Record hostfs : Type := mk_hostfs {
  files : gmap string (list Z);
  refused : string -> bool
}.

(** [fopen(name, "w")]: the file is created or truncated. *)
Definition fopen_w (name : string) (fs : hostfs) : option string * hostfs :=
  if refused fs name then (None, fs)
  else (Some name, {| files := <[name := []]> (files fs); refused := refused fs |}).

(** [fwrite] of [data] at the end of the open file. *)
Definition fwrite (data : list Z) (f : string) (fs : hostfs) : hostfs :=
  {| files := alter (fun old => old ++ data) f (files fs); refused := refused fs |}.

(** [fopen(name, "r")]: fails for a file that does not exist. *)
Definition fopen_r (name : string) (fs : hostfs) : option string :=
  if refused fs name then None
  else match files fs !! name with
       | Some _ => Some name
       | None => None
       end.

(** [fread] of up to [n] bytes from the start of the open file. *)
Definition fread (n : nat) (f : string) (fs : hostfs) : list Z :=
  take n (default [] (files fs !! f)).

(** The bytes read replace the start of the buffer. *)
Definition fill (data buf : list Z) : list Z :=
  data ++ drop (length data) buf.

Definition hex_digit (d : Z) : ascii :=
  nth (Z.to_nat d) (list_ascii_of_string "0123456789ABCDEF") "0"%char.

(** The digits of [n], most significant first, in front of [acc]. *)
Fixpoint hex_digits (fuel : nat) (n : Z) (acc : string) : string :=
  match fuel with
  | O => acc
  | S fuel' =>
      let acc' := String (hex_digit (n mod 16)) acc in
      if n / 16 =? 0 then acc' else hex_digits fuel' (n / 16) acc'
  end.

(** [%lX]: upper-case hexadecimal without leading zeros.  A number has
    no more hexadecimal digits than binary ones, which bounds the
    recursion; see [hex_value_sprintf_lX]. *)
Definition sprintf_lX (n : Z) : string :=
  hex_digits (S (Z.to_nat (Z.log2 n))) n "".

Section Simulator.

(** The width of [unsigned long] on the host. *)
Variable ULONG_BIT : Z.

(** [sprintf(name, "sector%lX.bin", start + i)] *)
Definition sector_name (start i : Z) : string :=
  "sector" +:+ sprintf_lX ((start + i) mod 2 ^ ULONG_BIT) +:+ ".bin".

Definition ata_write_body (start : Z) (buf : list Z) (i : Z) (fs : hostfs) : hostfs :=
  match fopen_w (sector_name start i) fs with
  | (Some f, fs') => fwrite (take 512 buf) f fs'
  | (None, fs') => fs'
  end.

(** [start] is an [unsigned long], [count] an [unsigned char], [buf] the
    bytes the pointer refers to. *)
Definition ata_write_sectors (start count : Z) (buf : list Z) (fs : hostfs) : Z * hostfs :=
  (1, for_loop (Z.to_nat count) 0 (ata_write_body start buf) fs).

Definition ata_read_body (start : Z) (fs : hostfs) (i : Z) (buf : list Z) : list Z :=
  match fopen_r (sector_name start i) fs with
  | Some f => fill (fread 512 f fs) buf
  | None => buf
  end.

(** The result carries the contents of the buffer after the call. *)
Definition ata_read_sectors (start count : Z) (buf : list Z) (fs : hostfs) : Z * list Z :=
  (1, for_loop (Z.to_nat count) 0 (ata_read_body start fs) buf).

End Simulator.

(** ** Further operations of the driver *)

Section DriverControl.

(** How [i2c_reg_modify1] treats value bits outside the mask. *)
Variable rd : modify_reading.

(** Registers and constants of [axp-pmu.h] and [power.h] that the spec
    does not give. *)
Variable AXP_REG_ADCSAMPLERATE : Z.
Variable AXP_ADC_RATE_100HZ : Z.
Variable AXP_REG_COULOMBCOUNTERCTRL : Z.
Variable AXP_REG_SHUTDOWNLEDCTRL : Z.
Variable AXP_REG_POWERSTATUS : Z.
Variable AXP_REG_CHARGESTATUS : Z.
Variable AXP_INPUT_AC : Z.
Variable AXP_INPUT_USB : Z.
Variable AXP_INPUT_BATTERY : Z.
Variable POWER_INPUT_MAIN_CHARGER : Z.
Variable POWER_INPUT_USB_CHARGER : Z.
Variable POWER_INPUT_BATTERY : Z.

(** Whether the build defines [HAVE_BATTERY_SWITCH]. *)
Variable HAVE_BATTERY_SWITCH : bool.

Definition axp_adc_get_rate : drv Z :=
  let! r := on_bus (i2c_reg_read1 AXP_REG_ADCSAMPLERATE) in
  if r <? 0 then ret AXP_ADC_RATE_100HZ
  else ret (Z.land (Z.shiftr r 6) 3).

Definition axp_adc_set_rate (rate : Z) : drv unit :=
  on_bus_ (i2c_reg_modify1 rd AXP_REG_ADCSAMPLERATE 0xc0 (Z.shiftl (Z.land rate 3) 6)).

Definition axp_cc_clear : drv unit :=
  on_bus_ (i2c_reg_setbit1 rd AXP_REG_COULOMBCOUNTERCTRL 5 1).

Definition axp_cc_enable (en : bool) : drv unit :=
  on_bus_ (i2c_reg_setbit1 rd AXP_REG_COULOMBCOUNTERCTRL 7 (if en then 1 else 0)).

Definition axp_cc_is_enabled : drv bool :=
  let! r := on_bus (i2c_reg_read1 AXP_REG_COULOMBCOUNTERCTRL) in
  ret ((r >=? 0) && negb (Z.land r 0x40 =? 0)).

Definition axp_power_off : drv unit :=
  on_bus_ (i2c_reg_setbit1 rd AXP_REG_SHUTDOWNLEDCTRL 7 1).

Definition axp_input_status : drv Z :=
  let input_status := if HAVE_BATTERY_SWITCH then 0 else AXP_INPUT_BATTERY in
  let! r := on_bus (i2c_reg_read1 AXP_REG_POWERSTATUS) in
  if r <? 0 then ret input_status
  else
    let input_status :=
      if c_true (Z.land r 0x80) then Z.lor input_status AXP_INPUT_AC else input_status in
    let input_status :=
      if negb (Z.land r 0x20 =? 0) && (Z.land r 0x02 =? 0)
      then Z.lor input_status AXP_INPUT_USB else input_status in
    if HAVE_BATTERY_SWITCH then
      let! r := on_bus (i2c_reg_read1 AXP_REG_CHARGESTATUS) in
      if (r >=? 0) && negb (Z.land r 0x20 =? 0)
      then ret (Z.lor input_status AXP_INPUT_BATTERY)
      else ret input_status
    else ret input_status.

Definition power_input_status : drv Z :=
  let state := 0 in
  let! input_status := axp_input_status in
  let state :=
    if c_true (Z.land input_status AXP_INPUT_AC)
    then Z.lor state POWER_INPUT_MAIN_CHARGER else state in
  let state :=
    if c_true (Z.land input_status AXP_INPUT_USB)
    then Z.lor state POWER_INPUT_USB_CHARGER else state in
  let state :=
    if HAVE_BATTERY_SWITCH && c_true (Z.land input_status AXP_INPUT_BATTERY)
    then Z.lor state POWER_INPUT_BATTERY else state in
  ret state.

End DriverControl.

(** ** Further stubs of the simulator *)

Definition int_add (a b : Z) : Z := wrap_int (a + b).
(** C remainder has the sign of the dividend. *)
Definition int_rem (a b : Z) : Z := wrap_int (Z.rem a b).
Definition int_shl (a n : Z) : Z := wrap_int (Z.shiftl a n).

(** The fields of [struct tm] that [rtc_read] uses. *)
Record tm : Type := mk_tm {
  tm_sec : Z;
  tm_min : Z;
  tm_hour : Z;
  tm_mday : Z;
  tm_mon : Z;
  tm_year : Z
}.

(** [v % 10 | (v / 10) << 4] *)
Definition rtc_bcd (v : Z) : Z :=
  Z.lor (int_rem v 10) (int_shl (int_div v 10) 4).

(** [rtc_read], with the broken-down local time that [localtime] gave
    for the instant of the call as [teem]. *)
Definition rtc_read (teem : tm) (address : Z) : Z :=
  if address =? 3 then rtc_bcd (tm_hour teem)
  else if address =? 2 then rtc_bcd (tm_min teem)
  else if address =? 1 then rtc_bcd (tm_sec teem)
  else if address =? 7 then rtc_bcd (int_sub (tm_year teem) 100)
  else if address =? 6 then rtc_bcd (int_add (tm_mon teem) 1)
  else if address =? 5 then rtc_bcd (tm_mday teem)
  else Z.lxor address 0x55.

Section SimulatorMore.

Variable ULONG_BIT : Z.

(** [ata_delayed_write]; the result of the write is dropped. *)
Definition ata_delayed_write (sector : Z) (buf : list Z) (fs : hostfs) : hostfs :=
  snd (ata_write_sectors ULONG_BIT sector 1 buf fs).

End SimulatorMore.

(** ** Definitions after the words of the specification *)

(** The conversion formulas as the specification words them: products
    and truncating quotients of integers, no machine arithmetic;
    [None] stands for "no value". *)
Definition conv_formula (adc value : Z) : option Z :=
  match adc with
  | 0 | 2 => Some (Z.quot (value * 17) 10)
  | 1 => Some (Z.quot (value * 5) 8)
  | 3 => Some (Z.quot (value * 3) 8)
  | 4 => Some (value - 1447)
  | 5 => Some (Z.quot (value * 4) 5)
  | 6 => Some (Z.quot (value * 11) 10)
  | 7 | 8 => Some (Z.quot value 2)
  | 9 => Some (Z.quot (value * 7) 5)
  | 10 => Some (Z.quot (value * 11) 20)
  | _ => None
  end.

(** A big-endian 32-bit value: the first byte is the most significant. *)
Definition be32 (b0 b1 b2 b3 : Z) : Z :=
  b0 * 2 ^ 24 + b1 * 2 ^ 16 + b2 * 2 ^ 8 + b3.

(** The two-byte register image that [axp_adc_set_enabled] writes for
    a request [adc_bits]. *)
Definition adc_enable_image (adc_bits : Z) : list Z :=
  adc_image_battery_power (adc_bits_shared adc_bits)
    (for_loop (Z.to_nat NUM_ADC_CHANNELS) 0 (adc_image_step adc_bits) [0; 0]).

(** The mask the specification expects after a request [m]: the
    requested bits, and both of charge and discharge current when either
    is requested. *)
Definition mask_bit_expected (m i : Z) : bool :=
  Z.testbit m i
  || (((i =? ADC_CHARGE_CURRENT) || (i =? ADC_DISCHARGE_CURRENT))
      && (Z.testbit m ADC_CHARGE_CURRENT || Z.testbit m ADC_DISCHARGE_CURRENT)).

(** Reading a hexadecimal numeral back: the value of a digit is its
    place among "0123456789ABCDEF". *)
Fixpoint index_of (c : ascii) (l : list ascii) (i : Z) : Z :=
  match l with
  | [] => i
  | x :: l' => if Ascii.eqb c x then i else index_of c l' (i + 1)
  end.

Definition hex_digit_value (c : ascii) : Z :=
  index_of c (list_ascii_of_string "0123456789ABCDEF") 0.

Fixpoint hex_value_from (acc : Z) (s : string) : Z :=
  match s with
  | EmptyString => acc
  | String c s' => hex_value_from (acc * 16 + hex_digit_value c) s'
  end.

Definition hex_value (s : string) : Z := hex_value_from 0 s.

(** The two channels that share an enable bit are both in the mask or
    both out of it. *)
Definition mask_paired (mask : Z) : Prop :=
  Z.testbit mask ADC_CHARGE_CURRENT = Z.testbit mask ADC_DISCHARGE_CURRENT.

(** Whether the scan of [axp_init_enabled_adcs] marks channel [k]. *)
Definition adc_scan_hit (regs : list Z) (k : Z) : bool :=
  negb (adc_en_reg (adc_info_at k) =? 0xff)
  && c_true (Z.land (nth (Z.to_nat (adc_en_reg (adc_info_at k) - AXP_REG_ADCENABLE1)) regs 0)
                    (adc_en_bit (adc_info_at k))).

(** The raw reading of a channel as a number: the two (or three) bytes
    at the channel's register, the first the most significant, the
    second contributing its low four (five) bits. *)
Definition adc_raw_value (adc : Z) (r : Z -> Z) : Z :=
  let a := reg (adc_info_at adc) in
  let b i := u8 (r (a + i)) in
  if adc =? ADC_BATTERY_POWER then b 0 * 2 ^ 16 + b 1 * 2 ^ 8 + b 2
  else if (adc =? ADC_CHARGE_CURRENT) || (adc =? ADC_DISCHARGE_CURRENT)
       then b 0 * 2 ^ 5 + b 1 mod 2 ^ 5
       else b 0 * 2 ^ 4 + b 1 mod 2 ^ 4.

(** The bound of a raw reading: 24 bits for the battery power, 13 for
    the charge and discharge current, 12 for the other channels. *)
Definition adc_raw_bits (adc : Z) : Z :=
  if adc =? ADC_BATTERY_POWER then 24
  else if (adc =? ADC_CHARGE_CURRENT) || (adc =? ADC_DISCHARGE_CURRENT) then 13
  else 12.

(** The ranges of the converted readings, per channel, in the units of
    [axp_adc_conv_raw]. *)
Definition adc_reading_range (adc : Z) : Z * Z :=
  nth (Z.to_nat adc)
    [ (0, 6961); (0, 2559); (0, 6961); (0, 1535); (-1447, 2648); (0, 3276);
      (0, 4504); (0, 4095); (0, 4095); (0, 5733); (0, 9227468) ]
    (0, 0).

(** Whether a request [m] asks for channel [i] and that channel has its
    enable bit at bit [b] of enable register [idx] (0 or 1). *)
Definition channel_enable_bit (m i idx b : Z) : bool :=
  negb (adc_en_reg (adc_info_at i) =? 0xff)
  && Z.testbit m i
  && (adc_en_reg (adc_info_at i) - 0x82 =? idx)
  && (adc_en_bit (adc_info_at i) =? b).

(** A transaction that only reads. *)
Definition is_bus_read (op : bus_op) : bool :=
  match op with
  | BusRead _ _ => true
  | _ => false
  end.

(** An operation of the driver that is a pure query: it leaves the
    driver's state and the chip's registers as they are, and what it
    adds to the bus traffic are reads. *)
Definition read_only {A : Type} (m : drv A) : Prop :=
  forall w : world,
    axp (snd (m w)) = axp w
    /\ regs (bus (snd (m w))) = regs (bus w)
    /\ exists ops, trace (bus (snd (m w))) = trace (bus w) ++ ops
                   /\ forallb is_bus_read ops = true.

(** The number a packed BCD byte stands for: tens in the high nibble,
    units in the low one. *)
Definition bcd_decode (x : Z) : Z := 10 * Z.shiftr x 4 + Z.land x 15.

(** * Properties *)

(** ** Arithmetic helpers *)

Lemma wrap_int_id (z : Z) : in_int z -> wrap_int z = z.
Proof.
  unfold in_int, INT_MIN, INT_MAX, wrap_int. intros H.
  rewrite Z.mod_small by lia. lia.
Qed.

Lemma quot_in_int (a b : Z) : in_int a -> 0 < b -> in_int (Z.quot a b).
Proof.
  unfold in_int, INT_MIN, INT_MAX. intros Ha Hb.
  Z.to_euclidean_division_equations. nia.
Qed.

Lemma int_div_mul_exact (value k d : Z) :
  in_int (value * k) -> 0 < d ->
  int_div (int_mul value k) d = Z.quot (value * k) d.
Proof.
  intros Hk Hd. unfold int_div, int_mul.
  rewrite (wrap_int_id (value * k)) by assumption.
  apply wrap_int_id, quot_in_int; assumption.
Qed.

(** ** Raw-to-physical conversion *)

Lemma in_int_scale (value k : Z) :
  in_int (value * 17) -> 0 <= k <= 17 -> in_int (value * k).
Proof. unfold in_int, INT_MIN, INT_MAX. nia. Qed.

Lemma conv_formula_none (adc value : Z) :
  adc < 0 \/ 10 < adc -> conv_formula adc value = None.
Proof.
  intros H. destruct adc as [|p|p]; [lia| |reflexivity].
  do 4 (try destruct p as [p|p|]); try reflexivity; lia.
Qed.

Lemma axp_adc_conv_raw_invalid (adc value : Z) :
  adc < 0 \/ 10 < adc -> axp_adc_conv_raw adc value = INT_MIN.
Proof.
  intros H. unfold axp_adc_conv_raw.
  unfold ADC_ACIN_VOLTAGE, ADC_ACIN_CURRENT, ADC_VBUS_VOLTAGE, ADC_VBUS_CURRENT,
    ADC_INTERNAL_TEMP, ADC_TS_INPUT, ADC_BATTERY_VOLTAGE, ADC_CHARGE_CURRENT,
    ADC_DISCHARGE_CURRENT, ADC_APS_VOLTAGE, ADC_BATTERY_POWER.
  repeat match goal with
         | |- context [?a =? ?b] => destruct (Z.eqb_spec a b); [lia|]
         end.
  reflexivity.
Qed.

Lemma axp_adc_conv_raw_exact (adc value : Z) :
  in_int (value * 17) ->
  axp_adc_conv_raw adc value = default INT_MIN (conv_formula adc value).
Proof.
  intros Hv.
  destruct (Z_lt_ge_dec adc 0) as [Hneg|Hpos];
    [|destruct (Z_lt_ge_dec 10 adc) as [Hbig|Hsmall]].
  - rewrite conv_formula_none, axp_adc_conv_raw_invalid by lia. reflexivity.
  - rewrite conv_formula_none, axp_adc_conv_raw_invalid by lia. reflexivity.
  - assert (Hcases : adc = 0 \/ adc = 1 \/ adc = 2 \/ adc = 3 \/ adc = 4 \/ adc = 5
                     \/ adc = 6 \/ adc = 7 \/ adc = 8 \/ adc = 9 \/ adc = 10) by lia.
    assert (Hself : in_int value).
    { replace value with (value * 1) by lia. apply in_int_scale; [assumption|lia]. }
    repeat destruct Hcases as [->|Hcases]; try subst adc;
      cbn [axp_adc_conv_raw conv_formula default from_option id Z.eqb Pos.eqb orb
             ADC_ACIN_VOLTAGE ADC_ACIN_CURRENT ADC_VBUS_VOLTAGE ADC_VBUS_CURRENT
             ADC_INTERNAL_TEMP ADC_TS_INPUT ADC_BATTERY_VOLTAGE ADC_CHARGE_CURRENT
             ADC_DISCHARGE_CURRENT ADC_APS_VOLTAGE ADC_BATTERY_POWER];
      try (apply int_div_mul_exact; [apply in_int_scale; [assumption|lia]|lia]).
    + unfold int_sub. apply wrap_int_id.
      revert Hv. unfold in_int, INT_MIN, INT_MAX. lia.
    + unfold int_div. apply wrap_int_id, quot_in_int; [assumption|lia].
    + unfold int_div. apply wrap_int_id, quot_in_int; [assumption|lia].
Qed.

(** A raw code of at most 24 bits never converts to the "no value"
    sentinel on a channel of the table. *)
Lemma axp_adc_conv_raw_not_sentinel (adc value : Z) :
  0 <= adc < NUM_ADC_CHANNELS -> 0 <= value < 2 ^ 24 ->
  axp_adc_conv_raw adc value <> INT_MIN.
Proof.
  intros Hadc Hv. unfold NUM_ADC_CHANNELS in Hadc.
  rewrite axp_adc_conv_raw_exact by (unfold in_int, INT_MIN, INT_MAX; lia).
  assert (Hcases : adc = 0 \/ adc = 1 \/ adc = 2 \/ adc = 3 \/ adc = 4 \/ adc = 5
                   \/ adc = 6 \/ adc = 7 \/ adc = 8 \/ adc = 9 \/ adc = 10) by lia.
  unfold INT_MIN.
  repeat destruct Hcases as [->|Hcases]; try subst adc;
    cbn [conv_formula default from_option id];
    try (Z.to_euclidean_division_equations; lia).
Qed.

(** C7.  On every channel [axp_adc_conv_raw] is the integer formula of
    the specification (multiplication, then division truncating toward
    zero; [value - 1447] for the internal temperature) whenever the
    products fit a C [int], which holds for every raw code the chip can
    deliver; an index that names no channel gives [INT_MIN] for any raw
    code.  Raw 1000 on the battery voltage is 1100, raw 0 on the internal
    temperature is -1447. *)
Theorem axp_adc_conv_raw_formulas (adc value : Z) :
  (in_int (value * 17) ->
   axp_adc_conv_raw adc value = default INT_MIN (conv_formula adc value))
  /\ (adc < 0 \/ NUM_ADC_CHANNELS <= adc -> axp_adc_conv_raw adc value = INT_MIN)
  /\ axp_adc_conv_raw ADC_BATTERY_VOLTAGE 1000 = 1100
  /\ axp_adc_conv_raw ADC_INTERNAL_TEMP 0 = -1447.
Proof.
  split; [apply axp_adc_conv_raw_exact|split; [|split; reflexivity]].
  intros H. apply axp_adc_conv_raw_invalid. unfold NUM_ADC_CHANNELS in H. lia.
Qed.

Lemma axp_adc_conv_raw_formulas_witness :
  in_int (4095 * 17)
  /\ axp_adc_conv_raw ADC_APS_VOLTAGE 4095 = default INT_MIN (conv_formula 9 4095).
Proof.
  split.
  - unfold in_int, INT_MIN, INT_MAX. lia.
  - apply (proj1 (axp_adc_conv_raw_formulas ADC_APS_VOLTAGE 4095)).
    unfold in_int, INT_MIN, INT_MAX. lia.
Defined.

(** ** Charge-current selection *)

Lemma chargecurrent_tbl_step (i : Z) :
  0 <= i < 15 -> chargecurrent_at i < chargecurrent_at (i + 1).
Proof.
  intros Hi.
  assert (H : Forall (fun i => chargecurrent_at i < chargecurrent_at (i + 1)) (seqZ 0 15))
    by (vm_compute; repeat constructor).
  rewrite Forall_forall in H. apply H, elem_of_seqZ. lia.
Qed.

Lemma chargecurrent_tbl_ascending (i j : Z) :
  0 <= i -> i <= j -> j < chargecurrent_tblsz ->
  chargecurrent_at i <= chargecurrent_at j.
Proof.
  intros Hi Hij Hj. change chargecurrent_tblsz with 16 in Hj.
  replace j with (i + Z.of_nat (Z.to_nat (j - i))) in * by lia.
  induction (Z.to_nat (j - i)) as [|d IH].
  - rewrite Z.add_0_r. lia.
  - rewrite Nat2Z.inj_succ in *.
    pose proof (chargecurrent_tbl_step (i + Z.of_nat d)) as Hstep.
    replace (i + Z.succ (Z.of_nat d)) with (i + Z.of_nat d + 1) by lia.
    lia.
Qed.

(** The loop leaves through its own condition: with as many rounds as
    the table has entries, the result is the first index whose entry
    exceeds [maxcurrent], or the table size when there is none. *)
Lemma chargecurrent_scan_exit (fuel : nat) (maxcurrent value : Z) :
  0 <= value <= chargecurrent_tblsz ->
  chargecurrent_tblsz <= value + Z.of_nat fuel ->
  let r := chargecurrent_scan fuel maxcurrent value in
  value <= r <= chargecurrent_tblsz
  /\ (forall j, value <= j < r -> chargecurrent_at j <= maxcurrent)
  /\ (r < chargecurrent_tblsz -> maxcurrent < chargecurrent_at r).
Proof.
  revert value. induction fuel as [|fuel IH]; intros value Hv Hfuel; cbn [chargecurrent_scan].
  - cbv zeta. split; [lia|]. split; [intros j Hj; lia|lia].
  - destruct (Z.ltb_spec value chargecurrent_tblsz) as [Hlt|Hge]; cbn [andb].
    + destruct (Z.leb_spec (chargecurrent_at value) maxcurrent) as [Hle|Hgt].
      * specialize (IH (value + 1) ltac:(lia) ltac:(lia)). cbv zeta in IH.
        destruct IH as (Hr & Hbelow & Hat). cbv zeta.
        split; [lia|]. split; [|assumption].
        intros j Hj. destruct (Z.eq_dec j value) as [->|Hne]; [assumption|].
        apply Hbelow. lia.
      * cbv zeta. split; [lia|]. split; [intros j Hj; lia|intros _; assumption].
    + cbv zeta. split; [lia|]. split; [intros j Hj; lia|lia].
Qed.

Lemma chargecurrent_index_spec (maxcurrent : Z) :
  let idx := chargecurrent_index maxcurrent in
  0 <= idx < chargecurrent_tblsz
  /\ (maxcurrent < 100 -> idx = 0)
  /\ (1320 <= maxcurrent -> idx = chargecurrent_tblsz - 1)
  /\ (100 <= maxcurrent ->
      chargecurrent_at idx <= maxcurrent
      /\ forall j, 0 <= j < chargecurrent_tblsz ->
                   chargecurrent_at j <= maxcurrent ->
                   chargecurrent_at j <= chargecurrent_at idx).
Proof.
  unfold chargecurrent_index.
  pose proof (chargecurrent_scan_exit (Z.to_nat chargecurrent_tblsz) maxcurrent 0) as H.
  cbv zeta in H.
  set (r := chargecurrent_scan (Z.to_nat chargecurrent_tblsz) maxcurrent 0) in *.
  destruct H as (Hr & Hbelow & Hat);
    [change chargecurrent_tblsz with 16; lia|change chargecurrent_tblsz with 16; lia|].
  assert (Hfirst : chargecurrent_at 0 = 100) by reflexivity.
  assert (Hlast : chargecurrent_at (chargecurrent_tblsz - 1) = 1320) by reflexivity.
  assert (Hsz : chargecurrent_tblsz = 16) by reflexivity.
  cbv zeta.
  destruct (Z.geb_spec r chargecurrent_tblsz) as [Hfull|Hpart].
  - assert (r = chargecurrent_tblsz) as Hreq by lia.
    split; [lia|]. split; [|split; [reflexivity|]].
    + intros Hm. specialize (Hbelow 0 ltac:(lia)). lia.
    + intros Hm. split.
      * apply Hbelow. lia.
      * intros j Hj _. apply chargecurrent_tbl_ascending; lia.
  - specialize (Hat ltac:(lia)).
    destruct (Z.gtb_spec r 0) as [Hposr|Hzero].
    + split; [lia|]. split; [|split].
      * intros Hm. specialize (Hbelow 0 ltac:(lia)). lia.
      * intros Hm.
        pose proof (chargecurrent_tbl_ascending r (chargecurrent_tblsz - 1)
                      ltac:(lia) ltac:(lia) ltac:(lia)).
        lia.
      * intros Hm. split; [apply Hbelow; lia|].
        intros j Hj Hjm.
        destruct (Z_lt_ge_dec j r) as [Hjr|Hjr].
        -- apply chargecurrent_tbl_ascending; lia.
        -- pose proof (chargecurrent_tbl_ascending r j ltac:(lia) ltac:(lia) ltac:(lia)).
           lia.
    + assert (r = 0) as -> by lia.
      split; [lia|]. split; [reflexivity|]. split; [lia|].
      intros Hm. lia.
Qed.

Lemma axp_set_charge_current_setting rd creg (maxcurrent : Z) (w : world) :
  chargecurrent_setting (axp (snd (axp_set_charge_current rd creg maxcurrent w)))
  = chargecurrent_index maxcurrent.
Proof.
  unfold axp_set_charge_current, bind, get_axp, ret, on_bus_, put_axp.
  destruct (Z.eqb_spec (chargecurrent_index maxcurrent) (chargecurrent_setting (axp w)))
    as [Heq|Hne]; cbn; congruence.
Qed.

(** C5.  Whatever the driver state, after [axp_set_charge_current m] the
    cached index lies in [0,15]; below 100 mA it is 0, from 1320 mA on it
    is 15, and otherwise it names the greatest table entry that does not
    exceed [m].  Requests of 0, 10000 and 700 mA give limits of 100, 1320
    and 700 mA. *)
Theorem axp_set_charge_current_selects rd creg (m : Z) (w : world) :
  let after m' := snd (axp_set_charge_current rd creg m' w) in
  let idx := chargecurrent_setting (axp (after m)) in
  0 <= idx <= 15
  /\ (m < 100 -> idx = 0)
  /\ (1320 <= m -> idx = 15)
  /\ (100 <= m ->
      chargecurrent_at idx <= m
      /\ forall j, 0 <= j < chargecurrent_tblsz ->
                   chargecurrent_at j <= m ->
                   chargecurrent_at j <= chargecurrent_at idx)
  /\ fst (axp_get_charge_current (after m)) = chargecurrent_at idx
  /\ fst (axp_get_charge_current (after 0)) = 100
  /\ fst (axp_get_charge_current (after 10000)) = 1320
  /\ fst (axp_get_charge_current (after 700)) = 700.
Proof.
  cbv beta zeta.
  assert (Hget : forall m', fst (axp_get_charge_current
                                   (snd (axp_set_charge_current rd creg m' w)))
                            = chargecurrent_at (chargecurrent_index m')).
  { intros m'. unfold axp_get_charge_current, bind, get_axp, ret.
    rewrite axp_set_charge_current_setting.
    pose proof (chargecurrent_index_spec m') as (Hrange & _). cbv zeta in Hrange.
    destruct (Z.ltb_spec (chargecurrent_index m') 0); [lia|reflexivity]. }
  rewrite !Hget, axp_set_charge_current_setting.
  pose proof (chargecurrent_index_spec m) as (Hrange & Hlow & Hhigh & Hmid).
  cbv zeta in *. change chargecurrent_tblsz with 16 in Hrange, Hhigh.
  split; [lia|]. split; [assumption|]. split; [exact Hhigh|]. split; [assumption|].
  split; [reflexivity|]. split; [reflexivity|]. split; reflexivity.
Qed.

Lemma axp_set_charge_current_selects_witness :
  let w := mk_world (mk_axp 0 (-1) 0) (mk_bus (fun _ => 0) [] []) in
  let idx := chargecurrent_setting
               (axp (snd (axp_set_charge_current ValueAsGiven 0x33 750 w))) in
  100 <= 750 /\ chargecurrent_at idx <= 750 /\ idx = 7.
Proof.
  cbv beta zeta. split; [lia|]. split; [|reflexivity].
  apply (axp_set_charge_current_selects ValueAsGiven 0x33 750). lia.
Defined.

(** ** Bit-level helpers *)

Lemma u8_range (z : Z) : 0 <= u8 z < 2 ^ 8.
Proof. unfold u8. apply Z.mod_pos_bound. lia. Qed.

Lemma land_shiftl_low (hi lo n : Z) :
  0 <= n -> 0 <= lo < 2 ^ n -> Z.land (Z.shiftl hi n) lo = 0.
Proof.
  intros Hn Hlo. apply Z.bits_inj'. intros i Hi.
  rewrite Z.land_spec, Z.bits_0.
  destruct (Z_lt_ge_dec i n) as [Hlt|Hge].
  - rewrite Z.shiftl_spec_low by assumption. reflexivity.
  - rewrite <- (Z.mod_small lo (2 ^ n)) by assumption.
    rewrite Z.mod_pow2_bits_high by lia. apply andb_false_r.
Qed.

(** Or-ing a value below [2 ^ n] under a value shifted by [n] adds them. *)
Lemma lor_shiftl_add (hi lo n : Z) :
  0 <= n -> 0 <= lo < 2 ^ n -> Z.lor (Z.shiftl hi n) lo = hi * 2 ^ n + lo.
Proof.
  intros Hn Hlo.
  rewrite <- Z.lxor_lor by (apply land_shiftl_low; assumption).
  rewrite <- Z.add_nocarry_lxor by (apply land_shiftl_low; assumption).
  rewrite Z.shiftl_mul_pow2 by assumption. reflexivity.
Qed.

(** The same for a multiple of [2 ^ n] in place of the shifted value. *)
Lemma lor_multiple_add (a lo n : Z) :
  0 <= n -> a mod 2 ^ n = 0 -> 0 <= lo < 2 ^ n -> Z.lor a lo = a + lo.
Proof.
  intros Hn Ha Hlo.
  assert (Hdiv : a = (a / 2 ^ n) * 2 ^ n).
  { pose proof (Z.div_mod a (2 ^ n) ltac:(lia)). lia. }
  rewrite Hdiv at 1. rewrite <- Z.shiftl_mul_pow2 by assumption.
  rewrite lor_shiftl_add by assumption. lia.
Qed.

Lemma land_ones_range (z n : Z) : 0 <= n -> 0 <= Z.land z (Z.ones n) < 2 ^ n.
Proof. intros Hn. rewrite Z.land_ones by assumption. apply Z.mod_pos_bound. lia. Qed.

Lemma reg_load_many_nth (r : Z -> Z) (count i : nat) (a : Z) :
  (i < count)%nat -> nth i (reg_load_many r a count) 0 = u8 (r (a + Z.of_nat i)).
Proof.
  revert a i. induction count as [|count IH]; intros a i Hi; [lia|].
  destruct i as [|i]; cbn [reg_load_many nth].
  - rewrite Z.add_0_r. reflexivity.
  - rewrite IH by lia. f_equal. f_equal. lia.
Qed.

Lemma reg_load_many_length (r : Z -> Z) (count : nat) (a : Z) :
  length (reg_load_many r a count) = count.
Proof. revert a. induction count as [|count IH]; intros a; cbn; [|rewrite IH]; reflexivity. Qed.

(** ** Coulomb counters *)

Lemma axp_cc_parse_be32 (buf : list Z) :
  (forall i, 0 <= buf_at buf i < 2 ^ 8) ->
  axp_cc_parse buf = be32 (buf_at buf 0) (buf_at buf 1) (buf_at buf 2) (buf_at buf 3).
Proof.
  intros Hb. unfold axp_cc_parse, be32.
  pose proof (Hb 0%nat) as H0. pose proof (Hb 1%nat) as H1.
  pose proof (Hb 2%nat) as H2. pose proof (Hb 3%nat) as H3.
  set (b0 := buf_at buf 0) in *. set (b1 := buf_at buf 1) in *.
  set (b2 := buf_at buf 2) in *. set (b3 := buf_at buf 3) in *.
  unfold u32.
  rewrite (Z.mod_small b0) by lia.
  rewrite !Z.shiftl_mul_pow2 by lia.
  rewrite (Z.mod_small (b0 * 2 ^ 24)) by lia.
  rewrite (lor_multiple_add (b0 * 2 ^ 24) (b1 * 2 ^ 16) 24)
    by (try apply Z.mod_mul; lia).
  rewrite (lor_multiple_add (b0 * 2 ^ 24 + b1 * 2 ^ 16) (b2 * 2 ^ 8) 16);
    [|lia| |lia].
  - rewrite (lor_multiple_add _ b3 8); [|lia| |lia].
    + apply Z.mod_small. lia.
    + replace (b0 * 2 ^ 24 + b1 * 2 ^ 16 + b2 * 2 ^ 8)
        with ((b0 * 2 ^ 16 + b1 * 2 ^ 8 + b2) * 2 ^ 8) by lia.
      apply Z.mod_mul. lia.
  - replace (b0 * 2 ^ 24 + b1 * 2 ^ 16) with ((b0 * 2 ^ 8 + b1) * 2 ^ 16) by lia.
    apply Z.mod_mul. lia.
Qed.

Lemma buf_at_load (r : Z -> Z) (a : Z) (count i : nat) :
  0 <= buf_at (reg_load_many r a count) i < 2 ^ 8.
Proof.
  unfold buf_at. destruct (Nat.lt_ge_cases i count) as [Hlt|Hge].
  - rewrite reg_load_many_nth by assumption. apply u8_range.
  - rewrite nth_overflow by (rewrite reg_load_many_length; lia). lia.
Qed.

(** C8.  [axp_cc_read] with both output cells given: when the 8-byte
    read fails both cells receive 0; when it succeeds the first receives
    the big-endian value of bytes 0 to 3 and the second that of bytes 4
    to 7 of the counter registers. *)
Theorem axp_cc_read_decodes creg (charge discharge : Z) (w : world) :
  let byte i := u8 (regs (bus w) (creg + i)) in
  let out := fst (axp_cc_read creg (Some charge) (Some discharge) w) in
  (next_fault (bus w) = true -> out = (Some 0, Some 0))
  /\ (next_fault (bus w) = false ->
      out = (Some (be32 (byte 0) (byte 1) (byte 2) (byte 3)),
             Some (be32 (byte 4) (byte 5) (byte 6) (byte 7)))).
Proof.
  cbv beta zeta. unfold axp_cc_read, bind, on_bus, i2c_reg_read, ret.
  split; intros Hf; rewrite Hf; cbn [fst store_out]; [reflexivity|].
  change (Z.to_nat 8) with 8%nat.
  rewrite !axp_cc_parse_be32.
  - unfold buf_at. cbn [reg_load_many skipn nth].
    repeat rewrite <- Z.add_assoc. cbn [Z.add Pos.add Pos.succ].
    rewrite Z.add_0_r. reflexivity.
  - intros i. cbn [reg_load_many skipn]. apply (buf_at_load _ _ 4 i).
  - intros i. apply buf_at_load.
Qed.

Lemma axp_cc_read_decodes_witness :
  let w := mk_world (mk_axp 0 0 0)
             (mk_bus (fun a => a - 0xb0 + 1) [false] []) in
  next_fault (bus w) = false
  /\ fst (axp_cc_read 0xb0 (Some 7) (Some 9) w)
     = (Some (be32 1 2 3 4), Some (be32 5 6 7 8)).
Proof.
  cbv zeta. split; [reflexivity|].
  apply (axp_cc_read_decodes 0xb0 7 9). reflexivity.
Defined.

(** A null output pointer is left alone, on success and on failure. *)
Lemma axp_cc_read_null creg (w : world) :
  fst (axp_cc_read creg None None w) = (None, None).
Proof.
  unfold axp_cc_read, bind, on_bus, i2c_reg_read, ret.
  destruct (next_fault (bus w)); reflexivity.
Qed.

(** ** The enabled-channel mask *)

(** [x & (1 << n)] is zero exactly when bit [n] of [x] is clear. *)
Lemma land_bit_eqb (x n : Z) :
  0 <= n -> (Z.land x (Z.shiftl 1 n) =? 0) = negb (Z.testbit x n).
Proof.
  intros Hn. rewrite Z.shiftl_1_l.
  destruct (Z.testbit x n) eqn:Hbit; cbn [negb].
  - apply Z.eqb_neq. intros Hz.
    assert (Hb : Z.testbit (Z.land x (2 ^ n)) n = true)
      by (rewrite Z.land_spec, Hbit, Z.pow2_bits_true by assumption; reflexivity).
    rewrite Hz, Z.bits_0 in Hb. discriminate.
  - apply Z.eqb_eq, Z.bits_inj'. intros i Hi.
    rewrite Z.land_spec, Z.bits_0, Z.pow2_bits_eqb by assumption.
    destruct (Z.eqb_spec n i) as [->|Hne]; [rewrite Hbit; reflexivity|apply andb_false_r].
Qed.

Lemma lor_range (a b n : Z) :
  0 <= a < 2 ^ n -> 0 <= b < 2 ^ n -> 0 <= Z.lor a b < 2 ^ n.
Proof.
  intros Ha Hb.
  assert (Hn : 0 <= n).
  { destruct (Z_lt_ge_dec n 0) as [Hneg|]; [|lia].
    rewrite Z.pow_neg_r in Ha by assumption. lia. }
  split; [apply Z.lor_nonneg; lia|].
  rewrite <- (Z.mod_small a (2 ^ n)), <- (Z.mod_small b (2 ^ n)) by assumption.
  rewrite <- !Z.land_ones, <- Z.land_lor_distr_l by assumption.
  apply land_ones_range. assumption.
Qed.

Lemma shiftl_range (b k n : Z) :
  0 <= k -> 0 <= b < 2 ^ n -> 0 <= n -> 0 <= Z.shiftl b k < 2 ^ (n + k).
Proof.
  intros Hk Hb Hn. rewrite Z.shiftl_mul_pow2, Z.pow_add_r by assumption. nia.
Qed.

Lemma land_low_range (b m n : Z) :
  0 <= n -> 0 <= m < 2 ^ n -> 0 <= Z.land b m < 2 ^ n.
Proof.
  intros Hn Hm.
  replace m with (Z.land m (Z.ones n))
    by (rewrite Z.land_ones by assumption; apply Z.mod_small; assumption).
  rewrite Z.land_assoc. apply land_ones_range. assumption.
Qed.

Lemma shiftl_range_le (b k n N : Z) :
  0 <= k -> 0 <= n -> 0 <= b < 2 ^ n -> n + k <= N -> 0 <= Z.shiftl b k < 2 ^ N.
Proof.
  intros Hk Hn Hb HN. pose proof (shiftl_range b k n Hk Hb Hn).
  pose proof (Z.pow_le_mono_r 2 (n + k) N ltac:(lia) HN). lia.
Qed.

Lemma range_le (x n N : Z) : 0 <= n <= N -> 0 <= x < 2 ^ n -> 0 <= x < 2 ^ N.
Proof.
  intros HN Hx. pose proof (Z.pow_le_mono_r 2 n N ltac:(lia) ltac:(lia)). lia.
Qed.

Lemma axp_adc_read_raw_disabled (adc : Z) (w : world) :
  0 <= adc -> Z.testbit (adc_enable (axp w)) adc = false ->
  axp_adc_read_raw adc w = (INT_MIN, w).
Proof.
  intros Hadc Hbit. unfold axp_adc_read_raw, bind, get_axp, ret.
  rewrite land_bit_eqb, Hbit by assumption. reflexivity.
Qed.

Lemma axp_adc_read_raw_enabled (adc : Z) (w : world) :
  0 <= adc -> Z.testbit (adc_enable (axp w)) adc = true ->
  next_fault (bus w) = false ->
  0 <= fst (axp_adc_read_raw adc w) < 2 ^ 24.
Proof.
  intros Hadc Hbit Hok. unfold axp_adc_read_raw, bind, get_axp, ret, on_bus, i2c_reg_read.
  cbv beta iota.
  rewrite land_bit_eqb, Hbit by assumption. cbn [negb]. cbv beta iota.
  rewrite Hok. cbv beta iota.
  set (buf := reg_load_many _ _ _).
  assert (Hb : forall i, 0 <= buf_at buf i < 2 ^ 8) by (intros i; apply buf_at_load).
  pose proof (Hb 0%nat) as H0. pose proof (Hb 1%nat) as H1. pose proof (Hb 2%nat) as H2.
  destruct (adc =? ADC_BATTERY_POWER);
    [|destruct ((adc =? ADC_CHARGE_CURRENT) || (adc =? ADC_DISCHARGE_CURRENT))];
    cbn [fst].
  - apply lor_range; [apply lor_range|].
    + apply (shiftl_range_le _ 16 8); lia.
    + apply (shiftl_range_le _ 8 8); lia.
    + apply (range_le _ 8); lia.
  - apply lor_range.
    + apply (shiftl_range_le _ 5 8); lia.
    + apply (range_le _ 5); [lia|]. apply land_low_range; lia.
  - apply lor_range.
    + apply (shiftl_range_le _ 4 8); lia.
    + apply (range_le _ 4); [lia|]. apply land_low_range; lia.
Qed.

Lemma axp_adc_read_disabled (adc : Z) (w : world) :
  0 <= adc -> Z.testbit (adc_enable (axp w)) adc = false ->
  axp_adc_read adc w = (INT_MIN, w).
Proof.
  intros Hadc Hbit. unfold axp_adc_read, bind.
  rewrite axp_adc_read_raw_disabled by assumption. reflexivity.
Qed.

Lemma axp_adc_read_enabled (adc : Z) (w : world) :
  0 <= adc < NUM_ADC_CHANNELS -> Z.testbit (adc_enable (axp w)) adc = true ->
  next_fault (bus w) = false ->
  fst (axp_adc_read adc w) <> INT_MIN.
Proof.
  intros Hadc Hbit Hok.
  pose proof (axp_adc_read_raw_enabled adc w ltac:(lia) Hbit Hok) as Hraw.
  unfold axp_adc_read, bind, ret.
  destruct (axp_adc_read_raw adc w) as [value w'] eqn:Hrd. cbn [fst] in *.
  destruct (Z.eqb_spec value INT_MIN) as [Heq|Hne]; cbn [fst].
  - unfold INT_MIN in Heq. lia.
  - apply axp_adc_conv_raw_not_sentinel; assumption.
Qed.

Lemma adc_bits_shared_bits (m i : Z) :
  0 <= i -> Z.testbit (adc_bits_shared m) i = mask_bit_expected m i.
Proof.
  intros Hi. unfold adc_bits_shared, mask_bit_expected, c_true,
    ADC_CHARGE_CURRENT, ADC_DISCHARGE_CURRENT.
  rewrite !Z.shiftl_1_l.
  assert (Hboth : (Z.land m (Z.lor (2 ^ 7) (2 ^ 8)) =? 0)
                  = negb (Z.testbit m 7 || Z.testbit m 8)).
  { destruct (Z.testbit m 7 || Z.testbit m 8) eqn:Hany; cbn [negb].
    - apply Z.eqb_neq. intros Hz.
      assert (H7 : Z.testbit (Z.land m (Z.lor (2 ^ 7) (2 ^ 8))) 7 = Z.testbit m 7)
        by (rewrite Z.land_spec, Z.lor_spec; cbn; apply andb_true_r).
      assert (H8 : Z.testbit (Z.land m (Z.lor (2 ^ 7) (2 ^ 8))) 8 = Z.testbit m 8)
        by (rewrite Z.land_spec, Z.lor_spec; cbn; apply andb_true_r).
      rewrite Hz, Z.bits_0 in H7, H8. rewrite <- H7, <- H8 in Hany. discriminate.
    - apply orb_false_elim in Hany as [H7 H8].
      apply Z.eqb_eq, Z.bits_inj'. intros j Hj.
      rewrite Z.land_spec, Z.lor_spec, !Z.pow2_bits_eqb, Z.bits_0 by lia.
      destruct (Z.eqb_spec 7 j) as [<-|]; [rewrite H7; reflexivity|].
      destruct (Z.eqb_spec 8 j) as [<-|]; [rewrite H8; reflexivity|].
      apply andb_false_r. }
  rewrite Hboth, negb_involutive.
  destruct (Z.testbit m 7 || Z.testbit m 8).
  - rewrite !Z.lor_spec, !Z.pow2_bits_eqb by lia.
    rewrite (Z.eqb_sym 7 i), (Z.eqb_sym 8 i), andb_true_r, orb_assoc. reflexivity.
  - rewrite andb_false_r, orb_false_r. reflexivity.
Qed.

Lemma axp_adc_set_enabled_noop (m : Z) (w : world) :
  m = adc_enable (axp w) -> axp_adc_set_enabled m w = (tt, w).
Proof.
  intros ->. unfold axp_adc_set_enabled, bind, get_axp, ret.
  rewrite Z.eqb_refl. reflexivity.
Qed.

Lemma axp_adc_set_enabled_changed (m : Z) (w : world) :
  m <> adc_enable (axp w) ->
  axp_adc_set_enabled m w
  = (tt, {| axp := set_adc_enable (adc_bits_shared m) (axp w);
            bus := i2c_reg_write AXP_REG_ADCENABLE1 (adc_enable_image m) (bus w) |}).
Proof.
  intros Hne. unfold axp_adc_set_enabled, bind, get_axp, ret, on_bus_, put_axp.
  destruct (Z.eqb_spec m (adc_enable (axp w))) as [Heq|_]; [contradiction|].
  reflexivity.
Qed.

(** Every requested bit is in the mask after the call, whatever the
    previous mask and whatever happens on the bus. *)
Lemma axp_adc_set_enabled_keeps_request (m i : Z) (w : world) :
  0 <= i -> Z.testbit m i = true ->
  Z.testbit (adc_enable (axp (snd (axp_adc_set_enabled m w)))) i = true.
Proof.
  intros Hi Hbit. destruct (Z.eq_dec m (adc_enable (axp w))) as [Heq|Hne].
  - rewrite axp_adc_set_enabled_noop by assumption. cbn [snd]. rewrite <- Heq. assumption.
  - rewrite axp_adc_set_enabled_changed by assumption. cbn [snd axp set_adc_enable adc_enable].
    rewrite adc_bits_shared_bits by assumption. unfold mask_bit_expected.
    rewrite Hbit. reflexivity.
Qed.

(** C9.  For a channel of the table whose bit is clear in the enabled
    mask, [axp_adc_read_raw] and [axp_adc_read] return [INT_MIN] and
    leave driver and bus exactly as they were (no transaction is issued);
    when the bit is set and the register read succeeds both return a
    value other than [INT_MIN]; and after [axp_adc_set_enabled] with a
    mask that has the channel's bit, a successful read returns such a
    value. *)
Theorem axp_adc_read_sentinel_iff_disabled (adc : Z) (w : world) :
  0 <= adc < NUM_ADC_CHANNELS ->
  (Z.testbit (adc_enable (axp w)) adc = false ->
   axp_adc_read_raw adc w = (INT_MIN, w) /\ axp_adc_read adc w = (INT_MIN, w))
  /\ (Z.testbit (adc_enable (axp w)) adc = true -> next_fault (bus w) = false ->
      fst (axp_adc_read_raw adc w) <> INT_MIN /\ fst (axp_adc_read adc w) <> INT_MIN)
  /\ (forall m, Z.testbit m adc = true ->
      let w' := snd (axp_adc_set_enabled m w) in
      next_fault (bus w') = false ->
      fst (axp_adc_read_raw adc w') <> INT_MIN /\ fst (axp_adc_read adc w') <> INT_MIN).
Proof.
  intros Hadc.
  assert (Hen : forall w0, Z.testbit (adc_enable (axp w0)) adc = true ->
                           next_fault (bus w0) = false ->
                           fst (axp_adc_read_raw adc w0) <> INT_MIN
                           /\ fst (axp_adc_read adc w0) <> INT_MIN).
  { intros w0 Hbit Hok. split.
    - pose proof (axp_adc_read_raw_enabled adc w0 ltac:(lia) Hbit Hok).
      unfold INT_MIN. lia.
    - apply axp_adc_read_enabled; assumption. }
  split; [|split].
  - intros Hbit. split.
    + apply axp_adc_read_raw_disabled; [lia|assumption].
    + apply axp_adc_read_disabled; [lia|assumption].
  - apply Hen.
  - intros m Hm w' Hok. apply Hen; [|assumption].
    apply axp_adc_set_enabled_keeps_request; [lia|assumption].
Qed.

Lemma axp_adc_read_sentinel_iff_disabled_witness :
  let w := mk_world (mk_axp 0 (-1) 0)
             (mk_bus (fun a => if a =? 0x78 then 0xab else 0xcd) [] []) in
  axp_adc_read_raw ADC_BATTERY_VOLTAGE w = (INT_MIN, w)
  /\ fst (axp_adc_read ADC_BATTERY_VOLTAGE
            (snd (axp_adc_set_enabled (Z.shiftl 1 ADC_BATTERY_VOLTAGE) w))) <> INT_MIN.
Proof.
  cbv zeta.
  pose proof (axp_adc_read_sentinel_iff_disabled ADC_BATTERY_VOLTAGE
                (mk_world (mk_axp 0 (-1) 0)
                   (mk_bus (fun a => if a =? 0x78 then 0xab else 0xcd) [] []))
                ltac:(unfold ADC_BATTERY_VOLTAGE, NUM_ADC_CHANNELS; lia))
    as (Hoff & _ & Hon).
  split.
  - apply Hoff. reflexivity.
  - apply (Hon (Z.shiftl 1 ADC_BATTERY_VOLTAGE)); reflexivity.
Defined.

Lemma for_loop_invariant {S : Type} (P : S -> Prop) (body : Z -> S -> S) :
  (forall i s, P s -> P (body i s)) ->
  forall n i s, P s -> P (for_loop n i body s).
Proof.
  intros Hbody n. induction n as [|n IH]; intros i s Hs; cbn [for_loop]; auto.
Qed.

Lemma or_into_length (idx v : Z) (image : list Z) :
  length (or_into idx v image) = length image.
Proof. unfold or_into. apply length_alter. Qed.

Lemma adc_scan_image_length (m : Z) (n : nat) (i : Z) :
  length (for_loop n i (adc_image_step m) [0; 0]) = 2%nat.
Proof.
  apply (for_loop_invariant (fun image => length image = 2%nat)); [|reflexivity].
  intros j image Hlen. unfold adc_image_step.
  destruct (adc_en_reg (adc_info_at j) =? 255); [assumption|].
  destruct (c_true _); [rewrite or_into_length|]; assumption.
Qed.

Lemma u8_bits_low (z i : Z) : 0 <= i < 8 -> Z.testbit (u8 z) i = Z.testbit z i.
Proof. intros Hi. unfold u8. apply Z.mod_pow2_bits_low. lia. Qed.

(** A request for the battery-power channel puts the enable bits of the
    discharge current (bit 6) and of the battery voltage (bit 7) into the
    image of the first enable register. *)
Lemma adc_enable_image_battery_power (m : Z) :
  Z.testbit m ADC_BATTERY_POWER = true ->
  Z.testbit (nth 0 (adc_enable_image m) 0) 6 = true
  /\ Z.testbit (nth 0 (adc_enable_image m) 0) 7 = true.
Proof.
  intros Hbit. unfold adc_enable_image, adc_image_battery_power, c_true.
  rewrite land_bit_eqb by (unfold ADC_BATTERY_POWER; lia).
  rewrite adc_bits_shared_bits by (unfold ADC_BATTERY_POWER; lia).
  unfold mask_bit_expected. rewrite Hbit. cbn [orb negb].
  pose proof (adc_scan_image_length m (Z.to_nat NUM_ADC_CHANNELS) 0) as Hlen.
  destruct (for_loop _ _ _ _) as [|r0 [|r1 [|]]]; try discriminate Hlen.
  change (nth 0 (or_into _ _ (or_into _ _ [r0; r1])) 0)
    with (u8 (Z.lor (u8 (Z.lor r0 64)) 128)).
  rewrite !u8_bits_low, !Z.lor_spec, !u8_bits_low, !Z.lor_spec by lia.
  split; cbn [Z.testbit Pos.testbit Pos.pred_N]; rewrite ?orb_true_r; reflexivity.
Qed.

Lemma adc_bits_shared_id (m : Z) :
  Z.testbit m ADC_CHARGE_CURRENT = Z.testbit m ADC_DISCHARGE_CURRENT ->
  adc_bits_shared m = m.
Proof.
  intros Heq. apply Z.bits_inj'. intros i Hi.
  rewrite adc_bits_shared_bits by assumption. unfold mask_bit_expected.
  destruct (Z.eqb_spec i ADC_CHARGE_CURRENT) as [->|];
    [|destruct (Z.eqb_spec i ADC_DISCHARGE_CURRENT) as [->|]]; cbn [orb andb].
  - rewrite <- Heq. destruct (Z.testbit m ADC_CHARGE_CURRENT); reflexivity.
  - rewrite Heq. destruct (Z.testbit m ADC_DISCHARGE_CURRENT); reflexivity.
  - apply orb_false_r.
Qed.

Lemma axp_adc_set_enabled_trace (m : Z) (w : world) :
  m <> adc_enable (axp w) ->
  trace (bus (snd (axp_adc_set_enabled m w)))
  = trace (bus w) ++ [BusWrite AXP_REG_ADCENABLE1 (adc_enable_image m)].
Proof. intros Hne. rewrite axp_adc_set_enabled_changed by assumption. reflexivity. Qed.

Lemma axp_adc_set_enabled_mask (m : Z) (w : world) :
  m <> adc_enable (axp w) ->
  forall i, 0 <= i ->
    Z.testbit (fst (axp_adc_get_enabled (snd (axp_adc_set_enabled m w)))) i
    = mask_bit_expected m i.
Proof.
  intros Hne i Hi. rewrite axp_adc_set_enabled_changed by assumption.
  unfold axp_adc_get_enabled, bind, get_axp, ret. cbn [snd fst axp set_adc_enable adc_enable].
  apply adc_bits_shared_bits. assumption.
Qed.

(** *** The pairing of charge and discharge current is an invariant *)

Lemma adc_scan_step_bits (regs : list Z) (i acc k : Z) :
  0 <= i -> 0 <= k ->
  Z.testbit (adc_scan_step regs i acc) k
  = Z.testbit acc k || ((k =? i) && adc_scan_hit regs i).
Proof.
  intros Hi Hk. unfold adc_scan_step, adc_scan_hit.
  destruct (adc_en_reg (adc_info_at i) =? 255); cbn [negb andb].
  - rewrite andb_false_r, orb_false_r. reflexivity.
  - destruct (c_true _).
    + rewrite Z.lor_spec, Z.shiftl_1_l, Z.pow2_bits_eqb, (Z.eqb_sym i k), andb_true_r
        by assumption. reflexivity.
    + rewrite andb_false_r, orb_false_r. reflexivity.
Qed.

Lemma adc_scan_bits (regs : list Z) (n : nat) (i0 acc k : Z) :
  0 <= i0 -> 0 <= k ->
  Z.testbit (for_loop n i0 (adc_scan_step regs) acc) k
  = Z.testbit acc k || ((i0 <=? k) && (k <? i0 + Z.of_nat n) && adc_scan_hit regs k).
Proof.
  revert i0 acc. induction n as [|n IH]; intros i0 acc Hi0 Hk; cbn [for_loop].
  - replace (k <? i0 + Z.of_nat 0) with (k <? i0) by (f_equal; lia).
    destruct (Z.leb_spec i0 k), (Z.ltb_spec k i0); try lia;
      cbn [andb]; rewrite orb_false_r; reflexivity.
  - rewrite IH, adc_scan_step_bits by lia.
    replace (i0 + 1 + Z.of_nat n) with (i0 + Z.of_nat (S n)) by lia.
    destruct (Z.eqb_spec k i0) as [->|Hne].
    + destruct (Z.leb_spec (i0 + 1) i0), (Z.leb_spec i0 i0),
        (Z.ltb_spec i0 (i0 + Z.of_nat (S n))); try lia.
      cbn [andb]. rewrite orb_false_r. reflexivity.
    + destruct (Z.leb_spec (i0 + 1) k), (Z.leb_spec i0 k); try lia;
        cbn [andb]; rewrite ?orb_false_r; reflexivity.
Qed.

Lemma adc_scan_paired (regs : list Z) :
  mask_paired (adc_scan_battery_power
                 (for_loop (Z.to_nat NUM_ADC_CHANNELS) 0 (adc_scan_step regs) 0)).
Proof.
  unfold mask_paired, adc_scan_battery_power.
  assert (Hscan : forall k, k = ADC_CHARGE_CURRENT \/ k = ADC_DISCHARGE_CURRENT ->
            Z.testbit (for_loop (Z.to_nat NUM_ADC_CHANNELS) 0 (adc_scan_step regs) 0) k
            = adc_scan_hit regs ADC_CHARGE_CURRENT).
  { intros k [->| ->]; rewrite adc_scan_bits by (cbv; discriminate);
      rewrite Z.bits_0; reflexivity. }
  destruct (_ && _).
  - rewrite !Z.lor_spec, !Hscan by auto. reflexivity.
  - rewrite !Hscan by auto. reflexivity.
Qed.

Lemma adc_bits_shared_paired (m : Z) : mask_paired (adc_bits_shared m).
Proof.
  unfold mask_paired.
  rewrite !adc_bits_shared_bits by (cbv; discriminate).
  unfold mask_bit_expected. cbn [Z.eqb Pos.eqb ADC_CHARGE_CURRENT ADC_DISCHARGE_CURRENT
                                   orb andb].
  destruct (Z.testbit m ADC_CHARGE_CURRENT), (Z.testbit m ADC_DISCHARGE_CURRENT);
    reflexivity.
Qed.

(** [axp_adc_set_enabled] keeps the pairing. *)
Lemma axp_adc_set_enabled_paired (m : Z) (w : world) :
  mask_paired (adc_enable (axp w)) ->
  mask_paired (adc_enable (axp (snd (axp_adc_set_enabled m w)))).
Proof.
  intros Hp. destruct (Z.eq_dec m (adc_enable (axp w))) as [Heq|Hne].
  - rewrite axp_adc_set_enabled_noop by assumption. assumption.
  - rewrite axp_adc_set_enabled_changed by assumption.
    cbn [snd axp set_adc_enable adc_enable]. apply adc_bits_shared_paired.
Qed.

(** [axp_init] establishes it, whatever the registers hold and whatever
    the bus does. *)
Lemma axp_init_paired ccreg idreg (w : world) :
  mask_paired (adc_enable (axp (snd (axp_init ccreg idreg w)))).
Proof.
  unfold axp_init, bind.
  destruct (axp_init_enabled_adcs idreg w) as [[] w1] eqn:Hw1.
  assert (Hp1 : mask_paired (adc_enable (axp w1))).
  { revert Hw1. unfold axp_init_enabled_adcs, bind, get_axp, put_axp, on_bus, ret.
    destruct (i2c_reg_read1 idreg _) as [id b1]. cbn [axp bus].
    destruct (i2c_reg_read AXP_REG_ADCENABLE1 2 b1) as [[regs|] b2];
      intros [= <-]; cbn [axp adc_enable set_adc_enable set_chip_id].
    - apply adc_scan_paired.
    - reflexivity. }
  unfold get_axp at 1. cbv beta iota.
  destruct (axp_adc_set_enabled _ w1) as [[] w2] eqn:Hw2.
  assert (Hp2 : mask_paired (adc_enable (axp w2))).
  { replace w2 with (snd (axp_adc_set_enabled
                            (Z.lor (adc_enable (axp w1)) (Z.shiftl 1 ADC_DISCHARGE_CURRENT)) w1))
      by (rewrite Hw2; reflexivity).
    apply axp_adc_set_enabled_paired. assumption. }
  unfold on_bus, get_axp, put_axp.
  destruct (i2c_reg_read1 ccreg (bus w2)) as [value b3].
  cbn [snd axp set_chargecurrent_setting adc_enable]. assumption.
Qed.

(** In a paired mask a request that equals the current mask is already
    what the specification expects of the mask. *)
Lemma mask_paired_expected (m i : Z) :
  mask_paired m -> Z.testbit m i = mask_bit_expected m i.
Proof.
  unfold mask_paired, mask_bit_expected. intros Hp.
  destruct (Z.eqb_spec i ADC_CHARGE_CURRENT) as [->|];
    [|destruct (Z.eqb_spec i ADC_DISCHARGE_CURRENT) as [->|]]; cbn [orb andb].
  - rewrite <- Hp. destruct (Z.testbit m ADC_CHARGE_CURRENT); reflexivity.
  - rewrite Hp. destruct (Z.testbit m ADC_DISCHARGE_CURRENT); reflexivity.
  - rewrite orb_false_r. reflexivity.
Qed.

(** From a paired mask, the mask reported after any call, no-op or not,
    is the one the specification expects. *)
Lemma axp_adc_set_enabled_mask_paired (m : Z) (w : world) :
  mask_paired (adc_enable (axp w)) ->
  forall i, 0 <= i ->
    Z.testbit (fst (axp_adc_get_enabled (snd (axp_adc_set_enabled m w)))) i
    = mask_bit_expected m i.
Proof.
  intros Hp i Hi. destruct (Z.eq_dec m (adc_enable (axp w))) as [Heq|Hne].
  - rewrite axp_adc_set_enabled_noop by assumption.
    unfold axp_adc_get_enabled, bind, get_axp, ret. cbn [snd fst].
    rewrite <- Heq in Hp |- *. apply mask_paired_expected. assumption.
  - apply axp_adc_set_enabled_mask; assumption.
Qed.

(** C2, as the driver has it.  A call whose mask differs from the
    current one issues exactly one bus write, of the two-byte enable
    image; a second call with the same mask changes nothing when the mask
    has the charge and discharge bits both set or both clear.  The mask
    reported afterwards has every requested bit, and both of charge and
    discharge when either was requested; from a paired mask, which is
    what [axp_init] leaves and every call keeps, this holds after any
    call.  A request for battery power forces the discharge-current and
    battery-voltage enable bits in the register image that is written,
    not in the reported mask.  A call with the current mask does
    nothing. *)
Theorem axp_adc_set_enabled_policy (m : Z) (w : world) :
  let w1 := snd (axp_adc_set_enabled m w) in
  let w2 := snd (axp_adc_set_enabled m w1) in
  (m <> adc_enable (axp w) ->
     trace (bus w1) = trace (bus w) ++ [BusWrite AXP_REG_ADCENABLE1 (adc_enable_image m)]
     /\ (Z.testbit m ADC_CHARGE_CURRENT = Z.testbit m ADC_DISCHARGE_CURRENT -> w2 = w1)
     /\ (forall i, 0 <= i ->
           Z.testbit (fst (axp_adc_get_enabled w1)) i = mask_bit_expected m i)
     /\ (Z.testbit m ADC_BATTERY_POWER = true ->
           Z.testbit (nth 0 (adc_enable_image m) 0) 6 = true
           /\ Z.testbit (nth 0 (adc_enable_image m) 0) 7 = true))
  /\ (m = adc_enable (axp w) -> w1 = w)
  /\ (mask_paired (adc_enable (axp w)) ->
      mask_paired (adc_enable (axp w1))
      /\ forall i, 0 <= i ->
            Z.testbit (fst (axp_adc_get_enabled w1)) i = mask_bit_expected m i).
Proof.
  cbv zeta. split; [|split].
  - intros Hne. split; [apply axp_adc_set_enabled_trace; assumption|].
    split; [|split].
    + intros Hpair. rewrite axp_adc_set_enabled_noop; [reflexivity|].
      rewrite axp_adc_set_enabled_changed by assumption.
      cbn [snd axp set_adc_enable adc_enable].
      symmetry. apply adc_bits_shared_id. assumption.
    + apply axp_adc_set_enabled_mask. assumption.
    + apply adc_enable_image_battery_power.
  - intros Heq. rewrite axp_adc_set_enabled_noop by assumption. reflexivity.
  - intros Hp. split.
    + apply axp_adc_set_enabled_paired. assumption.
    + apply axp_adc_set_enabled_mask_paired. assumption.
Qed.

Lemma axp_adc_set_enabled_policy_witness :
  let w := mk_world (mk_axp 0 (-1) 0) (mk_bus (fun _ => 0) [] []) in
  let m := Z.lor (Z.shiftl 1 ADC_BATTERY_POWER) (Z.shiftl 1 ADC_TS_INPUT) in
  m <> adc_enable (axp w)
  /\ trace (bus (snd (axp_adc_set_enabled m w))) = [BusWrite 0x82 [0xc2; 0]]
  /\ snd (axp_adc_set_enabled m (snd (axp_adc_set_enabled m w)))
     = snd (axp_adc_set_enabled m w).
Proof.
  cbv zeta.
  assert (Hne : Z.lor (Z.shiftl 1 ADC_BATTERY_POWER) (Z.shiftl 1 ADC_TS_INPUT)
                <> adc_enable (axp (mk_world (mk_axp 0 (-1) 0)
                                      (mk_bus (fun _ => 0) [] []))))
    by discriminate.
  split; [exact Hne|].
  pose proof (axp_adc_set_enabled_policy
                (Z.lor (Z.shiftl 1 ADC_BATTERY_POWER) (Z.shiftl 1 ADC_TS_INPUT))
                (mk_world (mk_axp 0 (-1) 0) (mk_bus (fun _ => 0) [] [])))
    as (Hchanged & _ & _).
  destruct (Hchanged Hne) as (Htrace & Hsecond & _).
  split; [rewrite Htrace; reflexivity|].
  apply Hsecond. reflexivity.
Defined.

(** C2 as stated fails: a request for the charge current alone is
    written to the bus by the first call and again by the second, and a
    request for battery power leaves the discharge-current and
    battery-voltage bits out of the reported mask. *)
Lemma axp_adc_set_enabled_counterexample :
  let w := mk_world (mk_axp 0 (-1) 0) (mk_bus (fun _ => 0) [] []) in
  let twice m := snd (axp_adc_set_enabled m (snd (axp_adc_set_enabled m w))) in
  trace (bus (twice (Z.shiftl 1 ADC_CHARGE_CURRENT)))
    = [BusWrite 0x82 [0x40; 0]; BusWrite 0x82 [0x40; 0]]
  /\ fst (axp_adc_get_enabled (snd (axp_adc_set_enabled (Z.shiftl 1 ADC_BATTERY_POWER) w)))
     = Z.shiftl 1 ADC_BATTERY_POWER
  /\ Z.testbit (Z.shiftl 1 ADC_BATTERY_POWER) ADC_DISCHARGE_CURRENT = false
  /\ Z.testbit (Z.shiftl 1 ADC_BATTERY_POWER) ADC_BATTERY_VOLTAGE = false.
Proof. cbv zeta beta. repeat split; reflexivity. Qed.

(** C10.  When the requested mask differs from the current one the bus
    write is issued and, whether it succeeds or fails, the mask reported
    afterwards is the requested one with charge and discharge current
    paired; a failed write leaves the chip's registers as they were, and
    the mask is the new one all the same.  When the request equals the
    current mask nothing happens and that mask stays.  From a paired
    mask, which is what [axp_init] leaves and every call keeps, the mask
    reported after any call is the requested one with the pairing. *)
Theorem axp_adc_set_enabled_no_rollback (m : Z) (w : world) :
  let w' := snd (axp_adc_set_enabled m w) in
  (m <> adc_enable (axp w) ->
     trace (bus w') = trace (bus w) ++ [BusWrite AXP_REG_ADCENABLE1 (adc_enable_image m)]
     /\ (next_fault (bus w) = true -> regs (bus w') = regs (bus w))
     /\ (forall i, 0 <= i ->
           Z.testbit (fst (axp_adc_get_enabled w')) i = mask_bit_expected m i))
  /\ (m = adc_enable (axp w) -> w' = w /\ fst (axp_adc_get_enabled w') = m)
  /\ (mask_paired (adc_enable (axp w)) ->
      forall i, 0 <= i ->
        Z.testbit (fst (axp_adc_get_enabled w')) i = mask_bit_expected m i).
Proof.
  cbv zeta. split; [|split].
  - intros Hne. split; [apply axp_adc_set_enabled_trace; assumption|]. split.
    + intros Hfail. rewrite axp_adc_set_enabled_changed by assumption.
      cbn [snd bus]. unfold i2c_reg_write, bus_step. cbn [regs]. rewrite Hfail. reflexivity.
    + apply axp_adc_set_enabled_mask. assumption.
  - intros Heq. rewrite axp_adc_set_enabled_noop by assumption. cbn [snd].
    split; [reflexivity|]. symmetry. exact Heq.
  - apply axp_adc_set_enabled_mask_paired.
Qed.

Lemma axp_adc_set_enabled_no_rollback_witness :
  let w := mk_world (mk_axp 0 (-1) 0) (mk_bus (fun _ => 0) [true] []) in
  let m := Z.shiftl 1 ADC_TS_INPUT in
  let w' := snd (axp_adc_set_enabled m w) in
  m <> adc_enable (axp w)
  /\ next_fault (bus w) = true
  /\ regs (bus w') = regs (bus w)
  /\ Z.testbit (fst (axp_adc_get_enabled w')) ADC_TS_INPUT = true.
Proof.
  cbv zeta.
  assert (Hne : Z.shiftl 1 ADC_TS_INPUT
                <> adc_enable (axp (mk_world (mk_axp 0 (-1) 0)
                                      (mk_bus (fun _ => 0) [true] []))))
    by discriminate.
  split; [exact Hne|]. split; [reflexivity|].
  pose proof (axp_adc_set_enabled_no_rollback
                (Z.shiftl 1 ADC_TS_INPUT)
                (mk_world (mk_axp 0 (-1) 0) (mk_bus (fun _ => 0) [true] [])))
    as (Hchanged & _ & _).
  destruct (Hchanged Hne) as (_ & Hregs & Hmask).
  split; [apply Hregs; reflexivity|].
  rewrite Hmask by (unfold ADC_TS_INPUT; lia). reflexivity.
Defined.

(** ** Battery status *)

Lemma i2c_reg_read1_ok (a : Z) (b : i2c_bus) :
  next_fault b = false ->
  i2c_reg_read1 a b = (u8 (regs b a), bus_step (BusRead a 1) (regs b) b).
Proof. intros Hok. unfold i2c_reg_read1, i2c_reg_read. rewrite Hok. reflexivity. Qed.

Lemma i2c_reg_read1_failed (a : Z) (b : i2c_bus) :
  next_fault b = true ->
  i2c_reg_read1 a b = (I2C_STATUS_ERROR, bus_step (BusRead a 1) (regs b) b).
Proof. intros Hf. unfold i2c_reg_read1, i2c_reg_read. rewrite Hf. reflexivity. Qed.

(** C6 as stated fails: with only the charging bit set in the power
    status there is no external-source bit, and the driver reports
    Charging, not Discharging. *)
Lemma axp_battery_status_counterexample :
  let w := mk_world (mk_axp 0 (-1) 0) (mk_bus (fun _ => 0x04) [] []) in
  next_fault (bus w) = false
  /\ Z.land (u8 (regs (bus w) 0)) 0xf0 = 0
  /\ fst (axp_battery_status 0 w) = AXP_BATT_CHARGING
  /\ fst (axp_battery_status 0 w) <> AXP_BATT_DISCHARGING.
Proof. cbv zeta. repeat split; try reflexivity. discriminate. Qed.

(** C6, with the order of the tests.  With [r] the power status read:
    Charging whenever the read succeeds and bit [0x04] of [r] is set;
    Discharging whenever the read succeeds, bit [0x04] is clear and no
    bit of [0xf0] is set, and whenever the read fails; Full only when the
    read succeeds, some bit of [0xf0] is set, bit [0x04] is clear and
    the raw discharge-current reading taken next is 0. *)
Theorem axp_battery_status_cases preg (w : world) :
  let r := u8 (regs (bus w) preg) in
  let w1 := snd (on_bus (i2c_reg_read1 preg) w) in
  let st := fst (axp_battery_status preg w) in
  (next_fault (bus w) = false -> Z.land r 0x04 <> 0 -> st = AXP_BATT_CHARGING)
  /\ (next_fault (bus w) = false -> Z.land r 0x04 = 0 -> Z.land r 0xf0 = 0 ->
      st = AXP_BATT_DISCHARGING)
  /\ (next_fault (bus w) = true -> st = AXP_BATT_DISCHARGING)
  /\ (st = AXP_BATT_FULL ->
      next_fault (bus w) = false
      /\ Z.land r 0xf0 <> 0
      /\ Z.land r 0x04 = 0
      /\ fst (axp_adc_read_raw ADC_DISCHARGE_CURRENT w1) = 0).
Proof.
  cbv zeta. unfold axp_battery_status, bind, on_bus.
  pose proof (u8_range (regs (bus w) preg)) as Hr.
  destruct (next_fault (bus w)) eqn:Hf.
  - rewrite i2c_reg_read1_failed by assumption. cbn [fst snd ret].
    repeat split; try discriminate; reflexivity.
  - rewrite i2c_reg_read1_ok by assumption. cbn [fst snd].
    destruct (Z.geb_spec (u8 (regs (bus w) preg)) 0) as [_|Hneg]; [|lia].
    destruct (Z.eqb_spec (Z.land (u8 (regs (bus w) preg)) 4) 0) as [H4|H4]; cbn [negb].
    + destruct (Z.eqb_spec (Z.land (u8 (regs (bus w) preg)) 240) 0) as [Hext|Hext].
      * cbn [ret fst]. repeat split; try discriminate; try reflexivity; contradiction.
      * destruct (axp_adc_read_raw ADC_DISCHARGE_CURRENT _) as [d w2] eqn:Hd.
        cbn [fst]. destruct (Z.eqb_spec d 0) as [->|Hd0]; cbn [ret fst].
        -- repeat split; try discriminate; try reflexivity; try assumption;
             intros; contradiction.
        -- repeat split; try discriminate; try reflexivity; intros; contradiction.
    + cbn [ret fst]. repeat split; try discriminate; try reflexivity; contradiction.
Qed.

Lemma axp_battery_status_cases_witness :
  let w := mk_world (mk_axp (Z.shiftl 1 ADC_DISCHARGE_CURRENT) (-1) 0)
             (mk_bus (fun a => if a =? 0 then 0x80 else 0) [] []) in
  fst (axp_battery_status 0 w) = AXP_BATT_FULL
  /\ next_fault (bus w) = false
  /\ Z.land (u8 (regs (bus w) 0)) 0xf0 <> 0
  /\ Z.land (u8 (regs (bus w) 0)) 0x04 = 0
  /\ fst (axp_adc_read_raw ADC_DISCHARGE_CURRENT
            (snd (on_bus (i2c_reg_read1 0) w))) = 0.
Proof.
  cbv zeta. split; [reflexivity|].
  apply (axp_battery_status_cases 0
           (mk_world (mk_axp (Z.shiftl 1 ADC_DISCHARGE_CURRENT) (-1) 0)
              (mk_bus (fun a => if a =? 0 then 0x80 else 0) [] []))).
  reflexivity.
Defined.

(** ** Supplies *)

Lemma supply_read_voltage_not_disabled (info : axp_supply_info_t) (w : world) :
  fst (supply_read_voltage info w) <> AXP_SUPPLY_DISABLED.
Proof.
  unfold supply_read_voltage, bind, on_bus, ret.
  destruct (volt_reg_mask info =? 0); [discriminate|].
  destruct (i2c_reg_read1 (volt_reg info) (bus w)) as [r b'].
  destruct (r <? 0); discriminate.
Qed.

(** The test of the general case never reports a supply as disabled:
    for every supply but LDO_IO0 a successful read of the enable
    register is followed by a voltage, whatever the enable bit is. *)
Lemma axp_supply_get_voltage_never_disabled (supply : supply_id) (w : world) :
  supply <> AXP_SUPPLY_LDO_IO0 -> next_fault (bus w) = false ->
  fst (axp_supply_get_voltage supply w) <> AXP_SUPPLY_DISABLED.
Proof.
  intros Hsup Hok. pose proof (u8_range (regs (bus w) (en_reg (axp_supply_info supply)))) as Hr.
  destruct supply; try contradiction; try discriminate;
    unfold axp_supply_get_voltage, bind, on_bus; cbn [axp_supply_info volt_reg en_reg en_bit
      Z.eqb Pos.eqb negb] in *;
    rewrite i2c_reg_read1_ok by assumption;
    match goal with
    | |- context [u8 ?x <? 0] => destruct (Z.ltb_spec (u8 x) 0) as [Hneg|_]; [lia|]
    end;
    change (c_bool (Z.shiftl 1 _ =? 0)) with 0; rewrite Z.land_0_r;
    change (c_true 0) with false; cbv iota;
    apply supply_read_voltage_not_disabled.
Qed.

(** C1, at an input where the code departs from it.  DCDC1 with a clear
    enable bit (bit 0 of register [0x12]) and [0x10] in its voltage
    register: the enable register is read successfully, the bit is
    clear, and the result is 1100 mV, not the disabled sentinel. *)
Theorem axp_supply_get_voltage_enable_bit_ignored :
  let w := mk_world (mk_axp 0 (-1) 0)
             (mk_bus (fun a => if a =? 0x26 then 0x10 else 0) [] []) in
  AXP_SUPPLY_DCDC1 <> AXP_SUPPLY_LDO_IO0
  /\ en_reg (axp_supply_info AXP_SUPPLY_DCDC1) <> 0
  /\ next_fault (bus w) = false
  /\ Z.testbit (u8 (regs (bus w) (en_reg (axp_supply_info AXP_SUPPLY_DCDC1))))
       (en_bit (axp_supply_info AXP_SUPPLY_DCDC1)) = false
  /\ fst (axp_supply_get_voltage AXP_SUPPLY_DCDC1 w) = Millivolts 1100
  /\ fst (axp_supply_get_voltage AXP_SUPPLY_DCDC1 w) <> AXP_SUPPLY_DISABLED.
Proof. cbv zeta. repeat split; try reflexivity; discriminate. Qed.

(** A positive voltage outside the range of the supply issues no bus
    transaction: driver and bus are exactly as before. *)
Lemma axp_supply_set_voltage_out_of_range rd (supply : supply_id) (voltage : Z) (w : world) :
  0 < voltage ->
  voltage < min_mV (axp_supply_info supply) \/ max_mV (axp_supply_info supply) < voltage ->
  axp_supply_set_voltage rd supply voltage w = (tt, w).
Proof.
  intros Hpos Hout. unfold axp_supply_set_voltage.
  destruct supply; cbn [axp_supply_info volt_reg volt_reg_mask step_mV min_mV max_mV
                          Z.eqb Pos.eqb orb negb andb] in *;
    try reflexivity;
    (destruct (Z.gtb_spec voltage 0) as [_|Hle]; [|lia]); cbn [andb];
    match goal with
    | |- context [(voltage <? ?lo) || (voltage >? ?hi)] =>
        destruct (Z.ltb_spec voltage lo), (Z.gtb_spec voltage hi); cbn [orb];
        try reflexivity; lia
    end.
Qed.

(** C3, at an input where the code departs from it.  LDO2 has the mask
    [0xf0]; [axp_supply_set_voltage] passes the step count unshifted, so
    a request for 2300 mV (five steps above 1800 mV) leaves the field at
    0 and the voltage read back is 1800 mV, under either reading of the
    modify primitive and with every transaction successful. *)
Theorem axp_supply_set_voltage_ldo2_not_read_back (rd : modify_reading) :
  let w := mk_world (mk_axp 0 (-1) 0) (mk_bus (fun _ => 0) [] []) in
  let info := axp_supply_info AXP_SUPPLY_LDO2 in
  let w' := snd (axp_supply_set_voltage rd AXP_SUPPLY_LDO2 (min_mV info + 5 * step_mV info) w) in
  min_mV info <= min_mV info + 5 * step_mV info <= max_mV info
  /\ fst (axp_supply_get_voltage AXP_SUPPLY_LDO2 w') = Millivolts 1800
  /\ Millivolts 1800 <> Millivolts (min_mV info + 5 * step_mV info).
Proof.
  cbv zeta. split; [cbn; lia|]. split; [destruct rd; reflexivity|discriminate].
Qed.

Lemma modify_byte_low_field rd (old n k : Z) :
  0 <= n <= 8 -> 0 <= k < 2 ^ n ->
  Z.land (u8 (modify_byte rd old (Z.ones n) k)) (Z.ones n) = k.
Proof.
  intros Hn Hk. rewrite Z.land_ones by lia. apply Z.bits_inj'. intros i Hi.
  destruct (Z_lt_ge_dec i n) as [Hlt|Hge].
  - rewrite Z.mod_pow2_bits_low, u8_bits_low by lia.
    assert (Hm : Z.testbit (u8 (Z.ones n)) i = true)
      by (rewrite u8_bits_low, Z.ones_spec_low by lia; reflexivity).
    assert (Hff : Z.testbit 255 i = true)
      by (change 255 with (Z.ones 8); apply Z.ones_spec_low; lia).
    unfold modify_byte. destruct rd;
      rewrite Z.lor_spec, !Z.land_spec, Z.lxor_spec, Hm, Hff, ?u8_bits_low by lia;
      cbn [xorb andb orb]; rewrite ?andb_false_r, ?andb_true_r; reflexivity.
  - rewrite Z.mod_pow2_bits_high by lia.
    rewrite <- (Z.mod_small k (2 ^ n)) by assumption.
    rewrite Z.mod_pow2_bits_high by lia. reflexivity.
Qed.

Lemma i2c_reg_read1_quiet (a : Z) (b : i2c_bus) :
  faults b = [] ->
  i2c_reg_read1 a b
  = (u8 (regs b a), {| regs := regs b; faults := []; trace := trace b ++ [BusRead a 1] |}).
Proof.
  intros Hf. rewrite i2c_reg_read1_ok by (unfold next_fault; rewrite Hf; reflexivity).
  unfold bus_step, next_fault. rewrite Hf. reflexivity.
Qed.

Lemma i2c_reg_modify1_quiet rd (a clr set : Z) (b : i2c_bus) :
  faults b = [] ->
  i2c_reg_modify1 rd a clr set b
  = {| regs := reg_store (regs b) a (modify_byte rd (regs b a) clr set);
       faults := [];
       trace := trace b ++ [BusModify a clr set] |}.
Proof.
  intros Hf. unfold i2c_reg_modify1, bus_step, next_fault. rewrite Hf. reflexivity.
Qed.

Lemma u8_idem (z : Z) : u8 (u8 z) = u8 z.
Proof. unfold u8. apply Z.mod_mod. lia. Qed.

(** Set then get reads the requested voltage back on the supplies whose
    mask starts at bit 0, where the missing shift does not matter. *)
Lemma axp_supply_round_trip_low_mask rd (supply : supply_id) (k : Z) (w : world) :
  volt_reg (axp_supply_info supply) <> 0 ->
  find_first_set_bit (volt_reg_mask (axp_supply_info supply)) = 0 ->
  faults (bus w) = [] ->
  let info := axp_supply_info supply in
  let v := min_mV info + k * step_mV info in
  min_mV info <= v <= max_mV info ->
  fst (axp_supply_get_voltage supply (snd (axp_supply_set_voltage rd supply v w)))
  = Millivolts v.
Proof.
  intros Hreg Hffs Hf. cbv zeta. intros Hv.
  destruct supply; try discriminate Hffs; try (exfalso; apply Hreg; reflexivity);
    cbn [axp_supply_info min_mV max_mV step_mV] in Hv;
    unfold axp_supply_set_voltage, axp_supply_get_voltage, supply_set_enable,
      supply_read_voltage, bind, on_bus, on_bus_, ret, i2c_reg_setbit1;
    cbn [axp_supply_info volt_reg volt_reg_mask en_reg en_bit min_mV max_mV step_mV
           Z.eqb Pos.eqb negb orb andb].
  all: match goal with
       | |- context [(?v >? 0)] => destruct (Z.gtb_spec v 0) as [_|Hle]; [|lia]
       end; cbn [andb].
  all: match goal with
       | |- context [(?v <? ?lo) || (?v >? ?hi)] =>
           destruct (Z.ltb_spec v lo); [lia|]; destruct (Z.gtb_spec v hi); [lia|]
       end; cbn [orb].
  all: cbv beta iota; cbn [snd bus axp].
  all: rewrite (i2c_reg_modify1_quiet rd _ _ _ (bus w)) by assumption;
    rewrite i2c_reg_modify1_quiet by reflexivity.
  all: rewrite i2c_reg_read1_quiet by reflexivity; cbn [regs trace faults bus axp].
  all: match goal with
       | |- context [u8 ?x <? 0] =>
           pose proof (u8_range x); destruct (Z.ltb_spec (u8 x) 0) as [Hneg|_]; [lia|]
       end.
  all: change (c_bool (Z.shiftl 1 _ =? 0)) with 0; rewrite Z.land_0_r;
    change (c_true 0) with false; cbv beta iota.
  all: rewrite i2c_reg_read1_quiet by reflexivity; cbn [regs trace faults bus axp fst].
  all: match goal with
       | |- context [u8 ?x <? 0] =>
           pose proof (u8_range x); destruct (Z.ltb_spec (u8 x) 0) as [Hneg2|_]; [lia|]
       end.
  all: cbn [fst]; change (find_first_set_bit _) with 0; rewrite Z.shiftr_0_r.
  all: unfold reg_store at 1; cbn [Z.eqb Pos.eqb]; unfold reg_store at 1; cbn [Z.eqb Pos.eqb].
  all: rewrite u8_idem.
  all: match goal with
       | |- context [int_div (int_sub (?lo + ?k * ?st) ?lo) ?st] =>
           replace (int_div (int_sub (lo + k * st) lo) st) with k
       end.
  all: try (unfold int_div, int_sub;
            match goal with
            | |- ?k = wrap_int (Z.quot (wrap_int (?lo + ?k * ?st - ?lo)) ?st) =>
                replace (lo + k * st - lo) with (k * st) by lia;
                rewrite (wrap_int_id (k * st)) by (unfold in_int, INT_MIN, INT_MAX; lia);
                rewrite Z.quot_mul by lia;
                rewrite wrap_int_id by (unfold in_int, INT_MIN, INT_MAX; lia);
                reflexivity
            end).
  - change 127 with (Z.ones 7). rewrite modify_byte_low_field by lia. reflexivity.
  - change 63 with (Z.ones 6). rewrite modify_byte_low_field by lia. reflexivity.
  - change 127 with (Z.ones 7). rewrite modify_byte_low_field by lia. reflexivity.
  - change 15 with (Z.ones 4). rewrite modify_byte_low_field by lia. reflexivity.
Qed.

(** ** Simulator sector stubs *)

Lemma ata_write_body_files U (start : Z) (buf : list Z) (i : Z) (fs : hostfs) :
  files (ata_write_body U start buf i fs)
  = (if refused fs (sector_name U start i) then files fs
     else <[sector_name U start i := take 512 buf]> (files fs))
  /\ refused (ata_write_body U start buf i fs) = refused fs.
Proof.
  unfold ata_write_body, fopen_w, fwrite.
  destruct (refused fs (sector_name U start i)); cbn [files refused]; [split; reflexivity|].
  rewrite alter_insert_eq. split; reflexivity.
Qed.

Lemma ata_write_loop_refused U (start : Z) (buf : list Z) (n : nat) (i0 : Z) (fs : hostfs) :
  refused (for_loop n i0 (ata_write_body U start buf) fs) = refused fs.
Proof.
  apply (for_loop_invariant (fun fs' => refused fs' = refused fs)); [|reflexivity].
  intros i fs' Hfs'. rewrite (proj2 (ata_write_body_files U start buf i fs')). assumption.
Qed.

Lemma ata_write_loop_keeps U (start : Z) (buf : list Z) (n : nat) (i0 : Z) (fs : hostfs)
    (f : string) :
  files fs !! f = Some (take 512 buf) ->
  files (for_loop n i0 (ata_write_body U start buf) fs) !! f = Some (take 512 buf).
Proof.
  apply (for_loop_invariant (fun fs' => files fs' !! f = Some (take 512 buf))).
  intros i fs' Hfs'. rewrite (proj1 (ata_write_body_files U start buf i fs')).
  destruct (refused fs' (sector_name U start i)); [assumption|].
  destruct (decide (sector_name U start i = f)) as [<-|Hne].
  - apply lookup_insert_eq.
  - rewrite lookup_insert_ne by assumption. assumption.
Qed.

(** What the write loop leaves in a file: untouched unless the file is
    the one of a sector in the range and can be opened, in which case it
    holds 512 bytes taken from the start of the buffer. *)
Lemma ata_write_loop_files U (start : Z) (buf : list Z) (n : nat) (i0 : Z) (fs : hostfs)
    (f : string) :
  let fs' := for_loop n i0 (ata_write_body U start buf) fs in
  ((forall i, i0 <= i < i0 + Z.of_nat n -> f <> sector_name U start i) ->
   files fs' !! f = files fs !! f)
  /\ (refused fs f = true -> files fs' !! f = files fs !! f)
  /\ (forall i, i0 <= i < i0 + Z.of_nat n -> f = sector_name U start i ->
      refused fs f = false -> files fs' !! f = Some (take 512 buf)).
Proof.
  cbv zeta. revert i0 fs. induction n as [|n IH]; intros i0 fs; cbn [for_loop].
  - split; [reflexivity|]. split; [reflexivity|]. intros i Hi. lia.
  - destruct (IH (i0 + 1) (ata_write_body U start buf i0 fs)) as (Hother & Href & Hhit).
    destruct (ata_write_body_files U start buf i0 fs) as [Hfiles Hrefused].
    rewrite Hrefused in Href, Hhit.
    split; [|split].
    + intros Hne. rewrite Hother by (intros i Hi; apply Hne; lia).
      rewrite Hfiles. destruct (refused fs (sector_name U start i0)); [reflexivity|].
      apply lookup_insert_ne. intros Heq. apply (Hne i0); [lia|]. symmetry. exact Heq.
    + intros Hr. rewrite Href by assumption. rewrite Hfiles.
      destruct (refused fs (sector_name U start i0)) eqn:Hr0; [reflexivity|].
      apply lookup_insert_ne. intros Heq. rewrite Heq, Hr in Hr0. discriminate.
    + intros i Hi Hf Hr.
      destruct (Z.eq_dec i i0) as [->|Hne].
      * apply ata_write_loop_keeps. rewrite Hfiles, <- Hf, Hr. apply lookup_insert_eq.
      * apply (Hhit i); [lia|assumption|assumption].
Qed.

Lemma ata_read_body_files U (start : Z) (fs : hostfs) (i : Z) (buf : list Z) :
  ata_read_body U start fs i buf
  = (if refused fs (sector_name U start i) then buf
     else match files fs !! sector_name U start i with
          | Some d => take 512 d ++ drop (length (take 512 d)) buf
          | None => buf
          end).
Proof.
  unfold ata_read_body, fopen_r, fread, fill.
  destruct (refused fs (sector_name U start i)); [reflexivity|].
  destruct (files fs !! sector_name U start i) as [d|] eqn:Hd; [|reflexivity].
  rewrite Hd. reflexivity.
Qed.

Lemma ata_read_loop_absent U (start : Z) (fs : hostfs) (n : nat) (i0 : Z) (buf : list Z) :
  (forall i, i0 <= i < i0 + Z.of_nat n -> files fs !! sector_name U start i = None) ->
  for_loop n i0 (ata_read_body U start fs) buf = buf.
Proof.
  revert i0. induction n as [|n IH]; intros i0 Hnone; cbn [for_loop]; [reflexivity|].
  rewrite ata_read_body_files, (Hnone i0) by lia.
  destruct (refused fs (sector_name U start i0));
    apply IH; intros i Hi; apply Hnone; lia.
Qed.

(** C4 as stated fails: the file of sector [0x3F] is "sector3F.bin",
    there is no "3F.bin"; and the second sector of a two-sector write
    receives the first 512 bytes of the buffer again. *)
Lemma ata_write_sectors_counterexample :
  let fs0 := mk_hostfs ∅ (fun _ => false) in
  let buf := replicate 512 1 ++ replicate 512 2 in
  let fs1 := snd (ata_write_sectors 32 0x3F 2 buf fs0) in
  files fs1 !! "3F.bin" = None
  /\ files fs1 !! "40.bin" = None
  /\ files fs1 !! "sector3F.bin" = Some (replicate 512 1)
  /\ files fs1 !! "sector40.bin" = Some (replicate 512 1)
  /\ take 512 (drop 512 buf) = replicate 512 2.
Proof. cbv zeta. repeat split; vm_compute; reflexivity. Qed.

(** C4, as the stubs have it.  Both stubs return 1 whatever happens to
    the files.  The file of sector [start + i] is named "sector", the
    upper-case hexadecimal number, ".bin" (sector [0x3F]: "sector3F.bin").
    A write of [count] sectors leaves such a file for every [i] below
    [count] whose file can be opened, the first of them holding bytes 0
    to 511 of the buffer, and touches no other file.  A read of one
    sector replaces the start of the buffer by the 512 bytes of the
    file; a read finds the buffer unchanged when none of the files
    exists. *)
Theorem ata_sectors_files U (start count : Z) (buf : list Z) (fs : hostfs) :
  let name i := sector_name U start i in
  let written := snd (ata_write_sectors U start count buf fs) in
  let read := snd (ata_read_sectors U start count buf fs) in
  fst (ata_write_sectors U start count buf fs) = 1
  /\ fst (ata_read_sectors U start count buf fs) = 1
  /\ sector_name 32 0x3F 0 = "sector3F.bin"
  /\ (forall i, 0 <= i < count -> refused fs (name i) = false ->
      is_Some (files written !! name i))
  /\ (0 < count -> refused fs (name 0) = false ->
      files written !! name 0 = Some (take 512 buf))
  /\ (forall f, (forall i, 0 <= i < count -> f <> name i) \/ refused fs f = true ->
      files written !! f = files fs !! f)
  /\ (count = 1 -> forall d, refused fs (name 0) = false ->
      files fs !! name 0 = Some d -> length d = 512%nat ->
      read = d ++ drop 512 buf)
  /\ ((forall i, 0 <= i < count -> files fs !! name i = None) -> read = buf).
Proof.
  cbv zeta beta. unfold ata_write_sectors, ata_read_sectors. cbn [fst snd].
  split; [reflexivity|]. split; [reflexivity|]. split; [reflexivity|].
  split; [|split; [|split; [|split]]].
  - intros i Hi Hr.
    destruct (ata_write_loop_files U start buf (Z.to_nat count) 0 fs (sector_name U start i))
      as (_ & _ & Hhit).
    rewrite (Hhit i) by (try assumption; try reflexivity; lia). eexists. reflexivity.
  - intros Hc Hr.
    destruct (ata_write_loop_files U start buf (Z.to_nat count) 0 fs (sector_name U start 0))
      as (_ & _ & Hhit).
    apply (Hhit 0); [lia|reflexivity|assumption].
  - intros f Hf.
    destruct (ata_write_loop_files U start buf (Z.to_nat count) 0 fs f) as (Hother & Href & _).
    destruct Hf as [Hne|Hr]; [|apply Href; assumption].
    apply Hother. intros i Hi. apply Hne. lia.
  - intros -> d Hr Hd Hlen. change (Z.to_nat 1) with 1%nat. cbn [for_loop].
    rewrite ata_read_body_files, Hr, Hd.
    rewrite take_ge by lia. rewrite Hlen. reflexivity.
  - intros Hnone. apply ata_read_loop_absent. intros i Hi. apply Hnone. lia.
Qed.

Lemma ata_sectors_files_witness :
  let fs := mk_hostfs {[ "sector3F.bin" := replicate 512 9 ]} (fun _ => false) in
  let buf := replicate 1024 0 in
  (1 = 1 /\ refused fs (sector_name 32 0x3F 0) = false
   /\ files fs !! sector_name 32 0x3F 0 = Some (replicate 512 9)
   /\ length (replicate 512 9) = 512%nat)
  /\ snd (ata_read_sectors 32 0x3F 1 buf fs) = replicate 512 9 ++ drop 512 buf.
Proof.
  cbv zeta. split; [repeat split; vm_compute; reflexivity|].
  apply (ata_sectors_files 32 0x3F 1 (replicate 1024 0)
           (mk_hostfs {[ "sector3F.bin" := replicate 512 9 ]} (fun _ => false)));
    [reflexivity|reflexivity|vm_compute; reflexivity|vm_compute; reflexivity].
Defined.

(** *** The hexadecimal rendering *)

Lemma string_app_assoc (s1 s2 s3 : string) : (s1 +:+ s2) +:+ s3 = s1 +:+ (s2 +:+ s3).
Proof.
  induction s1 as [|c s1 IH]; [reflexivity|].
  change (String c ((s1 +:+ s2) +:+ s3) = String c (s1 +:+ (s2 +:+ s3))).
  rewrite IH. reflexivity.
Qed.

Lemma hex_value_from_app (a : Z) (s1 s2 : string) :
  hex_value_from a (s1 +:+ s2) = hex_value_from (hex_value_from a s1) s2.
Proof.
  revert a. induction s1 as [|c s1 IH]; intros a; [reflexivity|].
  change (hex_value_from (a * 16 + hex_digit_value c) (s1 +:+ s2)
          = hex_value_from (hex_value_from (a * 16 + hex_digit_value c) s1) s2).
  apply IH.
Qed.

Lemma hex_digit_value_digit (d : Z) : 0 <= d < 16 -> hex_digit_value (hex_digit d) = d.
Proof.
  intros Hd.
  assert (H : Forall (fun d => hex_digit_value (hex_digit d) = d) (seqZ 0 16))
    by (vm_compute; repeat constructor).
  rewrite Forall_forall in H. apply H, elem_of_seqZ. lia.
Qed.

(** With enough rounds, the digits produced are those of [n]: read
    back, they give [n]. *)
Lemma hex_digits_value (fuel : nat) (n : Z) (acc : string) :
  0 <= n < 16 ^ Z.of_nat fuel ->
  exists (d : string) (len : Z),
    hex_digits fuel n acc = d +:+ acc
    /\ 0 <= len
    /\ forall a, hex_value_from a d = a * 16 ^ len + n.
Proof.
  revert n acc. induction fuel as [|fuel IH]; intros n acc Hn.
  - exists ""%string, 0. split; [reflexivity|]. split; [lia|].
    intros a. cbn [hex_value_from]. change (16 ^ Z.of_nat 0) with 1 in Hn. lia.
  - cbn [hex_digits].
    rewrite Nat2Z.inj_succ, Z.pow_succ_r in Hn by lia.
    pose proof (Z.div_mod n 16 ltac:(lia)) as Hdm.
    pose proof (Z.mod_pos_bound n 16 ltac:(lia)) as Hm.
    destruct (Z.eqb_spec (n / 16) 0) as [Hz|Hnz].
    + exists (String (hex_digit (n mod 16)) ""), 1. split; [reflexivity|]. split; [lia|].
      intros a. cbn [hex_value_from]. rewrite hex_digit_value_digit by assumption. lia.
    + assert (Hq : 0 <= n / 16 < 16 ^ Z.of_nat fuel).
      { split; [apply Z.div_pos; lia|apply Z.div_lt_upper_bound; lia]. }
      destruct (IH (n / 16) (String (hex_digit (n mod 16)) acc) Hq)
        as (d & len & Hd & Hlen & Hval).
      exists (d +:+ String (hex_digit (n mod 16)) ""), (len + 1).
      split; [rewrite Hd, string_app_assoc; reflexivity|]. split; [lia|].
      intros a. rewrite hex_value_from_app, Hval. cbn [hex_value_from].
      rewrite hex_digit_value_digit by assumption.
      rewrite Z.pow_add_r by lia. lia.
Qed.

(** [%lX] prints every digit of its argument: reading the text back
    gives the number, so different sectors have different files. *)
Lemma hex_value_sprintf_lX (n : Z) : 0 <= n -> hex_value (sprintf_lX n) = n.
Proof.
  intros Hn. unfold sprintf_lX, hex_value.
  destruct (hex_digits_value (S (Z.to_nat (Z.log2 n))) n "") as (d & len & Hd & Hlen & Hval).
  - split; [assumption|].
    destruct (Z.eq_dec n 0) as [->|Hnz]; [reflexivity|].
    pose proof (Z.log2_spec n ltac:(lia)) as [_ Hhi].
    pose proof (Z.log2_nonneg n) as Hlog.
    rewrite Nat2Z.inj_succ, Z2Nat.id by assumption.
    assert (2 ^ Z.succ (Z.log2 n) <= 16 ^ Z.succ (Z.log2 n))
      by (apply Z.pow_le_mono_l; lia).
    lia.
  - rewrite Hd, hex_value_from_app, Hval. cbn [hex_value_from]. lia.
Qed.

Lemma string_length_app (s t : string) :
  String.length (s +:+ t) = (String.length s + String.length t)%nat.
Proof.
  induction s as [|c s IH]; [reflexivity|].
  change (S (String.length (s +:+ t)) = S (String.length s + String.length t)).
  rewrite IH. reflexivity.
Qed.

Lemma string_app_inj_r (u s t : string) : s +:+ u = t +:+ u -> s = t.
Proof.
  intros Hst.
  assert (Hlen : String.length s = String.length t).
  { apply (f_equal String.length) in Hst. rewrite !string_length_app in Hst. lia. }
  revert t Hst Hlen. induction s as [|c s IHs]; intros [|c' t] Hst Hlen;
    try discriminate Hlen; [reflexivity|].
  change (String c (s +:+ u) = String c' (t +:+ u)) in Hst.
  injection Hst as -> Hst. f_equal. apply IHs; [assumption|].
  cbn [String.length] in Hlen. lia.
Qed.

(** Sectors whose numbers differ as [unsigned long] have different
    files. *)
Lemma sector_name_inj U (start i j : Z) :
  0 <= U ->
  (start + i) mod 2 ^ U <> (start + j) mod 2 ^ U ->
  sector_name U start i <> sector_name U start j.
Proof.
  intros HU Hne Heq. apply Hne. unfold sector_name in Heq.
  apply (inj (String.app "sector")) in Heq.
  apply string_app_inj_r in Heq.
  assert (H0 : forall x, 0 <= x mod 2 ^ U) by (intros x; apply Z.mod_pos_bound; lia).
  rewrite <- (hex_value_sprintf_lX ((start + i) mod 2 ^ U)) by apply H0.
  rewrite <- (hex_value_sprintf_lX ((start + j) mod 2 ^ U)) by apply H0.
  rewrite Heq. reflexivity.
Qed.

(** * Further properties *)

(** ** Charge current: bus traffic and order *)

Lemma modify_byte_high_kept rd (old n k i : Z) :
  0 <= n <= 8 -> 0 <= k < 2 ^ n -> n <= i < 8 ->
  Z.testbit (u8 (modify_byte rd old (Z.ones n) k)) i = Z.testbit old i.
Proof.
  intros Hn Hk Hi. rewrite u8_bits_low by lia.
  assert (Hm : Z.testbit (u8 (Z.ones n)) i = false)
    by (rewrite u8_bits_low, Z.ones_spec_high by lia; reflexivity).
  assert (Hff : Z.testbit 255 i = true)
    by (change 255 with (Z.ones 8); apply Z.ones_spec_low; lia).
  assert (Hkb : Z.testbit (u8 k) i = false).
  { rewrite u8_bits_low by lia.
    rewrite <- (Z.mod_small k (2 ^ n)) by assumption.
    apply Z.mod_pow2_bits_high. lia. }
  unfold modify_byte. destruct rd;
    rewrite Z.lor_spec, !Z.land_spec, Z.lxor_spec, Hm, Hff, Hkb, u8_bits_low by lia;
    cbn [xorb andb orb]; rewrite ?andb_true_r, ?andb_false_r, ?orb_false_r; reflexivity.
Qed.

Lemma chargecurrent_index_range (m : Z) : 0 <= chargecurrent_index m <= 15.
Proof.
  pose proof (chargecurrent_index_spec m) as (Hrange & _). cbv zeta in Hrange.
  change chargecurrent_tblsz with 16 in Hrange. lia.
Qed.

(** X1.  [axp_set_charge_current] touches the bus only when the index it
    selects differs from the cached one, and then with a single modify
    of the low four bits of the charge-control register: after a
    successful modify those bits hold the index and bits 4 to 7 are as
    before.  The index is cached whether or not the modify succeeds, so
    a repeated call with the same request changes nothing and issues no
    transaction. *)
Theorem axp_set_charge_current_traffic rd creg (m : Z) (w : world) :
  let idx := chargecurrent_index m in
  let w1 := snd (axp_set_charge_current rd creg m w) in
  (idx = chargecurrent_setting (axp w) -> w1 = w)
  /\ (idx <> chargecurrent_setting (axp w) ->
      trace (bus w1) = trace (bus w) ++ [BusModify creg 0x0f idx]
      /\ (next_fault (bus w) = false ->
          Z.land (regs (bus w1) creg) 0x0f = idx
          /\ forall i, 4 <= i < 8 ->
               Z.testbit (regs (bus w1) creg) i = Z.testbit (regs (bus w) creg) i))
  /\ snd (axp_set_charge_current rd creg m w1) = w1.
Proof.
  cbv zeta. pose proof (chargecurrent_index_range m) as Hidx.
  assert (Hsame : forall w0, chargecurrent_index m = chargecurrent_setting (axp w0) ->
                             snd (axp_set_charge_current rd creg m w0) = w0).
  { intros w0 Heq. unfold axp_set_charge_current, bind, get_axp, ret.
    rewrite Heq, Z.eqb_refl. reflexivity. }
  split; [apply Hsame|]. split.
  - intros Hne. unfold axp_set_charge_current, bind, get_axp, ret, on_bus_, put_axp.
    destruct (Z.eqb_spec (chargecurrent_index m) (chargecurrent_setting (axp w)))
      as [Heq|_]; [contradiction|].
    cbn [snd bus]. split; [reflexivity|].
    intros Hok. unfold i2c_reg_modify1, bus_step. cbn [regs]. rewrite Hok.
    unfold reg_store. rewrite Z.eqb_refl.
    change 15 with (Z.ones 4). split.
    + apply modify_byte_low_field; lia.
    + intros i Hi. apply modify_byte_high_kept; lia.
  - apply Hsame. symmetry. apply axp_set_charge_current_setting.
Qed.

Lemma axp_set_charge_current_traffic_witness :
  let w := mk_world (mk_axp 0 3 0) (mk_bus (fun _ => 0xc3) [] []) in
  chargecurrent_index 700 <> chargecurrent_setting (axp w)
  /\ next_fault (bus w) = false
  /\ Z.land (regs (bus (snd (axp_set_charge_current ValueMasked 0x33 700 w))) 0x33) 0x0f = 7.
Proof.
  cbv zeta.
  assert (Hne : chargecurrent_index 700
                <> chargecurrent_setting
                     (axp (mk_world (mk_axp 0 3 0) (mk_bus (fun _ => 0xc3) [] []))))
    by discriminate.
  split; [exact Hne|]. split; [reflexivity|].
  pose proof (axp_set_charge_current_traffic ValueMasked 0x33 700
                (mk_world (mk_axp 0 3 0) (mk_bus (fun _ => 0xc3) [] [])))
    as (_ & Hchanged & _).
  destruct (Hchanged Hne) as (_ & Hreg). destruct (Hreg eq_refl) as (Hlow & _).
  exact Hlow.
Defined.

(** X2.  The selection is monotonic: a larger request never selects a
    smaller limit. *)
Theorem axp_set_charge_current_monotonic rd creg (m1 m2 : Z) (w : world) :
  m1 <= m2 ->
  fst (axp_get_charge_current (snd (axp_set_charge_current rd creg m1 w)))
  <= fst (axp_get_charge_current (snd (axp_set_charge_current rd creg m2 w))).
Proof.
  intros Hle.
  assert (Hget : forall m, fst (axp_get_charge_current
                                  (snd (axp_set_charge_current rd creg m w)))
                           = chargecurrent_at (chargecurrent_index m)).
  { intros m. unfold axp_get_charge_current, bind, get_axp, ret.
    rewrite axp_set_charge_current_setting.
    pose proof (chargecurrent_index_range m).
    destruct (Z.ltb_spec (chargecurrent_index m) 0); [lia|reflexivity]. }
  rewrite !Hget.
  pose proof (chargecurrent_index_spec m1) as (Hr1 & Hlow1 & _ & Hmid1).
  pose proof (chargecurrent_index_spec m2) as (Hr2 & _ & _ & Hmid2).
  cbv zeta in *.
  destruct (Z_lt_ge_dec m1 100) as [Hsmall|Hbig].
  - rewrite (Hlow1 Hsmall). apply chargecurrent_tbl_ascending; lia.
  - destruct (Hmid1 ltac:(lia)) as [Hat1 _]. destruct (Hmid2 ltac:(lia)) as [_ Hmax2].
    apply Hmax2; [lia|lia].
Qed.

Lemma axp_set_charge_current_monotonic_witness :
  let w := mk_world (mk_axp 0 (-1) 0) (mk_bus (fun _ => 0) [] []) in
  500 <= 999
  /\ fst (axp_get_charge_current (snd (axp_set_charge_current ValueAsGiven 0x33 500 w)))
     <= fst (axp_get_charge_current (snd (axp_set_charge_current ValueAsGiven 0x33 999 w))).
Proof.
  cbv zeta. split; [lia|].
  apply (axp_set_charge_current_monotonic ValueAsGiven 0x33 500 999). lia.
Defined.

(** ** What an ADC read returns *)

Lemma axp_adc_read_raw_decoded (adc : Z) (w : world) :
  0 <= adc -> Z.testbit (adc_enable (axp w)) adc = true ->
  next_fault (bus w) = false ->
  axp_adc_read_raw adc w
  = (adc_raw_value adc (regs (bus w)),
     {| axp := axp w;
        bus := bus_step (BusRead (reg (adc_info_at adc))
                           (if adc =? ADC_BATTERY_POWER then 3 else 2))
                 (regs (bus w)) (bus w) |}).
Proof.
  intros Hadc Hbit Hok.
  unfold axp_adc_read_raw, bind, get_axp, ret, on_bus, i2c_reg_read.
  cbv beta iota.
  rewrite land_bit_eqb, Hbit by assumption. cbn [negb]. cbv beta iota.
  rewrite Hok. cbv beta iota. unfold adc_raw_value. cbv zeta.
  set (a := reg (adc_info_at adc)). set (r := regs (bus w)).
  assert (Hb : forall n i, (i < n)%nat ->
                 buf_at (reg_load_many r a n) i = u8 (r (a + Z.of_nat i)))
    by (intros n i Hi; apply reg_load_many_nth; assumption).
  pose proof (u8_range (r (a + 0))) as H0. pose proof (u8_range (r (a + 1))) as H1.
  pose proof (u8_range (r (a + 2))) as H2.
  destruct (adc =? ADC_BATTERY_POWER);
    [|destruct ((adc =? ADC_CHARGE_CURRENT) || (adc =? ADC_DISCHARGE_CURRENT))].
  - change (Z.to_nat 3) with 3%nat. rewrite !Hb by lia.
    change (Z.of_nat 0) with 0. change (Z.of_nat 1) with 1. change (Z.of_nat 2) with 2.
    f_equal. rewrite !Z.shiftl_mul_pow2 by lia.
    rewrite (lor_multiple_add (u8 (r (a + 0)) * 2 ^ 16) (u8 (r (a + 1)) * 2 ^ 8) 16)
      by (try apply Z.mod_mul; lia).
    rewrite (lor_multiple_add _ _ 8); [reflexivity|lia| |lia].
    replace (u8 (r (a + 0)) * 2 ^ 16 + u8 (r (a + 1)) * 2 ^ 8)
      with ((u8 (r (a + 0)) * 2 ^ 8 + u8 (r (a + 1))) * 2 ^ 8) by lia.
    apply Z.mod_mul. lia.
  - change (Z.to_nat 2) with 2%nat. rewrite !Hb by lia.
    change (Z.of_nat 0) with 0. change (Z.of_nat 1) with 1.
    f_equal. change 31 with (Z.ones 5). rewrite Z.land_ones by lia.
    apply lor_shiftl_add; [lia|]. apply Z.mod_pos_bound. lia.
  - change (Z.to_nat 2) with 2%nat. rewrite !Hb by lia.
    change (Z.of_nat 0) with 0. change (Z.of_nat 1) with 1.
    f_equal. change 15 with (Z.ones 4). rewrite Z.land_ones by lia.
    apply lor_shiftl_add; [lia|]. apply Z.mod_pos_bound. lia.
Qed.

Lemma adc_raw_value_range (adc : Z) (r : Z -> Z) :
  0 <= adc_raw_value adc r < 2 ^ adc_raw_bits adc.
Proof.
  unfold adc_raw_value, adc_raw_bits. cbv zeta.
  set (a := reg (adc_info_at adc)).
  pose proof (u8_range (r (a + 0))) as H0. pose proof (u8_range (r (a + 1))) as H1.
  pose proof (u8_range (r (a + 2))) as H2.
  pose proof (Z.mod_pos_bound (u8 (r (a + 1))) (2 ^ 5) ltac:(lia)).
  pose proof (Z.mod_pos_bound (u8 (r (a + 1))) (2 ^ 4) ltac:(lia)).
  destruct (adc =? ADC_BATTERY_POWER);
    [|destruct ((adc =? ADC_CHARGE_CURRENT) || (adc =? ADC_DISCHARGE_CURRENT))]; lia.
Qed.

(** X3.  A raw read of an enabled channel that succeeds on the bus is
    one read transaction of two registers (three for the battery power)
    at the channel's address; it changes neither the registers nor the
    driver state, and its result is the number the bytes spell: the
    first byte times 16 plus the low four bits of the second (times 32
    and five bits for the charge and discharge current, a 24-bit
    big-endian number for the battery power), hence below [2 ^ 12],
    [2 ^ 13] and [2 ^ 24]. *)
Theorem axp_adc_read_raw_value (adc : Z) (w : world) :
  0 <= adc < NUM_ADC_CHANNELS ->
  Z.testbit (adc_enable (axp w)) adc = true ->
  next_fault (bus w) = false ->
  let w' := snd (axp_adc_read_raw adc w) in
  fst (axp_adc_read_raw adc w) = adc_raw_value adc (regs (bus w))
  /\ 0 <= fst (axp_adc_read_raw adc w) < 2 ^ adc_raw_bits adc
  /\ trace (bus w')
     = trace (bus w) ++ [BusRead (reg (adc_info_at adc))
                           (if adc =? ADC_BATTERY_POWER then 3 else 2)]
  /\ regs (bus w') = regs (bus w)
  /\ axp w' = axp w.
Proof.
  intros Hadc Hbit Hok. cbv zeta.
  rewrite axp_adc_read_raw_decoded by (try assumption; lia). cbn [fst snd bus axp].
  split; [reflexivity|]. split; [apply adc_raw_value_range|].
  split; [reflexivity|]. split; [|reflexivity].
  unfold bus_step. cbn [regs]. rewrite Hok. reflexivity.
Qed.

Lemma axp_adc_read_raw_value_witness :
  let w := mk_world (mk_axp (Z.shiftl 1 ADC_BATTERY_VOLTAGE) 0 0)
             (mk_bus (fun a => if a =? 0x78 then 0xab else 0xcd) [] []) in
  (0 <= ADC_BATTERY_VOLTAGE < NUM_ADC_CHANNELS
   /\ Z.testbit (adc_enable (axp w)) ADC_BATTERY_VOLTAGE = true
   /\ next_fault (bus w) = false)
  /\ fst (axp_adc_read_raw ADC_BATTERY_VOLTAGE w) = 0xabd.
Proof.
  cbv zeta.
  assert (Hch : 0 <= ADC_BATTERY_VOLTAGE < NUM_ADC_CHANNELS)
    by (unfold ADC_BATTERY_VOLTAGE, NUM_ADC_CHANNELS; lia).
  split; [split; [exact Hch|split; reflexivity]|].
  pose proof (axp_adc_read_raw_value ADC_BATTERY_VOLTAGE
                (mk_world (mk_axp (Z.shiftl 1 ADC_BATTERY_VOLTAGE) 0 0)
                   (mk_bus (fun a => if a =? 0x78 then 0xab else 0xcd) [] []))
                Hch eq_refl eq_refl) as (Hval & _).
  rewrite Hval. reflexivity.
Defined.

(** X4.  A converted read of an enabled channel that succeeds on the
    bus is never the "no value" sentinel and lies in the range that the
    width of the raw value leaves: 0 to 6961 mV for the input voltages,
    0 to 2559 and 0 to 1535 mA for the input currents, -144.7 to 264.8
    degrees (in tenths) for the internal temperature, 0 to 3276 mV for
    the TS input, 0 to 4504 mV for the battery voltage, 0 to 4095 mA for
    the charge and discharge current, 0 to 5733 mV for the APS voltage,
    as the comments of [axp_adc_conv_raw] say, and 0 to 9227468 for the
    battery power. *)
Theorem axp_adc_read_range (adc : Z) (w : world) :
  0 <= adc < NUM_ADC_CHANNELS ->
  Z.testbit (adc_enable (axp w)) adc = true ->
  next_fault (bus w) = false ->
  fst (adc_reading_range adc) <= fst (axp_adc_read adc w) <= snd (adc_reading_range adc).
Proof.
  intros Hadc Hbit Hok. unfold NUM_ADC_CHANNELS in Hadc.
  unfold axp_adc_read, bind, ret.
  rewrite axp_adc_read_raw_decoded by (try assumption; lia).
  pose proof (adc_raw_value_range adc (regs (bus w))) as Hraw.
  set (v := adc_raw_value adc (regs (bus w))) in *.
  destruct (Z.eqb_spec v INT_MIN) as [Heq|_]; [unfold INT_MIN in Heq; lia|].
  cbn [fst].
  assert (Hbits : adc_raw_bits adc <= 24).
  { unfold adc_raw_bits. destruct (adc =? ADC_BATTERY_POWER);
      [|destruct ((adc =? ADC_CHARGE_CURRENT) || (adc =? ADC_DISCHARGE_CURRENT))]; lia. }
  assert (Hv24 : 0 <= v < 2 ^ 24).
  { split; [lia|]. pose proof (Z.pow_le_mono_r 2 _ 24 ltac:(lia) Hbits). lia. }
  rewrite axp_adc_conv_raw_exact by (unfold in_int, INT_MIN, INT_MAX; lia).
  assert (Hcases : adc = 0 \/ adc = 1 \/ adc = 2 \/ adc = 3 \/ adc = 4 \/ adc = 5
                   \/ adc = 6 \/ adc = 7 \/ adc = 8 \/ adc = 9 \/ adc = 10) by lia.
  repeat destruct Hcases as [->|Hcases]; try subst adc;
    cbn [adc_raw_bits Z.eqb Pos.eqb orb ADC_BATTERY_POWER ADC_CHARGE_CURRENT
           ADC_DISCHARGE_CURRENT] in Hraw;
    match goal with
    | |- context [adc_reading_range ?c] =>
        let x := eval vm_compute in (adc_reading_range c) in
        change (adc_reading_range c) with x
    end;
    cbn [conv_formula default from_option id fst snd];
    Z.to_euclidean_division_equations; lia.
Qed.

Lemma axp_adc_read_range_witness :
  let w := mk_world (mk_axp (Z.shiftl 1 ADC_INTERNAL_TEMP) 0 0)
             (mk_bus (fun _ => 0xff) [] []) in
  (0 <= ADC_INTERNAL_TEMP < NUM_ADC_CHANNELS
   /\ Z.testbit (adc_enable (axp w)) ADC_INTERNAL_TEMP = true
   /\ next_fault (bus w) = false)
  /\ -1447 <= fst (axp_adc_read ADC_INTERNAL_TEMP w) <= 2648.
Proof.
  cbv zeta.
  assert (Hch : 0 <= ADC_INTERNAL_TEMP < NUM_ADC_CHANNELS)
    by (unfold ADC_INTERNAL_TEMP, NUM_ADC_CHANNELS; lia).
  split; [split; [exact Hch|split; reflexivity]|].
  apply (axp_adc_read_range ADC_INTERNAL_TEMP
           (mk_world (mk_axp (Z.shiftl 1 ADC_INTERNAL_TEMP) 0 0)
              (mk_bus (fun _ => 0xff) [] [])));
    [exact Hch|reflexivity|reflexivity].
Defined.

(** ** What [axp_init] establishes *)

Lemma i2c_reg_read1_range (a : Z) (b : i2c_bus) :
  fst (i2c_reg_read1 a b) = I2C_STATUS_ERROR \/ 0 <= fst (i2c_reg_read1 a b) < 2 ^ 8.
Proof.
  destruct (next_fault b) eqn:Hf.
  - left. rewrite i2c_reg_read1_failed by assumption. reflexivity.
  - right. rewrite i2c_reg_read1_ok by assumption. apply u8_range.
Qed.

Lemma axp_init_enabled_adcs_paired idreg (w : world) :
  mask_paired (adc_enable (axp (snd (axp_init_enabled_adcs idreg w)))).
Proof.
  unfold axp_init_enabled_adcs, bind, get_axp, put_axp, on_bus, ret.
  destruct (i2c_reg_read1 idreg _) as [id b1]. cbn [axp bus].
  destruct (i2c_reg_read AXP_REG_ADCENABLE1 2 b1) as [[regs|] b2];
    cbn [snd axp adc_enable set_adc_enable set_chip_id].
  - apply adc_scan_paired.
  - reflexivity.
Qed.

(** The state [axp_init] leaves, whatever the registers hold and
    whatever the bus does. *)
Lemma axp_init_state ccreg idreg (w : world) :
  let w' := snd (axp_init ccreg idreg w) in
  Z.testbit (adc_enable (axp w')) ADC_CHARGE_CURRENT = true
  /\ Z.testbit (adc_enable (axp w')) ADC_DISCHARGE_CURRENT = true
  /\ -1 <= chargecurrent_setting (axp w') <= 15.
Proof.
  cbv zeta. remember (snd (axp_init ccreg idreg w)) as wf eqn:Hwf. revert Hwf.
  unfold axp_init, bind.
  pose proof (axp_init_enabled_adcs_paired idreg w) as Hp1.
  destruct (axp_init_enabled_adcs idreg w) as [[] w1]. cbn [snd] in Hp1.
  unfold get_axp at 1. cbv beta iota.
  pose (bits := Z.lor (adc_enable (axp w1)) (Z.shiftl 1 ADC_DISCHARGE_CURRENT)).
  assert (Hb8 : Z.testbit bits ADC_DISCHARGE_CURRENT = true).
  { unfold bits. rewrite Z.lor_spec, Z.shiftl_1_l, Z.pow2_bits_true by (cbv; discriminate).
    apply orb_true_r. }
  assert (Hmask : Z.testbit (adc_enable (axp (snd (axp_adc_set_enabled bits w1))))
                    ADC_CHARGE_CURRENT = true
                  /\ Z.testbit (adc_enable (axp (snd (axp_adc_set_enabled bits w1))))
                       ADC_DISCHARGE_CURRENT = true).
  { destruct (Z.eq_dec bits (adc_enable (axp w1))) as [Heq|Hne].
    - rewrite axp_adc_set_enabled_noop by assumption. cbn [snd].
      unfold mask_paired in Hp1. rewrite Hp1, <- Heq. split; assumption.
    - rewrite axp_adc_set_enabled_changed by assumption.
      cbn [snd axp set_adc_enable adc_enable].
      rewrite !adc_bits_shared_bits by (cbv; discriminate).
      unfold mask_bit_expected. rewrite Hb8.
      destruct (Z.testbit bits ADC_CHARGE_CURRENT); split; reflexivity. }
  unfold bits in Hmask. clear Hb8 bits.
  destruct (axp_adc_set_enabled _ w1) as [[] w2]. cbn [snd] in Hmask.
  unfold on_bus, get_axp, put_axp.
  pose proof (i2c_reg_read1_range ccreg (bus w2)) as Hv.
  destruct (i2c_reg_read1 ccreg (bus w2)) as [value b3]. cbn [fst] in Hv.
  cbn [snd]. intros ->.
  cbn [axp set_chargecurrent_setting adc_enable chargecurrent_setting].
  split; [apply Hmask|]. split; [apply Hmask|].
  destruct (Z.ltb_spec value 0) as [Hneg|Hpos]; [lia|].
  pose proof (land_low_range value 15 4 ltac:(lia) ltac:(lia)). lia.
Qed.

(** X5.  After [axp_init] the cached charge-current index is -1
    (unknown) or an index of the table, so [axp_get_charge_current]
    returns an entry of the table, between 100 and 1320 mA, whatever the
    charge-control register held and whether or not it could be read. *)
Theorem axp_init_charge_current_in_table ccreg idreg (w : world) :
  let w' := snd (axp_init ccreg idreg w) in
  -1 <= chargecurrent_setting (axp w') <= 15
  /\ (exists i, 0 <= i < chargecurrent_tblsz
                /\ fst (axp_get_charge_current w') = chargecurrent_at i)
  /\ 100 <= fst (axp_get_charge_current w') <= 1320.
Proof.
  cbv zeta. destruct (axp_init_state ccreg idreg w) as (_ & _ & Hset).
  cbv zeta in Hset. split; [assumption|].
  assert (Hex : exists i, 0 <= i < chargecurrent_tblsz
                  /\ fst (axp_get_charge_current (snd (axp_init ccreg idreg w)))
                     = chargecurrent_at i).
  { unfold axp_get_charge_current, bind, get_axp, ret.
    destruct (Z.ltb_spec (chargecurrent_setting (axp (snd (axp_init ccreg idreg w)))) 0).
    - exists 0. split; [change chargecurrent_tblsz with 16; lia|reflexivity].
    - eexists. split; [|reflexivity]. change chargecurrent_tblsz with 16. lia. }
  split; [exact Hex|].
  destruct Hex as (i & Hi & ->).
  pose proof (chargecurrent_tbl_ascending 0 i ltac:(lia) ltac:(lia) ltac:(lia)) as Hlo.
  pose proof (chargecurrent_tbl_ascending i 15 ltac:(lia)
                ltac:(change chargecurrent_tblsz with 16 in Hi; lia) ltac:(reflexivity)) as Hhi.
  change (chargecurrent_at 0) with 100 in Hlo. change (chargecurrent_at 15) with 1320 in Hhi.
  lia.
Qed.

(** X6.  After [axp_init] the charge-current and discharge-current
    channels are both in the enabled mask, whatever the enable registers
    held and whatever the bus did; a raw read of the discharge current
    that succeeds on the bus then returns a reading, not [INT_MIN], as
    the full-battery test of [axp_battery_status] needs. *)
Theorem axp_init_enables_discharge_current ccreg idreg (w : world) :
  let w' := snd (axp_init ccreg idreg w) in
  Z.testbit (fst (axp_adc_get_enabled w')) ADC_CHARGE_CURRENT = true
  /\ Z.testbit (fst (axp_adc_get_enabled w')) ADC_DISCHARGE_CURRENT = true
  /\ (next_fault (bus w') = false ->
      0 <= fst (axp_adc_read_raw ADC_DISCHARGE_CURRENT w') < 2 ^ 13).
Proof.
  cbv zeta. destruct (axp_init_state ccreg idreg w) as (H7 & H8 & _). cbv zeta in H7, H8.
  split; [exact H7|]. split; [exact H8|].
  intros Hok. rewrite axp_adc_read_raw_decoded by (try assumption; cbv; discriminate).
  cbn [fst]. apply (adc_raw_value_range ADC_DISCHARGE_CURRENT).
Qed.

Lemma axp_init_enables_discharge_current_witness :
  let w := mk_world (mk_axp 0 0 0)
             (mk_bus (fun a => if a =? 0x7c then 0x12 else 0) [true; true] []) in
  next_fault (bus (snd (axp_init 0x33 0x03 w))) = false
  /\ 0 <= fst (axp_adc_read_raw ADC_DISCHARGE_CURRENT (snd (axp_init 0x33 0x03 w))) < 2 ^ 13.
Proof.
  cbv zeta. split; [reflexivity|].
  apply (axp_init_enables_discharge_current 0x33 0x03
           (mk_world (mk_axp 0 0 0)
              (mk_bus (fun a => if a =? 0x7c then 0x12 else 0) [true; true] []))).
  reflexivity.
Defined.

(** X7.  The pairing of the two channels that share an enable bit is an
    invariant of the driver: it holds after [axp_init] and after any
    sequence of [axp_adc_set_enabled] calls that follows, so the reported
    mask never has one of charge and discharge current without the
    other. *)
Theorem axp_adc_mask_paired_invariant ccreg idreg (requests : list Z) (w : world) :
  let w' := fold_left (fun w0 m => snd (axp_adc_set_enabled m w0)) requests
              (snd (axp_init ccreg idreg w)) in
  Z.testbit (fst (axp_adc_get_enabled w')) ADC_CHARGE_CURRENT
  = Z.testbit (fst (axp_adc_get_enabled w')) ADC_DISCHARGE_CURRENT.
Proof.
  cbv zeta.
  assert (Hinv : forall ms w0, mask_paired (adc_enable (axp w0)) ->
            mask_paired (adc_enable (axp (fold_left
              (fun w1 m => snd (axp_adc_set_enabled m w1)) ms w0)))).
  { induction ms as [|m ms IH]; intros w0 Hp; cbn [fold_left]; [assumption|].
    apply IH, axp_adc_set_enabled_paired. assumption. }
  apply (Hinv requests). apply axp_init_paired.
Qed.

(** ** The register image of [axp_adc_set_enabled] *)

Lemma c_true_land_bit (x n : Z) :
  0 <= n -> c_true (Z.land x (Z.shiftl 1 n)) = Z.testbit x n.
Proof.
  intros Hn. unfold c_true. rewrite land_bit_eqb by assumption. apply negb_involutive.
Qed.

Lemma shiftl_1_bit (n b : Z) : 0 <= n -> 0 <= b -> Z.testbit (Z.shiftl 1 n) b = (n =? b).
Proof. intros Hn Hb. rewrite Z.shiftl_1_l. apply Z.pow2_bits_eqb. assumption. Qed.

Lemma or_into_00 (v r0 r1 : Z) : nth 0 (or_into 0 v [r0; r1]) 0 = u8 (Z.lor r0 v).
Proof. reflexivity. Qed.

Lemma or_into_01 (v r0 r1 : Z) : nth 1 (or_into 0 v [r0; r1]) 0 = r1.
Proof. reflexivity. Qed.

Lemma or_into_10 (v r0 r1 : Z) : nth 0 (or_into 1 v [r0; r1]) 0 = r0.
Proof. reflexivity. Qed.

Lemma or_into_11 (v r0 r1 : Z) : nth 1 (or_into 1 v [r0; r1]) 0 = u8 (Z.lor r1 v).
Proof. reflexivity. Qed.

Lemma adc_image_step_bits (m i : Z) (image : list Z) (idx b : Z) :
  0 <= i < NUM_ADC_CHANNELS -> length image = 2%nat -> idx = 0 \/ idx = 1 -> 0 <= b < 8 ->
  Z.testbit (nth (Z.to_nat idx) (adc_image_step m i image) 0) b
  = Z.testbit (nth (Z.to_nat idx) image 0) b || channel_enable_bit m i idx b.
Proof.
  intros Hi Hlen Hidx Hb. unfold NUM_ADC_CHANNELS in Hi.
  destruct image as [|r0 [|r1 [|]]]; try discriminate Hlen.
  unfold adc_image_step, channel_enable_bit.
  rewrite c_true_land_bit by lia.
  assert (Hcases : i = 0 \/ i = 1 \/ i = 2 \/ i = 3 \/ i = 4 \/ i = 5
                   \/ i = 6 \/ i = 7 \/ i = 8 \/ i = 9 \/ i = 10) by lia.
  repeat destruct Hcases as [->|Hcases]; try subst i;
    repeat match goal with
           | |- context [adc_info_at ?c] =>
               let x := eval vm_compute in (adc_info_at c) in
               change (adc_info_at c) with x
           end;
    cbn [adc_en_reg adc_en_bit];
    change (130 - 130) with 0; change (131 - 130) with 1;
    change (130 =? 255) with false; change (131 =? 255) with false;
    change (255 =? 255) with true; cbn [negb andb];
    try (rewrite orb_false_r; reflexivity);
    match goal with
    | |- context [Z.testbit m ?c] => destruct (Z.testbit m c)
    end;
    cbn [andb]; try (rewrite orb_false_r; reflexivity);
    destruct Hidx as [-> | ->];
    change (Z.to_nat 0) with 0%nat; change (Z.to_nat 1) with 1%nat;
    change (0 =? 0) with true; change (0 =? 1) with false;
    change (1 =? 0) with false; change (1 =? 1) with true; cbn [andb];
    rewrite ?or_into_00, ?or_into_01, ?or_into_10, ?or_into_11, ?orb_false_r;
    try reflexivity;
    rewrite u8_bits_low, Z.lor_spec, shiftl_1_bit by lia; reflexivity.
Qed.

Lemma adc_image_step_length (m i : Z) (image : list Z) :
  length image = 2%nat -> length (adc_image_step m i image) = 2%nat.
Proof.
  intros Hlen. unfold adc_image_step.
  destruct (adc_en_reg (adc_info_at i) =? 255); [assumption|].
  destruct (c_true _); [rewrite or_into_length|]; assumption.
Qed.

(** The loop over the channel table: a bit of the image is set at the
    end when it was set at the start or one of the channels visited puts
    it there. *)
Lemma adc_image_loop_bits (m : Z) (n : nat) (i0 : Z) (image : list Z) (idx b : Z) :
  0 <= i0 -> i0 + Z.of_nat n <= NUM_ADC_CHANNELS ->
  length image = 2%nat -> idx = 0 \/ idx = 1 -> 0 <= b < 8 ->
  Z.testbit (nth (Z.to_nat idx) (for_loop n i0 (adc_image_step m) image) 0) b = true
  <-> Z.testbit (nth (Z.to_nat idx) image 0) b = true
      \/ exists i, i0 <= i < i0 + Z.of_nat n /\ channel_enable_bit m i idx b = true.
Proof.
  revert i0 image. induction n as [|n IH]; intros i0 image Hi0 Hn Hlen Hidx Hb;
    cbn [for_loop].
  - split; [intros H; left; exact H|].
    intros [H|(i & Hi & _)]; [exact H|lia].
  - rewrite IH by (try apply adc_image_step_length; try assumption; lia).
    rewrite adc_image_step_bits by (try assumption; lia).
    rewrite orb_true_iff. split.
    + intros [[H|H]|(i & Hi & H)].
      * left. exact H.
      * right. exists i0. split; [lia|exact H].
      * right. exists i. split; [lia|exact H].
    + intros [H|(i & Hi & H)].
      * left. left. exact H.
      * destruct (Z.eq_dec i i0) as [->|Hne].
        -- left. right. exact H.
        -- right. exists i. split; [lia|exact H].
Qed.

Lemma adc_enable_image_length (m : Z) : length (adc_enable_image m) = 2%nat.
Proof.
  unfold adc_enable_image, adc_image_battery_power.
  destruct (c_true _); rewrite ?or_into_length; apply adc_scan_image_length.
Qed.

Lemma adc_image_battery_power_bits (m : Z) (image : list Z) (idx b : Z) :
  length image = 2%nat -> idx = 0 \/ idx = 1 -> 0 <= b < 8 ->
  Z.testbit (nth (Z.to_nat idx) (adc_image_battery_power m image) 0) b
  = Z.testbit (nth (Z.to_nat idx) image 0) b
    || (Z.testbit m ADC_BATTERY_POWER && (idx =? 0) && ((b =? 6) || (b =? 7))).
Proof.
  intros Hlen Hidx Hb. destruct image as [|r0 [|r1 [|]]]; try discriminate Hlen.
  unfold adc_image_battery_power. rewrite c_true_land_bit by (cbv; discriminate).
  destruct (Z.testbit m ADC_BATTERY_POWER); cbn [andb];
    [|rewrite orb_false_r; reflexivity].
  destruct Hidx as [-> | ->].
  - change (nth (Z.to_nat 0) (or_into 0 _ (or_into 0 _ [r0; r1])) 0)
      with (u8 (Z.lor (u8 (Z.lor r0 (Z.shiftl 1 6))) (Z.shiftl 1 7))).
    rewrite u8_bits_low, Z.lor_spec, u8_bits_low, Z.lor_spec, !shiftl_1_bit by lia.
    cbn [nth Z.to_nat Z.eqb andb].
    rewrite (Z.eqb_sym b 6), (Z.eqb_sym b 7), orb_assoc. reflexivity.
  - cbn. rewrite orb_false_r. reflexivity.
Qed.

(** X8.  The image [axp_adc_set_enabled] writes to the two enable
    registers has a bit set exactly where a requested channel has its
    enable bit, or, for a battery-power request, at the enable bits of
    the discharge current and of the battery voltage.  No channel is
    switched on in the image without being asked for, and none that is
    asked for is left out; after a successful write the two registers
    hold the image. *)
Theorem axp_adc_set_enabled_image (m : Z) (w : world) :
  m <> adc_enable (axp w) ->
  let w1 := snd (axp_adc_set_enabled m w) in
  exists image,
    trace (bus w1) = trace (bus w) ++ [BusWrite AXP_REG_ADCENABLE1 image]
    /\ length image = 2%nat
    /\ (next_fault (bus w) = false ->
        regs (bus w1) AXP_REG_ADCENABLE1 = u8 (nth 0 image 0)
        /\ regs (bus w1) AXP_REG_ADCENABLE2 = u8 (nth 1 image 0))
    /\ forall idx b, idx = 0 \/ idx = 1 -> 0 <= b < 8 ->
         (Z.testbit (nth (Z.to_nat idx) image 0) b = true
          <-> (exists i, 0 <= i < NUM_ADC_CHANNELS
                         /\ Z.testbit m i = true
                         /\ adc_en_reg (adc_info_at i) = AXP_REG_ADCENABLE1 + idx
                         /\ adc_en_bit (adc_info_at i) = b)
              \/ (Z.testbit m ADC_BATTERY_POWER = true /\ idx = 0
                  /\ (b = adc_en_bit (adc_info_at ADC_DISCHARGE_CURRENT)
                      \/ b = adc_en_bit (adc_info_at ADC_BATTERY_VOLTAGE)))).
Proof.
  intros Hne. cbv zeta. exists (adc_enable_image m).
  split; [apply axp_adc_set_enabled_trace; assumption|].
  split; [apply adc_enable_image_length|]. split.
  - intros Hok. rewrite axp_adc_set_enabled_changed by assumption. cbn [snd bus].
    unfold i2c_reg_write, bus_step. cbn [regs]. rewrite Hok.
    pose proof (adc_enable_image_length m) as Hlen.
    destruct (adc_enable_image m) as [|r0 [|r1 [|]]]; try discriminate Hlen.
    split; reflexivity.
  - intros idx b Hidx Hb. unfold adc_enable_image.
    rewrite adc_image_battery_power_bits
      by (try apply adc_scan_image_length; assumption).
    rewrite orb_true_iff.
    rewrite (adc_image_loop_bits m (Z.to_nat NUM_ADC_CHANNELS) 0 [0; 0] idx b)
      by (try assumption; try reflexivity; cbv; discriminate).
    rewrite adc_bits_shared_bits by (cbv; discriminate).
    assert (Hbp : mask_bit_expected m ADC_BATTERY_POWER = Z.testbit m ADC_BATTERY_POWER)
      by (unfold mask_bit_expected; cbn; apply orb_false_r).
    rewrite Hbp.
    assert (Hzero : Z.testbit (nth (Z.to_nat idx) [0; 0] 0) b = false)
      by (destruct Hidx as [-> | ->]; cbn [nth Z.to_nat Pos.to_nat Pos.iter_op Nat.add];
          apply Z.bits_0).
    rewrite Hzero.
    assert (Hchan : forall i,
              channel_enable_bit m i idx b = true
              <-> (adc_en_reg (adc_info_at i) <> 0xff /\ Z.testbit m i = true
                   /\ adc_en_reg (adc_info_at i) - 0x82 = idx
                   /\ adc_en_bit (adc_info_at i) = b)).
    { intros i. unfold channel_enable_bit.
      rewrite !andb_true_iff, negb_true_iff, Z.eqb_neq, !Z.eqb_eq. tauto. }
    split.
    + intros [[Hf|(i & Hi & Hc)]|Hbat]; [discriminate| |].
      * left. apply Hchan in Hc as (_ & Hm & Hr & Hbit).
        exists i. change (Z.of_nat (Z.to_nat NUM_ADC_CHANNELS)) with NUM_ADC_CHANNELS in Hi.
        split; [lia|]. split; [assumption|]. split; [|assumption].
        unfold AXP_REG_ADCENABLE1. lia.
      * right. rewrite !andb_true_iff, orb_true_iff, !Z.eqb_eq in Hbat.
        destruct Hbat as ((Hm & Hi0) & Hb67).
        split; [assumption|]. split; [assumption|].
        change (adc_en_bit (adc_info_at ADC_DISCHARGE_CURRENT)) with 6.
        change (adc_en_bit (adc_info_at ADC_BATTERY_VOLTAGE)) with 7. assumption.
    + intros [(i & Hi & Hm & Hr & Hbit)|(Hm & Hi0 & Hb67)].
      * left. right. exists i.
        change (Z.of_nat (Z.to_nat NUM_ADC_CHANNELS)) with NUM_ADC_CHANNELS.
        split; [lia|]. apply Hchan.
        unfold AXP_REG_ADCENABLE1 in Hr. repeat split; try assumption; lia.
      * right. rewrite !andb_true_iff, orb_true_iff, !Z.eqb_eq.
        change (adc_en_bit (adc_info_at ADC_DISCHARGE_CURRENT)) with 6 in Hb67.
        change (adc_en_bit (adc_info_at ADC_BATTERY_VOLTAGE)) with 7 in Hb67.
        repeat split; assumption.
Qed.

Lemma axp_adc_set_enabled_image_witness :
  let w := mk_world (mk_axp 0 0 0) (mk_bus (fun _ => 0) [] []) in
  let m := Z.shiftl 1 ADC_INTERNAL_TEMP in
  m <> adc_enable (axp w)
  /\ exists image,
       trace (bus (snd (axp_adc_set_enabled m w)))
       = trace (bus w) ++ [BusWrite AXP_REG_ADCENABLE1 image]
       /\ length image = 2%nat.
Proof.
  cbv zeta.
  assert (Hne : Z.shiftl 1 ADC_INTERNAL_TEMP
                <> adc_enable (axp (mk_world (mk_axp 0 0 0) (mk_bus (fun _ => 0) [] []))))
    by discriminate.
  split; [exact Hne|].
  destruct (axp_adc_set_enabled_image (Z.shiftl 1 ADC_INTERNAL_TEMP)
              (mk_world (mk_axp 0 0 0) (mk_bus (fun _ => 0) [] [])) Hne)
    as (image & Htrace & Hlen & _).
  exists image. split; assumption.
Defined.

(** ** Register modifies: sample rate and coulomb-counter control *)

Lemma forallb_range2 (P : Z -> Z -> bool) (n m : Z) :
  forallb (fun o => forallb (P o) (seqZ 0 m)) (seqZ 0 n) = true ->
  forall o k, 0 <= o < n -> 0 <= k < m -> P o k = true.
Proof.
  intros Hall o k Ho Hk.
  rewrite forallb_forall in Hall.
  assert (Hin : In o (seqZ 0 n)) by (apply list_elem_of_In, elem_of_seqZ; lia).
  specialize (Hall o Hin). rewrite forallb_forall in Hall.
  apply Hall, list_elem_of_In, elem_of_seqZ. lia.
Qed.

Lemma modify_byte_u8 rd (old clr set : Z) :
  modify_byte rd old clr set = modify_byte rd (u8 old) clr set.
Proof. unfold modify_byte. rewrite u8_idem. reflexivity. Qed.

(** The byte left by the modify of [axp_adc_set_rate]: the rate in bits
    6 and 7, the old contents below. *)
Lemma modify_byte_rate rd (old rate : Z) :
  let new := u8 (modify_byte rd old 0xc0 (Z.shiftl (Z.land rate 3) 6)) in
  Z.land (Z.shiftr new 6) 3 = Z.land rate 3
  /\ Z.land new 0x3f = Z.land (u8 old) 0x3f.
Proof.
  cbv zeta. rewrite modify_byte_u8.
  pose proof (u8_range old) as Ho.
  pose proof (land_low_range rate 3 2 ltac:(lia) ltac:(lia)) as Hk.
  set (o := u8 old) in *. set (k := Z.land rate 3) in *.
  assert (Hall : forall rd0,
            forallb (fun o => forallb (fun k =>
              let new := u8 (modify_byte rd0 o 0xc0 (Z.shiftl k 6)) in
              (Z.land (Z.shiftr new 6) 3 =? k) && (Z.land new 0x3f =? Z.land o 0x3f))
              (seqZ 0 4)) (seqZ 0 256) = true)
    by (intros []; vm_compute; reflexivity).
  pose proof (forallb_range2 _ _ _ (Hall rd) o k ltac:(lia) ltac:(lia)) as H.
  cbv zeta in H. apply andb_true_iff in H as [H1 H2].
  split; [apply Z.eqb_eq, H1|apply Z.eqb_eq, H2].
Qed.

(** X9.  The sample rate round-trips: after [axp_adc_set_rate rate],
    [axp_adc_get_rate] returns [rate & 3], a code between 0 and 3, and
    the low six bits of the sample-rate register are as they were before
    the set (both transactions succeeding on the bus). *)
Theorem axp_adc_rate_round_trip rd rreg dflt (rate : Z) (w : world) :
  let w1 := snd (axp_adc_set_rate rd rreg rate w) in
  next_fault (bus w) = false -> next_fault (bus w1) = false ->
  fst (axp_adc_get_rate rreg dflt w1) = Z.land rate 3
  /\ 0 <= fst (axp_adc_get_rate rreg dflt w1) <= 3
  /\ Z.land (regs (bus w1) rreg) 0x3f = Z.land (u8 (regs (bus w) rreg)) 0x3f.
Proof.
  cbv zeta. intros Hok Hok1.
  assert (Hreg : regs (bus (snd (axp_adc_set_rate rd rreg rate w))) rreg
                 = u8 (modify_byte rd (regs (bus w) rreg) 0xc0 (Z.shiftl (Z.land rate 3) 6))).
  { unfold axp_adc_set_rate, on_bus_, i2c_reg_modify1, bus_step. cbn [snd bus regs].
    rewrite Hok. unfold reg_store. rewrite Z.eqb_refl. reflexivity. }
  destruct (modify_byte_rate rd (regs (bus w) rreg) rate) as [Hrate Hlow].
  cbv zeta in Hrate, Hlow.
  assert (Hget : fst (axp_adc_get_rate rreg dflt (snd (axp_adc_set_rate rd rreg rate w)))
                 = Z.land rate 3).
  { unfold axp_adc_get_rate, bind, on_bus, ret.
    rewrite i2c_reg_read1_ok by assumption. cbv beta iota.
    rewrite Hreg, u8_idem.
    match goal with
    | |- context [u8 ?x <? 0] =>
        pose proof (u8_range x); destruct (Z.ltb_spec (u8 x) 0) as [Hneg|_]; [lia|]
    end.
    cbn [fst]. exact Hrate. }
  rewrite Hget, Hreg.
  pose proof (land_low_range rate 3 2 ltac:(lia) ltac:(lia)).
  split; [reflexivity|]. split; [lia|exact Hlow].
Qed.

Lemma axp_adc_rate_round_trip_witness :
  let w := mk_world (mk_axp 0 0 0) (mk_bus (fun _ => 0x2f) [] []) in
  (next_fault (bus w) = false
   /\ next_fault (bus (snd (axp_adc_set_rate ValueMasked 0x84 3 w))) = false)
  /\ fst (axp_adc_get_rate 0x84 2 (snd (axp_adc_set_rate ValueMasked 0x84 3 w))) = 3.
Proof.
  cbv zeta. split; [split; reflexivity|].
  apply (axp_adc_rate_round_trip ValueMasked 0x84 2 3
           (mk_world (mk_axp 0 0 0) (mk_bus (fun _ => 0x2f) [] []))); reflexivity.
Defined.

(** The byte a single-bit modify leaves: the chosen bit takes the
    value, every other bit stays. *)
Lemma setbit_byte_bits rd (old bit value i : Z) :
  0 <= bit < 8 -> 0 <= i < 8 ->
  Z.testbit (u8 (modify_byte rd old (u8 (Z.shiftl 1 bit))
                   (if c_true value then u8 (Z.shiftl 1 bit) else 0))) i
  = if i =? bit then c_true value else Z.testbit old i.
Proof.
  intros Hbit Hi. rewrite u8_bits_low by lia.
  assert (Hclr : Z.testbit (u8 (u8 (Z.shiftl 1 bit))) i = (i =? bit))
    by (rewrite !u8_bits_low, shiftl_1_bit, Z.eqb_sym by lia; reflexivity).
  assert (Hff : Z.testbit 255 i = true)
    by (change 255 with (Z.ones 8); apply Z.ones_spec_low; lia).
  unfold modify_byte. destruct rd, (c_true value);
    rewrite Z.lor_spec, !Z.land_spec, Z.lxor_spec, Hff, ?Hclr, !u8_bits_low,
      ?Hclr, ?Z.bits_0 by lia;
    rewrite u8_bits_low in Hclr by lia; rewrite ?Hclr;
    destruct (i =? bit); cbn [xorb andb orb negb];
    rewrite ?andb_true_r, ?andb_false_r, ?orb_false_r, ?orb_true_r; reflexivity.
Qed.

Lemma reg_store_eq (r : Z -> Z) (a v : Z) : reg_store r a v a = u8 v.
Proof. unfold reg_store. rewrite Z.eqb_refl. reflexivity. Qed.

Lemma reg_store_ne (r : Z -> Z) (a v a' : Z) : a' <> a -> reg_store r a v a' = r a'.
Proof. intros Hne. unfold reg_store. destruct (Z.eqb_spec a' a); [contradiction|reflexivity]. Qed.

Lemma i2c_reg_setbit1_regs rd (a bit value : Z) (b : i2c_bus) :
  next_fault b = false ->
  regs (i2c_reg_setbit1 rd a bit value b)
  = reg_store (regs b) a
      (modify_byte rd (regs b a) (u8 (Z.shiftl 1 bit))
         (if c_true value then u8 (Z.shiftl 1 bit) else 0)).
Proof.
  intros Hok. unfold i2c_reg_setbit1, i2c_reg_modify1, bus_step. cbn [regs].
  rewrite Hok. reflexivity.
Qed.

(** X10.  Enabling or disabling the coulomb counter and clearing it do
    not disturb each other: after [axp_cc_enable en] followed by
    [axp_cc_clear] (both succeeding on the bus) bit 7 of the control
    register is [en], bit 5 is set, and every other bit is as before. *)
Theorem axp_cc_enable_then_clear rd ctrl (en : bool) (w : world) :
  let w1 := snd (axp_cc_enable rd ctrl en w) in
  let w2 := snd (axp_cc_clear rd ctrl w1) in
  next_fault (bus w) = false -> next_fault (bus w1) = false ->
  Z.testbit (regs (bus w2) ctrl) 7 = en
  /\ Z.testbit (regs (bus w2) ctrl) 5 = true
  /\ (forall i, 0 <= i < 8 -> i <> 7 -> i <> 5 ->
        Z.testbit (regs (bus w2) ctrl) i = Z.testbit (regs (bus w) ctrl) i)
  /\ (forall a, a <> ctrl -> regs (bus w2) a = regs (bus w) a)
  /\ axp w2 = axp w.
Proof.
  cbv zeta. intros Hok Hok1.
  unfold axp_cc_clear, axp_cc_enable, on_bus_ in *. cbn [snd bus axp] in *.
  rewrite (i2c_reg_setbit1_regs rd ctrl 5) by assumption.
  rewrite (i2c_reg_setbit1_regs rd ctrl 7) by assumption.
  rewrite !reg_store_eq.
  assert (Hbits : forall i, 0 <= i < 8 ->
            Z.testbit
              (u8 (modify_byte rd
                     (u8 (modify_byte rd (regs (bus w) ctrl) (u8 (Z.shiftl 1 7))
                            (if c_true (if en then 1 else 0)
                             then u8 (Z.shiftl 1 7) else 0)))
                     (u8 (Z.shiftl 1 5))
                     (if c_true 1 then u8 (Z.shiftl 1 5) else 0))) i
            = if i =? 5 then true
              else if i =? 7 then en else Z.testbit (regs (bus w) ctrl) i).
  { intros i Hi.
    rewrite setbit_byte_bits by lia. destruct (Z.eqb_spec i 5); [reflexivity|].
    rewrite setbit_byte_bits by lia. destruct (Z.eqb_spec i 7); [|reflexivity].
    destruct en; reflexivity. }
  split; [rewrite Hbits by lia; reflexivity|].
  split; [rewrite Hbits by lia; reflexivity|].
  split; [|split; [|reflexivity]].
  - intros i Hi H7 H5. rewrite Hbits by assumption.
    destruct (Z.eqb_spec i 5); [contradiction|]. destruct (Z.eqb_spec i 7); [contradiction|].
    reflexivity.
  - intros a Ha. rewrite !reg_store_ne by assumption. reflexivity.
Qed.

Lemma axp_cc_enable_then_clear_witness :
  let w := mk_world (mk_axp 0 0 0) (mk_bus (fun _ => 0x41) [] []) in
  let w1 := snd (axp_cc_enable ValueAsGiven 0xb8 true w) in
  (next_fault (bus w) = false /\ next_fault (bus w1) = false)
  /\ Z.testbit (regs (bus (snd (axp_cc_clear ValueAsGiven 0xb8 w1))) 0xb8) 7 = true.
Proof.
  cbv zeta. split; [split; reflexivity|].
  apply (axp_cc_enable_then_clear ValueAsGiven 0xb8 true
           (mk_world (mk_axp 0 0 0) (mk_bus (fun _ => 0x41) [] []))); reflexivity.
Defined.

(** ** Supplies: switching off, quantisation, error results *)

(** X11.  A request of zero or a negative voltage switches a supply off
    and leaves its voltage alone: for DCDC1-3, LDO2 and LDO3 it is a
    single modify that clears the supply's enable bit and keeps every
    other bit of the enable register; for LDO1 and LDO_IO0 nothing is
    done at all.  No register other than the enable register changes,
    the voltage register included. *)
Theorem axp_supply_set_voltage_disable rd (supply : supply_id) (voltage : Z) (w : world) :
  voltage <= 0 ->
  let info := axp_supply_info supply in
  let w1 := snd (axp_supply_set_voltage rd supply voltage w) in
  axp w1 = axp w
  /\ (forall a, a <> en_reg info -> regs (bus w1) a = regs (bus w) a)
  /\ regs (bus w1) (volt_reg info) = regs (bus w) (volt_reg info)
  /\ (supply = AXP_SUPPLY_LDO1 \/ supply = AXP_SUPPLY_LDO_IO0 -> w1 = w)
  /\ (supply <> AXP_SUPPLY_LDO1 -> supply <> AXP_SUPPLY_LDO_IO0 ->
      trace (bus w1)
      = trace (bus w) ++ [BusModify (en_reg info) (u8 (Z.shiftl 1 (en_bit info))) 0]
      /\ (next_fault (bus w) = false ->
          Z.testbit (regs (bus w1) (en_reg info)) (en_bit info) = false
          /\ forall i, 0 <= i < 8 -> i <> en_bit info ->
               Z.testbit (regs (bus w1) (en_reg info)) i
               = Z.testbit (regs (bus w) (en_reg info)) i)).
Proof.
  intros Hv. cbv zeta.
  assert (Hoff : (voltage >? 0) = false) by (destruct (Z.gtb_spec voltage 0); [lia|reflexivity]).
  destruct w as [a b].
  destruct supply;
    unfold axp_supply_set_voltage, supply_set_enable, on_bus_, ret;
    cbn [axp_supply_info volt_reg volt_reg_mask en_reg en_bit step_mV
           Z.eqb Pos.eqb orb negb andb];
    rewrite ?Hoff; cbn [andb snd axp bus];
    (split; [reflexivity|]);
    try (split; [intros; reflexivity|]; split; [reflexivity|];
         split; [intros; reflexivity|]; intros H1 H2;
         solve [exfalso; apply H1; reflexivity | exfalso; apply H2; reflexivity]).
  all: change (c_true 0) with false.
  all: split; [intros a' Ha'; unfold i2c_reg_setbit1, i2c_reg_modify1, bus_step;
               cbn [regs]; destruct (next_fault b); [reflexivity|];
               apply reg_store_ne; assumption|].
  all: split; [unfold i2c_reg_setbit1, i2c_reg_modify1, bus_step;
               cbn [regs]; destruct (next_fault b); [reflexivity|];
               apply reg_store_ne; discriminate|].
  all: split; [intros [H|H]; discriminate H|].
  all: intros _ _; split; [reflexivity|].
  all: intros Hok; cbn [bus] in Hok;
    rewrite (i2c_reg_setbit1_regs rd _ _ 0) by assumption;
    rewrite reg_store_eq; change (c_true 0) with false;
    split; [rewrite (setbit_byte_bits rd _ _ 0) by lia; reflexivity|];
    intros i Hi Hne; rewrite (setbit_byte_bits rd _ _ 0) by lia;
    match goal with
    | |- context [i =? ?c] => destruct (Z.eqb_spec i c); [contradiction|reflexivity]
    end.
Qed.

Lemma axp_supply_set_voltage_disable_witness :
  let w := mk_world (mk_axp 0 0 0) (mk_bus (fun _ => 0xff) [] []) in
  let w1 := snd (axp_supply_set_voltage ValueMasked AXP_SUPPLY_LDO3 0 w) in
  0 <= 0
  /\ regs (bus w1) 0x28 = regs (bus w) 0x28
  /\ Z.testbit (regs (bus w1) 0x12) 3 = false.
Proof.
  cbv zeta. split; [lia|].
  pose proof (axp_supply_set_voltage_disable ValueMasked AXP_SUPPLY_LDO3 0
                (mk_world (mk_axp 0 0 0) (mk_bus (fun _ => 0xff) [] []))
                ltac:(lia)) as (_ & _ & Hvolt & _ & Hen).
  split; [exact Hvolt|].
  destruct (Hen ltac:(discriminate) ltac:(discriminate)) as (_ & Hbit).
  apply (Hbit eq_refl).
Defined.

(** X12.  Set then get is exact up to the step of the supply: on DCDC1,
    DCDC2, DCDC3 and LDO3 (the supplies whose voltage field starts at bit
    0) a request of any voltage within the range, with the bus working,
    reads back as the voltage rounded down to a multiple of the step
    above the minimum, at most the request and less than a step below
    it. *)
Theorem axp_supply_set_get_quantised rd (supply : supply_id) (voltage : Z) (w : world) :
  volt_reg (axp_supply_info supply) <> 0 ->
  find_first_set_bit (volt_reg_mask (axp_supply_info supply)) = 0 ->
  faults (bus w) = [] ->
  let info := axp_supply_info supply in
  min_mV info <= voltage <= max_mV info ->
  let back := min_mV info + (voltage - min_mV info) / step_mV info * step_mV info in
  fst (axp_supply_get_voltage supply (snd (axp_supply_set_voltage rd supply voltage w)))
  = Millivolts back
  /\ voltage - step_mV info < back <= voltage.
Proof.
  intros Hreg Hffs Hf. cbv zeta. intros Hv.
  destruct supply; try discriminate Hffs; try (exfalso; apply Hreg; reflexivity);
    cbn [axp_supply_info min_mV max_mV step_mV] in Hv |- *;
    (split; [|Z.to_euclidean_division_equations; lia]);
    unfold axp_supply_set_voltage, axp_supply_get_voltage, supply_set_enable,
      supply_read_voltage, bind, on_bus, on_bus_, ret, i2c_reg_setbit1;
    cbn [axp_supply_info volt_reg volt_reg_mask en_reg en_bit min_mV max_mV step_mV
           Z.eqb Pos.eqb negb orb andb].
  all: match goal with
       | |- context [(?v >? 0)] => destruct (Z.gtb_spec v 0) as [_|Hle]; [|lia]
       end; cbn [andb].
  all: match goal with
       | |- context [(?v <? ?lo) || (?v >? ?hi)] =>
           destruct (Z.ltb_spec v lo); [lia|]; destruct (Z.gtb_spec v hi); [lia|]
       end; cbn [orb].
  all: cbv beta iota; cbn [snd bus axp].
  all: rewrite (i2c_reg_modify1_quiet rd _ _ _ (bus w)) by assumption;
    rewrite i2c_reg_modify1_quiet by reflexivity.
  all: rewrite i2c_reg_read1_quiet by reflexivity; cbn [regs trace faults bus axp].
  all: match goal with
       | |- context [u8 ?x <? 0] =>
           pose proof (u8_range x); destruct (Z.ltb_spec (u8 x) 0) as [Hneg|_]; [lia|]
       end.
  all: change (c_bool (Z.shiftl 1 _ =? 0)) with 0; rewrite Z.land_0_r;
    change (c_true 0) with false; cbv beta iota.
  all: rewrite i2c_reg_read1_quiet by reflexivity; cbn [regs trace faults bus axp fst].
  all: match goal with
       | |- context [u8 ?x <? 0] =>
           pose proof (u8_range x); destruct (Z.ltb_spec (u8 x) 0) as [Hneg2|_]; [lia|]
       end.
  all: cbn [fst]; change (find_first_set_bit _) with 0; rewrite Z.shiftr_0_r.
  all: rewrite reg_store_ne by discriminate; rewrite reg_store_eq, u8_idem.
  all: match goal with
       | |- context [int_div (int_sub ?v ?lo) ?st] =>
           replace (int_div (int_sub v lo) st) with ((v - lo) / st)
       end.
  all: try (unfold int_div, int_sub;
            rewrite (wrap_int_id (_ - _)) by (unfold in_int, INT_MIN, INT_MAX; lia);
            rewrite Z.quot_div_nonneg by lia;
            symmetry; apply wrap_int_id; unfold in_int, INT_MIN, INT_MAX;
            Z.to_euclidean_division_equations; lia).
  - change 127 with (Z.ones 7).
    rewrite modify_byte_low_field by (Z.to_euclidean_division_equations; lia). reflexivity.
  - change 63 with (Z.ones 6).
    rewrite modify_byte_low_field by (Z.to_euclidean_division_equations; lia). reflexivity.
  - change 127 with (Z.ones 7).
    rewrite modify_byte_low_field by (Z.to_euclidean_division_equations; lia). reflexivity.
  - change 15 with (Z.ones 4).
    rewrite modify_byte_low_field by (Z.to_euclidean_division_equations; lia). reflexivity.
Qed.

Lemma axp_supply_set_get_quantised_witness :
  let w := mk_world (mk_axp 0 0 0) (mk_bus (fun _ => 0xa5) [] []) in
  (volt_reg (axp_supply_info AXP_SUPPLY_DCDC2) <> 0
   /\ find_first_set_bit (volt_reg_mask (axp_supply_info AXP_SUPPLY_DCDC2)) = 0
   /\ faults (bus w) = []
   /\ 700 <= 1234 <= 2275)
  /\ fst (axp_supply_get_voltage AXP_SUPPLY_DCDC2
            (snd (axp_supply_set_voltage ValueAsGiven AXP_SUPPLY_DCDC2 1234 w)))
     = Millivolts 1225.
Proof.
  cbv zeta. split; [repeat split; try reflexivity; try discriminate; lia|].
  apply (axp_supply_set_get_quantised ValueAsGiven AXP_SUPPLY_DCDC2 1234
           (mk_world (mk_axp 0 0 0) (mk_bus (fun _ => 0xa5) [] [])));
    [discriminate|reflexivity|reflexivity|cbn; lia].
Defined.

(** X13.  A positive voltage outside the range of the supply is ignored
    without a trace: no bus transaction is issued, no register and no
    driver state changes, and the supply is not switched on either. *)
Theorem axp_supply_set_voltage_rejects rd (supply : supply_id) (voltage : Z) (w : world) :
  0 < voltage ->
  voltage < min_mV (axp_supply_info supply) \/ max_mV (axp_supply_info supply) < voltage ->
  snd (axp_supply_set_voltage rd supply voltage w) = w.
Proof.
  intros Hpos Hout. rewrite axp_supply_set_voltage_out_of_range by assumption. reflexivity.
Qed.

Lemma axp_supply_set_voltage_rejects_witness :
  let w := mk_world (mk_axp 0 0 0) (mk_bus (fun _ => 0) [] []) in
  (0 < 3400 /\ max_mV (axp_supply_info AXP_SUPPLY_LDO2) < 3400)
  /\ snd (axp_supply_set_voltage ValueMasked AXP_SUPPLY_LDO2 3400 w) = w.
Proof.
  cbv zeta. split; [split; [lia|cbn; lia]|].
  apply axp_supply_set_voltage_rejects; [lia|right; cbn; lia].
Defined.

(** ** Reading a supply *)

Lemma on_bus_read1 (a : Z) (w : world) :
  on_bus (i2c_reg_read1 a) w
  = (if next_fault (bus w) then I2C_STATUS_ERROR else u8 (regs (bus w) a),
     {| axp := axp w; bus := bus_step (BusRead a 1) (regs (bus w)) (bus w) |}).
Proof.
  unfold on_bus. destruct (next_fault (bus w)) eqn:Hf.
  - rewrite i2c_reg_read1_failed by assumption. reflexivity.
  - rewrite i2c_reg_read1_ok by assumption. reflexivity.
Qed.

Lemma u8_not_negative (z : Z) : (u8 z <? 0) = false.
Proof. pose proof (u8_range z). destruct (Z.ltb_spec (u8 z) 0); [lia|reflexivity]. Qed.

Lemma bus_step_same_regs (op : bus_op) (b : i2c_bus) :
  regs (bus_step op (regs b) b) = regs b.
Proof. unfold bus_step. cbn [regs]. destruct (next_fault b); reflexivity. Qed.

(** The voltage field of a supply, as read from a register value. *)
Lemma supply_field_range (supply : supply_id) (r : Z) :
  let mask := volt_reg_mask (axp_supply_info supply) in
  0 <= Z.shiftr (Z.land (u8 r) mask) (find_first_set_bit mask)
    <= Z.shiftr mask (find_first_set_bit mask).
Proof.
  cbv zeta. destruct supply; cbn [axp_supply_info volt_reg_mask];
    try (rewrite Z.land_0_r; vm_compute; split; discriminate);
    match goal with
    | |- context [find_first_set_bit ?m] =>
        let b := eval vm_compute in (find_first_set_bit m) in
        change (find_first_set_bit m) with b
    end;
    rewrite Z.shiftr_land;
    match goal with
    | |- context [Z.land _ (Z.shiftr ?m ?b)] =>
        let k := eval vm_compute in (Z.log2 (Z.shiftr m b) + 1) in
        change (Z.shiftr m b) with (Z.ones k); rewrite Z.land_ones by lia;
        pose proof (Z.mod_pos_bound (Z.shiftr (u8 r) b) (2 ^ k) ltac:(lia));
        change (Z.ones k) with (2 ^ k - 1); lia
    end.
Qed.

(** X14.  What [axp_supply_get_voltage] can answer.  "Not present" is
    the answer for LDO1 and for no other supply, and costs no bus
    transaction.  "Disabled" is the answer whenever the read of the
    enable register fails, and otherwise only for LDO_IO0 with a mode
    other than 2.  A voltage is either 0 (the voltage register could not
    be read) or the minimum plus a whole number of steps, at most as
    many as the voltage field can hold; except for DCDC1 and DCDC3,
    whose seven-bit field reaches beyond it, this never exceeds the
    supply's maximum. *)
Theorem axp_supply_get_voltage_outcome (supply : supply_id) (w : world) :
  let info := axp_supply_info supply in
  let mask := volt_reg_mask info in
  let r := fst (axp_supply_get_voltage supply w) in
  let w1 := snd (axp_supply_get_voltage supply w) in
  (r = AXP_SUPPLY_NOT_PRESENT <-> supply = AXP_SUPPLY_LDO1)
  /\ (supply = AXP_SUPPLY_LDO1 -> w1 = w)
  /\ (supply <> AXP_SUPPLY_LDO1 -> next_fault (bus w) = true -> r = AXP_SUPPLY_DISABLED)
  /\ (r = AXP_SUPPLY_DISABLED ->
      next_fault (bus w) = true
      \/ (supply = AXP_SUPPLY_LDO_IO0
          /\ Z.land (u8 (regs (bus w) (en_reg info))) 7 <> 2))
  /\ (forall v, r = Millivolts v ->
      v = 0
      \/ exists k, 0 <= k <= Z.shiftr mask (find_first_set_bit mask)
                   /\ v = min_mV info + k * step_mV info)
  /\ (forall v, r = Millivolts v ->
      supply <> AXP_SUPPLY_DCDC1 -> supply <> AXP_SUPPLY_DCDC3 -> v <= max_mV info).
Proof.
  cbv zeta.
  pose proof (supply_field_range supply) as Hfield. cbv zeta in Hfield.
  destruct supply;
    unfold axp_supply_get_voltage, supply_read_voltage, bind, ret;
    cbn [axp_supply_info volt_reg volt_reg_mask en_reg en_bit min_mV max_mV step_mV
           Z.eqb Pos.eqb negb] in Hfield |- *;
    rewrite ?on_bus_read1;
    try (cbn [fst snd];
         repeat split; try discriminate; try reflexivity; try contradiction;
         solve [intros [? ?]; discriminate | intros ? ?; discriminate]).
  all: destruct (next_fault (bus w)) eqn:Hf;
    [change (I2C_STATUS_ERROR <? 0) with true; cbv beta iota; cbn [fst snd];
     repeat split; try discriminate; try reflexivity;
     solve [intros; left; reflexivity | intros ? ?; discriminate]|].
  all: rewrite u8_not_negative; cbv beta iota.
  all: try (change (c_bool (Z.shiftl 1 _ =? 0)) with 0; rewrite Z.land_0_r;
            change (c_true 0) with false; cbv beta iota).
  all: try (destruct (Z.eqb_spec (Z.land (u8 (regs (bus w) 144)) 7) 2) as [Hmode|Hmode];
            cbn [negb]; cbv beta iota;
            [|cbn [fst snd]; repeat split; try discriminate;
              solve [intros _; right; split; [reflexivity|assumption]
                    | intros ? ?; discriminate]]).
  all: rewrite on_bus_read1; cbn [bus axp];
    destruct (next_fault (bus_step _ _ (bus w))) eqn:Hf2;
    [change (I2C_STATUS_ERROR <? 0) with true; cbv beta iota; cbn [fst snd];
     repeat split; try discriminate;
     solve [intros v Hv; injection Hv as <-; left; reflexivity
           | intros v Hv; injection Hv as <-; intros; lia]|].
  all: rewrite u8_not_negative; cbv beta iota; cbn [fst snd];
    rewrite bus_step_same_regs;
    repeat split; try discriminate; try congruence.
  all: try (intros v Hv; injection Hv as <-; right;
            eexists; split; [apply Hfield|reflexivity]).
  all: intros v Hv; injection Hv as <-; intros;
    match goal with
    | |- context [Z.shiftr (Z.land (u8 ?x) _) _] => specialize (Hfield x)
    end;
    match type of Hfield with
    | context [Z.shiftr ?m (find_first_set_bit ?m)] =>
        let k := eval vm_compute in (Z.shiftr m (find_first_set_bit m)) in
        change (Z.shiftr m (find_first_set_bit m)) with k in Hfield
    end;
    try contradiction; lia.
Qed.

(** ** Queries write nothing *)

Lemma read_only_ret {A : Type} (a : A) : read_only (ret a).
Proof.
  intros w. cbn. split; [reflexivity|]. split; [reflexivity|].
  exists []. split; [symmetry; apply app_nil_r|reflexivity].
Qed.

Lemma read_only_get_axp : read_only get_axp.
Proof.
  intros w. cbn. split; [reflexivity|]. split; [reflexivity|].
  exists []. split; [symmetry; apply app_nil_r|reflexivity].
Qed.

Lemma read_only_bind {A B : Type} (m : drv A) (k : A -> drv B) :
  read_only m -> (forall a, read_only (k a)) -> read_only (bind m k).
Proof.
  intros Hm Hk w. unfold bind.
  destruct (Hm w) as (Ha & Hr & ops & Ht & Hops).
  destruct (m w) as [a w1]. cbn [snd] in *.
  destruct (Hk a w1) as (Ha' & Hr' & ops' & Ht' & Hops').
  split; [congruence|]. split; [congruence|].
  exists (ops ++ ops'). split.
  - rewrite Ht', Ht. symmetry. apply app_assoc.
  - rewrite forallb_app, Hops, Hops'. reflexivity.
Qed.

Lemma read_only_read (a count : Z) : read_only (on_bus (i2c_reg_read a count)).
Proof.
  intros w. unfold on_bus, i2c_reg_read.
  destruct (next_fault (bus w)); cbn [snd axp bus];
    (split; [reflexivity|]; split; [apply bus_step_same_regs|];
     exists [BusRead a count]; split; reflexivity).
Qed.

Lemma read_only_read1 (a : Z) : read_only (on_bus (i2c_reg_read1 a)).
Proof.
  intros w. rewrite on_bus_read1. cbn [snd axp bus].
  split; [reflexivity|]. split; [apply bus_step_same_regs|].
  exists [BusRead a 1]. split; reflexivity.
Qed.

Ltac read_only_step :=
  first
    [ apply read_only_ret
    | apply read_only_get_axp
    | apply read_only_read1
    | apply read_only_read
    | apply read_only_bind; [|intros ?]
    | match goal with
      | |- read_only (if ?b then _ else _) => destruct b
      | |- read_only (match ?x with _ => _ end) => destruct x
      end ].

Lemma read_only_adc_read_raw (adc : Z) : read_only (axp_adc_read_raw adc).
Proof. unfold axp_adc_read_raw. repeat read_only_step. Qed.

Lemma read_only_supply_read_voltage (info : axp_supply_info_t) :
  read_only (supply_read_voltage info).
Proof. unfold supply_read_voltage. repeat read_only_step. Qed.

Lemma read_only_input_status ps cs ac usb batt (hbs : bool) :
  read_only (axp_input_status ps cs ac usb batt hbs).
Proof. unfold axp_input_status. cbv zeta. repeat read_only_step. Qed.

(** X15.  The queries of the driver write nothing: reading a channel
    (raw or converted), the enabled channels, the battery status, a
    supply's voltage, the coulomb counters, the charge current, the
    sample rate, the state of the coulomb counter and the input status
    leave the driver's state and every register of the chip as they
    were, and put nothing but reads on the bus. *)
Theorem axp_queries_read_only ps ccbase rreg dflt ctrl cs ac usb batt pmain pusb pbatt
    (hbs : bool) (adc : Z) (supply : supply_id) (charge discharge : option Z) :
  read_only (axp_adc_read_raw adc)
  /\ read_only (axp_adc_read adc)
  /\ read_only axp_adc_get_enabled
  /\ read_only (axp_battery_status ps)
  /\ read_only (axp_supply_get_voltage supply)
  /\ read_only (axp_cc_read ccbase charge discharge)
  /\ read_only axp_get_charge_current
  /\ read_only (axp_adc_get_rate rreg dflt)
  /\ read_only (axp_cc_is_enabled ctrl)
  /\ read_only (axp_input_status ps cs ac usb batt hbs)
  /\ read_only (power_input_status ps cs ac usb batt pmain pusb pbatt hbs).
Proof.
  repeat apply conj.
  - apply read_only_adc_read_raw.
  - unfold axp_adc_read. apply read_only_bind; [apply read_only_adc_read_raw|].
    intros value. repeat read_only_step.
  - unfold axp_adc_get_enabled. repeat read_only_step.
  - unfold axp_battery_status. apply read_only_bind; [apply read_only_read1|].
    intros r. destruct (r >=? 0); [|apply read_only_ret].
    destruct (negb _); [apply read_only_ret|].
    destruct (_ =? 0); [apply read_only_ret|].
    apply read_only_bind; [apply read_only_adc_read_raw|].
    intros d. repeat read_only_step.
  - unfold axp_supply_get_voltage. cbv zeta.
    destruct (volt_reg (axp_supply_info supply) =? 0); [apply read_only_ret|].
    destruct (negb _); [|apply read_only_supply_read_voltage].
    apply read_only_bind; [apply read_only_read1|].
    intros r. destruct (r <? 0); [apply read_only_ret|].
    destruct supply;
      match goal with
      | |- read_only (if ?b then _ else _) =>
          destruct b; [apply read_only_ret|apply read_only_supply_read_voltage]
      end.
  - unfold axp_cc_read. repeat read_only_step.
  - unfold axp_get_charge_current. repeat read_only_step.
  - unfold axp_adc_get_rate. repeat read_only_step.
  - unfold axp_cc_is_enabled. repeat read_only_step.
  - apply read_only_input_status.
  - unfold power_input_status. cbv zeta.
    apply read_only_bind; [apply read_only_input_status|].
    intros s. apply read_only_ret.
Qed.

(** ** Power inputs *)

Lemma next_fault_bus_step (op : bus_op) (r : Z -> Z) (b : i2c_bus) :
  next_fault (bus_step op r b) = hd false (tl (faults b)).
Proof. reflexivity. Qed.

(** The value of [axp_input_status] in terms of the bits of the two
    status registers. *)
Lemma axp_input_status_value ps cs ac usb batt (hbs : bool) (w : world) :
  let r := u8 (regs (bus w) ps) in
  let r2 := u8 (regs (bus w) cs) in
  let ok := negb (next_fault (bus w)) in
  let ok2 := negb (hd false (tl (faults (bus w)))) in
  fst (axp_input_status ps cs ac usb batt hbs w)
  = Z.lor (Z.lor (Z.lor (if hbs then 0 else batt)
                        (if ok && Z.testbit r 7 then ac else 0))
                 (if ok && Z.testbit r 5 && negb (Z.testbit r 1) then usb else 0))
          (if hbs && ok && ok2 && Z.testbit r2 5 then batt else 0).
Proof.
  cbv zeta. unfold axp_input_status, bind, ret. rewrite on_bus_read1.
  destruct (next_fault (bus w)) eqn:Hf; cbn [negb andb].
  - change (I2C_STATUS_ERROR <? 0) with true. cbv beta iota. cbn [fst].
    rewrite andb_false_r. cbn [andb]. rewrite !Z.lor_0_r. reflexivity.
  - rewrite u8_not_negative. cbv beta iota.
    change 128 with (Z.shiftl 1 7). change 32 with (Z.shiftl 1 5).
    change 2 with (Z.shiftl 1 1).
    rewrite c_true_land_bit, !land_bit_eqb by lia. rewrite negb_involutive.
    rewrite andb_true_r.
    destruct hbs; cbn [andb].
    + rewrite on_bus_read1. cbn [bus axp]. rewrite next_fault_bus_step, bus_step_same_regs.
      destruct (hd false (tl (faults (bus w)))); cbn [negb andb].
      * change (I2C_STATUS_ERROR >=? 0) with false. cbn [andb fst].
        destruct (Z.testbit (u8 (regs (bus w) ps)) 7);
          destruct (Z.testbit (u8 (regs (bus w) ps)) 5
                    && negb (Z.testbit (u8 (regs (bus w) ps)) 1));
          rewrite ?Z.lor_0_r; reflexivity.
      * pose proof (u8_range (regs (bus w) cs)) as Hr2.
        destruct (Z.geb_spec (u8 (regs (bus w) cs)) 0) as [_|Hneg]; [|lia].
        rewrite land_bit_eqb, negb_involutive by lia. cbn [andb].
        destruct (Z.testbit (u8 (regs (bus w) cs)) 5); cbn [fst];
          destruct (Z.testbit (u8 (regs (bus w) ps)) 7);
          destruct (Z.testbit (u8 (regs (bus w) ps)) 5
                    && negb (Z.testbit (u8 (regs (bus w) ps)) 1));
          rewrite ?Z.lor_0_r; reflexivity.
    + cbn [fst]. rewrite Z.lor_0_r.
      destruct (Z.testbit (u8 (regs (bus w) ps)) 7);
        destruct (Z.testbit (u8 (regs (bus w) ps)) 5 && negb (Z.testbit (u8 (regs (bus w) ps)) 1));
        rewrite ?Z.lor_0_r; reflexivity.
Qed.

(** Which flags a disjunction of flags holds, for flags that are
    non-zero and share no bit. *)
Lemma flags_tests (ac usb batt : Z) (b0 a u b : bool) :
  ac <> 0 -> usb <> 0 -> batt <> 0 ->
  Z.land ac usb = 0 -> Z.land ac batt = 0 -> Z.land usb batt = 0 ->
  let s := Z.lor (Z.lor (Z.lor (if b0 then batt else 0) (if a then ac else 0))
                        (if u then usb else 0))
                 (if b then batt else 0) in
  c_true (Z.land s ac) = a
  /\ c_true (Z.land s usb) = u
  /\ c_true (Z.land s batt) = b0 || b.
Proof.
  intros Hac Husb Hbatt Hau Hab Hub. cbv zeta.
  assert (Hua : Z.land usb ac = 0) by (rewrite Z.land_comm; assumption).
  assert (Hba : Z.land batt ac = 0) by (rewrite Z.land_comm; assumption).
  assert (Hbu : Z.land batt usb = 0) by (rewrite Z.land_comm; assumption).
  assert (Hnz : forall z, z <> 0 -> c_true z = true)
    by (intros z Hz; unfold c_true; destruct (Z.eqb_spec z 0); [contradiction|reflexivity]).
  rewrite !Z.land_lor_distr_l.
  destruct b0, a, u, b;
    rewrite ?Z.land_diag, ?Z.land_0_l, ?Hau, ?Hab, ?Hub, ?Hua, ?Hba, ?Hbu,
      ?Z.lor_0_r, ?Z.lor_0_l, ?Z.lor_diag;
    cbn [orb]; repeat split; try reflexivity; apply Hnz; assumption.
Qed.

(** X16.  What [axp_input_status] reports, for flags that are non-zero
    and share no bit: AC exactly when the power status is read and its
    bit 7 is set; USB exactly when it is read with bit 5 set and bit 1
    (ACIN and VBUS shorted) clear; the battery always on a target
    without battery switch, and on one with it exactly when both status
    registers are read and bit 5 of the charge status is set. *)
Theorem axp_input_status_flags ps cs ac usb batt (hbs : bool) (w : world) :
  ac <> 0 -> usb <> 0 -> batt <> 0 ->
  Z.land ac usb = 0 -> Z.land ac batt = 0 -> Z.land usb batt = 0 ->
  let r := u8 (regs (bus w) ps) in
  let r2 := u8 (regs (bus w) cs) in
  let s := fst (axp_input_status ps cs ac usb batt hbs w) in
  (Z.land s ac <> 0 <-> next_fault (bus w) = false /\ Z.testbit r 7 = true)
  /\ (Z.land s usb <> 0 <->
      next_fault (bus w) = false /\ Z.testbit r 5 = true /\ Z.testbit r 1 = false)
  /\ (Z.land s batt <> 0 <->
      hbs = false
      \/ (next_fault (bus w) = false /\ hd false (tl (faults (bus w))) = false
          /\ Z.testbit r2 5 = true)).
Proof.
  intros Hac Husb Hbatt Hau Hab Hub. cbv zeta.
  assert (Hct : forall z b, c_true z = b -> (z <> 0 <-> b = true)).
  { intros z b <-. unfold c_true. destruct (Z.eqb_spec z 0); cbn [negb]; split; congruence. }
  pose proof (axp_input_status_value ps cs ac usb batt hbs w) as Hs. cbv zeta in Hs.
  replace (if hbs then 0 else batt) with (if negb hbs then batt else 0) in Hs
    by (destruct hbs; reflexivity).
  rewrite Hs.
  destruct (flags_tests ac usb batt (negb hbs)
              (negb (next_fault (bus w)) && Z.testbit (u8 (regs (bus w) ps)) 7)
              (negb (next_fault (bus w)) && Z.testbit (u8 (regs (bus w) ps)) 5
               && negb (Z.testbit (u8 (regs (bus w) ps)) 1))
              (hbs && negb (next_fault (bus w)) && negb (hd false (tl (faults (bus w))))
               && Z.testbit (u8 (regs (bus w) cs)) 5)
              Hac Husb Hbatt Hau Hab Hub) as (Ha & Hu & Hb).
  cbv zeta in Ha, Hu, Hb.
  rewrite (Hct _ _ Ha), (Hct _ _ Hu), (Hct _ _ Hb).
  destruct hbs, (next_fault (bus w)), (hd false (tl (faults (bus w)))),
    (Z.testbit (u8 (regs (bus w) ps)) 7), (Z.testbit (u8 (regs (bus w) ps)) 5),
    (Z.testbit (u8 (regs (bus w) ps)) 1), (Z.testbit (u8 (regs (bus w) cs)) 5);
    cbn [negb andb orb]; intuition congruence.
Qed.

Lemma axp_input_status_flags_witness :
  let w := mk_world (mk_axp 0 0 0) (mk_bus (fun _ => 0xa0) [] []) in
  let s := fst (axp_input_status 0x00 0x01 1 2 4 true w) in
  (1 <> 0 /\ 2 <> 0 /\ 4 <> 0
   /\ Z.land 1 2 = 0 /\ Z.land 1 4 = 0 /\ Z.land 2 4 = 0)
  /\ Z.land s 1 <> 0 /\ Z.land s 2 <> 0 /\ Z.land s 4 <> 0.
Proof.
  cbv zeta. split; [repeat split; discriminate|].
  pose proof (axp_input_status_flags 0x00 0x01 1 2 4 true
                (mk_world (mk_axp 0 0 0) (mk_bus (fun _ => 0xa0) [] []))
                ltac:(discriminate) ltac:(discriminate) ltac:(discriminate)
                eq_refl eq_refl eq_refl) as (Ha & Hu & Hb).
  split; [apply Ha; split; reflexivity|].
  split; [apply Hu; repeat split; reflexivity|].
  apply Hb. right. repeat split; reflexivity.
Defined.

(** X17.  [power_input_status] translates the inputs found by
    [axp_input_status] one to one, for input flags that are non-zero and
    share no bit: the main charger for AC, the USB charger for USB, and
    the battery only on a target with battery switch; when the power
    status cannot be read the result is 0. *)
Theorem power_input_status_flags ps cs ac usb batt pmain pusb pbatt (hbs : bool) (w : world) :
  ac <> 0 -> usb <> 0 -> batt <> 0 ->
  Z.land ac usb = 0 -> Z.land ac batt = 0 -> Z.land usb batt = 0 ->
  let r := u8 (regs (bus w) ps) in
  let r2 := u8 (regs (bus w) cs) in
  let ok := negb (next_fault (bus w)) in
  let ok2 := negb (hd false (tl (faults (bus w)))) in
  let state := fst (power_input_status ps cs ac usb batt pmain pusb pbatt hbs w) in
  state
  = Z.lor (Z.lor (if ok && Z.testbit r 7 then pmain else 0)
                 (if ok && Z.testbit r 5 && negb (Z.testbit r 1) then pusb else 0))
          (if hbs && ok && ok2 && Z.testbit r2 5 then pbatt else 0)
  /\ (next_fault (bus w) = true -> state = 0).
Proof.
  intros Hac Husb Hbatt Hau Hab Hub. cbv zeta.
  pose proof (axp_input_status_value ps cs ac usb batt hbs w) as Hs. cbv zeta in Hs.
  replace (if hbs then 0 else batt) with (if negb hbs then batt else 0) in Hs
    by (destruct hbs; reflexivity).
  destruct (flags_tests ac usb batt (negb hbs)
              (negb (next_fault (bus w)) && Z.testbit (u8 (regs (bus w) ps)) 7)
              (negb (next_fault (bus w)) && Z.testbit (u8 (regs (bus w) ps)) 5
               && negb (Z.testbit (u8 (regs (bus w) ps)) 1))
              (hbs && negb (next_fault (bus w)) && negb (hd false (tl (faults (bus w))))
               && Z.testbit (u8 (regs (bus w) cs)) 5)
              Hac Husb Hbatt Hau Hab Hub) as (Ha & Hu & Hb).
  cbv zeta in Ha, Hu, Hb. rewrite <- Hs in Ha, Hu, Hb.
  assert (Hval : fst (power_input_status ps cs ac usb batt pmain pusb pbatt hbs w)
                 = Z.lor (Z.lor (if negb (next_fault (bus w))
                                    && Z.testbit (u8 (regs (bus w) ps)) 7
                                 then pmain else 0)
                                (if negb (next_fault (bus w))
                                    && Z.testbit (u8 (regs (bus w) ps)) 5
                                    && negb (Z.testbit (u8 (regs (bus w) ps)) 1)
                                 then pusb else 0))
                         (if hbs && negb (next_fault (bus w))
                             && negb (hd false (tl (faults (bus w))))
                             && Z.testbit (u8 (regs (bus w) cs)) 5
                          then pbatt else 0)).
  { unfold power_input_status, bind, ret.
    destruct (axp_input_status ps cs ac usb batt hbs w) as [s w1]. cbn [fst] in *.
    rewrite Ha, Hu, Hb.
    destruct hbs; cbn [negb andb orb];
      repeat match goal with
             | |- context [if ?b then _ else _] => destruct b
             end;
      rewrite ?Z.lor_0_l, ?Z.lor_0_r; reflexivity. }
  split; [exact Hval|].
  intros Hf. rewrite Hval, Hf. cbn [negb andb]. rewrite andb_false_r. reflexivity.
Qed.

Lemma power_input_status_flags_witness :
  let w := mk_world (mk_axp 0 0 0) (mk_bus (fun _ => 0x22) [] []) in
  (1 <> 0 /\ 2 <> 0 /\ 4 <> 0
   /\ Z.land 1 2 = 0 /\ Z.land 1 4 = 0 /\ Z.land 2 4 = 0)
  /\ fst (power_input_status 0x00 0x01 1 2 4 16 32 64 true w) = 64.
Proof.
  cbv zeta. split; [repeat split; discriminate|].
  pose proof (power_input_status_flags 0x00 0x01 1 2 4 16 32 64 true
                (mk_world (mk_axp 0 0 0) (mk_bus (fun _ => 0x22) [] []))
                ltac:(discriminate) ltac:(discriminate) ltac:(discriminate)
                eq_refl eq_refl eq_refl) as [Hval _].
  exact Hval.
Defined.

(** ** Coulomb counter state and power off *)

(** X18.  [axp_cc_is_enabled] answers with bit 6 of the coulomb counter
    control register, and with "no" when the register cannot be read.
    [axp_cc_enable] writes bit 7 of that register, so the answer is the
    same after [axp_cc_enable en] as before it, whatever [en] is. *)
Theorem axp_cc_is_enabled_bit rd ctrl (en : bool) (w : world) :
  let w1 := snd (axp_cc_enable rd ctrl en w) in
  (next_fault (bus w) = true -> fst (axp_cc_is_enabled ctrl w) = false)
  /\ (next_fault (bus w) = false ->
      fst (axp_cc_is_enabled ctrl w) = Z.testbit (regs (bus w) ctrl) 6)
  /\ (next_fault (bus w) = false -> next_fault (bus w1) = false ->
      fst (axp_cc_is_enabled ctrl w1) = fst (axp_cc_is_enabled ctrl w)).
Proof.
  cbv zeta.
  assert (Hread : forall w', next_fault (bus w') = false ->
            fst (axp_cc_is_enabled ctrl w') = Z.testbit (regs (bus w') ctrl) 6).
  { intros w' Hok. unfold axp_cc_is_enabled, bind, ret. rewrite on_bus_read1, Hok.
    cbn [fst]. pose proof (u8_range (regs (bus w') ctrl)) as Hr.
    destruct (Z.geb_spec (u8 (regs (bus w') ctrl)) 0) as [_|Hneg]; [|lia].
    change 64 with (Z.shiftl 1 6). rewrite land_bit_eqb, negb_involutive by lia.
    apply u8_bits_low. lia. }
  split; [|split].
  - intros Hf. unfold axp_cc_is_enabled, bind, ret. rewrite on_bus_read1, Hf. reflexivity.
  - apply Hread.
  - intros Hok Hok1. rewrite !Hread by assumption.
    unfold axp_cc_enable, on_bus_. cbn [snd bus].
    rewrite (i2c_reg_setbit1_regs rd ctrl 7) by assumption.
    rewrite reg_store_eq, setbit_byte_bits by lia. reflexivity.
Qed.

(** X19.  [axp_power_off] is one modify of the shutdown register that
    sets its bit 7: the other bits of the register, the other registers
    and the driver's state stay as they are.  When the transaction fails
    no register changes, and the caller is not told. *)
Theorem axp_power_off_sets_shutdown_bit rd sreg (w : world) :
  let w1 := snd (axp_power_off rd sreg w) in
  axp w1 = axp w
  /\ trace (bus w1) = trace (bus w) ++ [BusModify sreg (u8 (Z.shiftl 1 7)) (u8 (Z.shiftl 1 7))]
  /\ (forall a, a <> sreg -> regs (bus w1) a = regs (bus w) a)
  /\ (next_fault (bus w) = true -> regs (bus w1) = regs (bus w))
  /\ (next_fault (bus w) = false ->
      Z.testbit (regs (bus w1) sreg) 7 = true
      /\ forall i, 0 <= i < 7 ->
           Z.testbit (regs (bus w1) sreg) i = Z.testbit (regs (bus w) sreg) i).
Proof.
  cbv zeta. unfold axp_power_off, on_bus_. cbn [snd axp bus].
  split; [reflexivity|]. split; [reflexivity|]. split; [|split].
  - intros a Ha. unfold i2c_reg_setbit1, i2c_reg_modify1, bus_step. cbn [regs].
    destruct (next_fault (bus w)); [reflexivity|]. apply reg_store_ne. assumption.
  - intros Hf. unfold i2c_reg_setbit1, i2c_reg_modify1, bus_step. cbn [regs].
    rewrite Hf. reflexivity.
  - intros Hok. rewrite (i2c_reg_setbit1_regs rd sreg 7 1) by assumption.
    rewrite reg_store_eq. split.
    + rewrite setbit_byte_bits by lia. reflexivity.
    + intros i Hi. rewrite setbit_byte_bits by lia.
      destruct (Z.eqb_spec i 7); [lia|reflexivity].
Qed.

(** ** Simulator: sectors written and read back *)

Lemma sector_name_start U (start i : Z) :
  sector_name U (start + i) 0 = sector_name U start i.
Proof. unfold sector_name. rewrite Z.add_0_r. reflexivity. Qed.

Lemma ata_read_one U (s : Z) (out : list Z) (fs : hostfs) :
  snd (ata_read_sectors U s 1 out fs) = ata_read_body U s fs 0 out.
Proof. reflexivity. Qed.

(** The read loop looks at nothing but the files of its sectors. *)
Lemma ata_read_loop_ext U (s : Z) (fs fs' : hostfs) (n : nat) (i0 : Z) (out : list Z) :
  refused fs' = refused fs ->
  (forall j, i0 <= j < i0 + Z.of_nat n ->
     files fs' !! sector_name U s j = files fs !! sector_name U s j) ->
  for_loop n i0 (ata_read_body U s fs') out = for_loop n i0 (ata_read_body U s fs) out.
Proof.
  intros Hr. revert i0 out. induction n as [|n IH]; intros i0 out Hfiles; cbn [for_loop];
    [reflexivity|].
  rewrite !ata_read_body_files, Hr, (Hfiles i0) by lia.
  apply IH. intros j Hj. apply Hfiles. lia.
Qed.

(** X20.  What was written is read back: after a write of [count]
    sectors from a buffer of at least 512 bytes, reading any one of the
    sectors whose file could be opened puts the first 512 bytes of that
    buffer at the start of the read buffer and leaves the rest of it;
    the same holds after [ata_delayed_write]. *)
Theorem ata_write_then_read U (start count i : Z) (buf out : list Z) (fs : hostfs) :
  0 <= i < count ->
  (512 <= length buf)%nat ->
  refused fs (sector_name U start i) = false ->
  snd (ata_read_sectors U (start + i) 1 out (snd (ata_write_sectors U start count buf fs)))
  = take 512 buf ++ drop 512 out
  /\ (i = 0 ->
      snd (ata_read_sectors U start 1 out (ata_delayed_write U start buf fs))
      = take 512 buf ++ drop 512 out).
Proof.
  intros Hi Hlen Hr.
  assert (Hback : forall n, 0 <= i < Z.of_nat n ->
            ata_read_body U (start + i) (for_loop n 0 (ata_write_body U start buf) fs) 0 out
            = take 512 buf ++ drop 512 out).
  { intros n Hn. rewrite ata_read_body_files, sector_name_start, ata_write_loop_refused, Hr.
    destruct (ata_write_loop_files U start buf n 0 fs (sector_name U start i))
      as (_ & _ & Hhit).
    rewrite (Hhit i) by (try reflexivity; try assumption; lia).
    rewrite take_take, Nat.min_id, length_take, Nat.min_l by assumption. reflexivity. }
  split.
  - rewrite ata_read_one. unfold ata_write_sectors. cbn [snd]. apply Hback. lia.
  - intros ->. rewrite ata_read_one. unfold ata_delayed_write, ata_write_sectors. cbn [snd].
    rewrite <- (Z.add_0_r start) at 1. apply Hback.
    change (Z.to_nat 1) with 1%nat. lia.
Qed.

Lemma ata_write_then_read_witness :
  let fs := mk_hostfs ∅ (fun _ => false) in
  let buf := replicate 512 7 ++ [8; 9] in
  (0 <= 1 < 2 /\ (512 <= length buf)%nat /\ refused fs (sector_name 32 63 1) = false)
  /\ snd (ata_read_sectors 32 (63 + 1) 1 (replicate 514 0)
            (snd (ata_write_sectors 32 63 2 buf fs)))
     = take 512 buf ++ drop 512 (replicate 514 0).
Proof.
  cbv zeta. split; [split; [lia|split; [vm_compute; lia|reflexivity]]|].
  destruct (ata_write_then_read 32 63 2 1 (replicate 512 7 ++ [8; 9]) (replicate 514 0)
              (mk_hostfs ∅ (fun _ => false))
              ltac:(lia) ltac:(vm_compute; lia) eq_refl) as [Hback _].
  exact Hback.
Defined.

(** X21.  A write reaches no other sector: reading [n] sectors from [s]
    gives the same after a write of [count] sectors from [start] as
    before it, when no sector read is one of those written (sector
    numbers taken as [unsigned long]). *)
Theorem ata_write_leaves_other_sectors U (start count s n : Z) (buf out : list Z)
    (fs : hostfs) :
  0 <= U ->
  (forall i j, 0 <= i < count -> 0 <= j < n ->
     (start + i) mod 2 ^ U <> (s + j) mod 2 ^ U) ->
  ata_read_sectors U s n out (snd (ata_write_sectors U start count buf fs))
  = ata_read_sectors U s n out fs.
Proof.
  intros HU Hapart. unfold ata_read_sectors, ata_write_sectors. cbn [snd]. f_equal.
  apply ata_read_loop_ext; [apply ata_write_loop_refused|].
  intros j Hj.
  destruct (ata_write_loop_files U start buf (Z.to_nat count) 0 fs (sector_name U s j))
    as (Hother & _ & _).
  apply Hother. intros i Hi Heq.
  assert (Hne : sector_name U s j <> sector_name U start i).
  { unfold sector_name. intros Hnames.
    apply (inj (String.app "sector")) in Hnames.
    apply string_app_inj_r in Hnames.
    assert (H0 : forall x, 0 <= x mod 2 ^ U) by (intros x; apply Z.mod_pos_bound; lia).
    apply (Hapart i j); [lia|lia|].
    rewrite <- (hex_value_sprintf_lX ((start + i) mod 2 ^ U)) by apply H0.
    rewrite <- (hex_value_sprintf_lX ((s + j) mod 2 ^ U)) by apply H0.
    rewrite Hnames. reflexivity. }
  contradiction.
Qed.

Lemma ata_write_leaves_other_sectors_witness :
  let fs := snd (ata_write_sectors 32 10 1 (replicate 512 5) (mk_hostfs ∅ (fun _ => false))) in
  0 <= 32
  /\ ata_read_sectors 32 10 1 (replicate 512 0)
       (snd (ata_write_sectors 32 11 2 (replicate 512 6) fs))
     = ata_read_sectors 32 10 1 (replicate 512 0) fs.
Proof.
  cbv zeta. split; [lia|].
  apply (ata_write_leaves_other_sectors 32 11 2 10 1 (replicate 512 6) (replicate 512 0));
    [lia|].
  intros i j Hi Hj. assert (j = 0) as -> by lia.
  assert (i = 0 \/ i = 1) as [-> | ->] by lia; vm_compute; discriminate.
Defined.

(** The read loop over sectors whose files all exist with 512 bytes:
    every round replaces the same 512 bytes of the buffer. *)
Lemma ata_read_loop_last U (s : Z) (fs : hostfs) (n : nat) (i0 : Z) (out d : list Z) :
  (forall j, i0 <= j <= i0 + Z.of_nat n ->
     refused fs (sector_name U s j) = false
     /\ exists dj, files fs !! sector_name U s j = Some dj /\ length dj = 512%nat) ->
  files fs !! sector_name U s (i0 + Z.of_nat n) = Some d ->
  for_loop (S n) i0 (ata_read_body U s fs) out = d ++ drop 512 out.
Proof.
  revert i0 out. induction n as [|n IH]; intros i0 out Hall Hlast.
  - cbn [for_loop]. rewrite ata_read_body_files.
    destruct (Hall i0 ltac:(cbn; lia)) as (Hr & dj & Hdj & Hlen).
    rewrite Z.add_0_r in Hlast. rewrite Hr, Hlast. rewrite Hlast in Hdj.
    injection Hdj as ->. rewrite take_ge, Hlen by lia. reflexivity.
  - change (for_loop (S (S n)) i0 (ata_read_body U s fs) out)
      with (for_loop (S n) (i0 + 1) (ata_read_body U s fs) (ata_read_body U s fs i0 out)).
    rewrite (IH (i0 + 1) _).
    + rewrite ata_read_body_files.
      destruct (Hall i0 ltac:(lia)) as (Hr & dj & Hdj & Hlen).
      rewrite Hr, Hdj, take_ge, Hlen by lia.
      rewrite drop_app_length' by (symmetry; assumption). reflexivity.
    + intros j Hj. apply Hall. lia.
    + rewrite <- Hlast. f_equal. f_equal. lia.
Qed.

(** X22.  A read of several sectors does not advance in the buffer: when
    the files of all [count] sectors exist with 512 bytes each, the
    buffer ends up with the contents of the last sector in its first
    512 bytes, and the rest of it as it was. *)
Theorem ata_read_sectors_keeps_last U (start count : Z) (out d : list Z) (fs : hostfs) :
  0 < count ->
  (forall j, 0 <= j < count ->
     refused fs (sector_name U start j) = false
     /\ exists dj, files fs !! sector_name U start j = Some dj /\ length dj = 512%nat) ->
  files fs !! sector_name U start (count - 1) = Some d ->
  snd (ata_read_sectors U start count out fs) = d ++ drop 512 out.
Proof.
  intros Hcount Hall Hlast. unfold ata_read_sectors. cbn [snd].
  replace (Z.to_nat count) with (S (Z.to_nat (count - 1))) by lia.
  apply ata_read_loop_last.
  - intros j Hj. apply Hall. lia.
  - rewrite Z2Nat.id by lia. exact Hlast.
Qed.

Lemma ata_read_sectors_keeps_last_witness :
  let fs := mk_hostfs (<["sector3F.bin" := replicate 512 1]>
                         (<["sector40.bin" := replicate 512 2]> ∅)) (fun _ => false) in
  0 < 2
  /\ snd (ata_read_sectors 32 0x3F 2 (replicate 1024 0) fs)
     = replicate 512 2 ++ drop 512 (replicate 1024 0).
Proof.
  cbv zeta. split; [lia|].
  apply (ata_read_sectors_keeps_last 32 0x3F 2 (replicate 1024 0) (replicate 512 2));
    [lia| |vm_compute; reflexivity].
  intros j Hj. assert (j = 0 \/ j = 1) as [-> | ->] by lia.
  - split; [reflexivity|]. exists (replicate 512 1). split; vm_compute; reflexivity.
  - split; [reflexivity|]. exists (replicate 512 2). split; vm_compute; reflexivity.
Defined.

(** ** Simulator: the clock *)

Lemma rtc_bcd_digits (v : Z) :
  0 <= v <= 99 ->
  rtc_bcd v = 16 * (v / 10) + v mod 10 /\ bcd_decode (rtc_bcd v) = v.
Proof.
  intros Hv.
  assert (Hall : forallb (fun v => (rtc_bcd v =? 16 * (v / 10) + v mod 10)
                                   && (bcd_decode (rtc_bcd v) =? v)) (seqZ 0 100) = true)
    by (vm_compute; reflexivity).
  rewrite forallb_forall in Hall.
  specialize (Hall v). rewrite <- list_elem_of_In, elem_of_seqZ in Hall.
  specialize (Hall ltac:(lia)). apply andb_true_iff in Hall as [H1 H2].
  split; [apply Z.eqb_eq, H1|apply Z.eqb_eq, H2].
Qed.

(** X23.  [rtc_read] gives the clock in packed BCD: for a broken-down
    time within the calendar ranges and a year from 2000 to 2099,
    addresses 1, 2, 3, 5, 6 and 7 hold seconds, minutes, hours, day,
    month (counted from 1) and year (counted from 2000), the tens in the
    high nibble and the units in the low one; every other address reads
    as the address xor 0x55. *)
Theorem rtc_read_bcd (teem : tm) (address : Z) :
  0 <= tm_sec teem <= 60 -> 0 <= tm_min teem <= 59 -> 0 <= tm_hour teem <= 23 ->
  1 <= tm_mday teem <= 31 -> 0 <= tm_mon teem <= 11 -> 100 <= tm_year teem <= 199 ->
  let field :=
    if address =? 1 then Some (tm_sec teem)
    else if address =? 2 then Some (tm_min teem)
    else if address =? 3 then Some (tm_hour teem)
    else if address =? 5 then Some (tm_mday teem)
    else if address =? 6 then Some (tm_mon teem + 1)
    else if address =? 7 then Some (tm_year teem - 100)
    else None in
  match field with
  | Some v => rtc_read teem address = 16 * (v / 10) + v mod 10
              /\ bcd_decode (rtc_read teem address) = v
  | None => rtc_read teem address = Z.lxor address 0x55
  end.
Proof.
  intros Hsec Hmin Hhour Hmday Hmon Hyear. cbv zeta. unfold rtc_read.
  assert (Hy : int_sub (tm_year teem) 100 = tm_year teem - 100)
    by (unfold int_sub; apply wrap_int_id; unfold in_int, INT_MIN, INT_MAX; lia).
  assert (Hm : int_add (tm_mon teem) 1 = tm_mon teem + 1)
    by (unfold int_add; apply wrap_int_id; unfold in_int, INT_MIN, INT_MAX; lia).
  rewrite Hy, Hm.
  destruct (Z.eqb_spec address 3) as [->|H3]; [apply rtc_bcd_digits; lia|].
  destruct (Z.eqb_spec address 2) as [->|H2]; [apply rtc_bcd_digits; lia|].
  destruct (Z.eqb_spec address 1) as [->|H1]; [apply rtc_bcd_digits; lia|].
  destruct (Z.eqb_spec address 7) as [->|H7]; [apply rtc_bcd_digits; lia|].
  destruct (Z.eqb_spec address 6) as [->|H6]; [apply rtc_bcd_digits; lia|].
  destruct (Z.eqb_spec address 5) as [->|H5]; [apply rtc_bcd_digits; lia|].
  reflexivity.
Qed.

Lemma rtc_read_bcd_witness :
  let teem := mk_tm 59 7 23 31 11 126 in
  (0 <= tm_sec teem <= 60 /\ 0 <= tm_min teem <= 59 /\ 0 <= tm_hour teem <= 23
   /\ 1 <= tm_mday teem <= 31 /\ 0 <= tm_mon teem <= 11 /\ 100 <= tm_year teem <= 199)
  /\ rtc_read teem 3 = 0x23 /\ bcd_decode (rtc_read teem 7) = 26.
Proof.
  cbv zeta. split; [cbn; lia|].
  split.
  - apply (rtc_read_bcd (mk_tm 59 7 23 31 11 126) 3); cbn; lia.
  - apply (rtc_read_bcd (mk_tm 59 7 23 31 11 126) 7); cbn; lia.
Defined.

(** ** Battery full, coulomb counter cells *)

Lemma axp_adc_read_raw_failed (adc : Z) (w : world) :
  0 <= adc -> next_fault (bus w) = true -> fst (axp_adc_read_raw adc w) = INT_MIN.
Proof.
  intros Hadc Hf. unfold axp_adc_read_raw, bind, get_axp, ret, on_bus, i2c_reg_read.
  cbv beta iota. destruct (Z.land _ _ =? 0); [reflexivity|]. rewrite Hf. reflexivity.
Qed.

(** X24.  When the battery is reported full.  [axp_battery_status]
    answers Full exactly when the power status is read with the charging
    bit clear and an external source present, the discharge-current
    channel is enabled, its registers are read, and the raw discharge
    current is 0.  With the channel disabled, or the second read failing,
    the answer is never Full. *)
Theorem axp_battery_status_full ps (w : world) :
  let r := u8 (regs (bus w) ps) in
  fst (axp_battery_status ps w) = AXP_BATT_FULL
  <-> (next_fault (bus w) = false
       /\ hd false (tl (faults (bus w))) = false
       /\ Z.land r 0x04 = 0
       /\ Z.land r 0xf0 <> 0
       /\ Z.testbit (adc_enable (axp w)) ADC_DISCHARGE_CURRENT = true
       /\ adc_raw_value ADC_DISCHARGE_CURRENT (regs (bus w)) = 0).
Proof.
  cbv zeta. unfold axp_battery_status, bind. rewrite on_bus_read1.
  pose proof (u8_range (regs (bus w) ps)) as Hr.
  destruct (next_fault (bus w)) eqn:Hf.
  - change (I2C_STATUS_ERROR >=? 0) with false. cbv beta iota. cbn [ret fst].
    split; [discriminate|]. intros (H & _). discriminate H.
  - destruct (Z.geb_spec (u8 (regs (bus w) ps)) 0) as [_|Hneg]; [|lia].
    destruct (Z.eqb_spec (Z.land (u8 (regs (bus w) ps)) 4) 0) as [H4|H4]; cbn [negb].
    2: { cbn [ret fst]. split; [discriminate|]. intros (_ & _ & H & _). contradiction. }
    destruct (Z.eqb_spec (Z.land (u8 (regs (bus w) ps)) 240) 0) as [Hext|Hext].
    { cbn [ret fst]. split; [discriminate|]. intros (_ & _ & _ & H & _). contradiction. }
    set (w1 := {| axp := axp w; bus := bus_step (BusRead ps 1) (regs (bus w)) (bus w) |}).
    destruct (Z.testbit (adc_enable (axp w)) ADC_DISCHARGE_CURRENT) eqn:Hbit.
    + destruct (hd false (tl (faults (bus w)))) eqn:Hf2.
      * pose proof (axp_adc_read_raw_failed ADC_DISCHARGE_CURRENT w1 ltac:(discriminate) Hf2)
          as Hraw.
        destruct (axp_adc_read_raw ADC_DISCHARGE_CURRENT w1) as [d w2].
        cbn [fst] in Hraw. subst d. cbn [ret fst].
        split; [discriminate|]. intros (_ & H & _). discriminate H.
      * rewrite (axp_adc_read_raw_decoded ADC_DISCHARGE_CURRENT w1 ltac:(discriminate)
                   Hbit Hf2).
        cbn [bus w1]. rewrite bus_step_same_regs.
        destruct (Z.eqb_spec (adc_raw_value ADC_DISCHARGE_CURRENT (regs (bus w))) 0)
          as [Hz|Hnz]; cbn [ret fst].
        -- split; [intros _; repeat split; assumption|reflexivity].
        -- split; [discriminate|]. intros (_ & _ & _ & _ & _ & H). contradiction.
    + rewrite (axp_adc_read_raw_disabled ADC_DISCHARGE_CURRENT w1 ltac:(discriminate) Hbit).
      cbn [ret fst]. split; [discriminate|]. intros (_ & _ & _ & _ & H & _). discriminate H.
Qed.

Lemma u32_range (z : Z) : 0 <= u32 z < 2 ^ 32.
Proof. unfold u32. apply Z.mod_pos_bound. lia. Qed.

(** X25.  The output cells of [axp_cc_read]: a null pointer stays null
    and a given cell always receives a value, one of 32 bits; whichever
    cells are given, the bus sees the same single read of the eight
    counter registers, and neither the registers nor the driver's state
    change. *)
Theorem axp_cc_read_cells cc (charge discharge : option Z) (w : world) :
  let out := fst (axp_cc_read cc charge discharge w) in
  let w1 := snd (axp_cc_read cc charge discharge w) in
  (fst out = None <-> charge = None)
  /\ (snd out = None <-> discharge = None)
  /\ (forall v, fst out = Some v \/ snd out = Some v -> 0 <= v < 2 ^ 32)
  /\ w1 = snd (axp_cc_read cc None None w)
  /\ trace (bus w1) = trace (bus w) ++ [BusRead cc 8]
  /\ regs (bus w1) = regs (bus w)
  /\ axp w1 = axp w.
Proof.
  cbv zeta. unfold axp_cc_read, bind, on_bus, i2c_reg_read, ret.
  destruct (next_fault (bus w)) eqn:Hf; cbn [fst snd bus axp trace];
    rewrite bus_step_same_regs;
    (split; [destruct charge; cbn; split; congruence|]);
    (split; [destruct discharge; cbn; split; congruence|]);
    (split; [|repeat split; reflexivity]).
  - intros v [H|H]; [destruct charge|destruct discharge];
      cbn in H; try discriminate H; injection H as <-; lia.
  - intros v [H|H]; [destruct charge|destruct discharge];
      cbn [store_out] in H; try discriminate H; injection H as <-;
      unfold axp_cc_parse; apply u32_range.
Qed.
